(** * The metadata registry of the app distribution server (main.go)

    A shallow embedding of the registry kept by [main.go]: the in-memory
    tree [allProjects] (Project -> AppEntry -> BuildInfo), the file
    [metadata.json] that backs it, and the handlers that change both.

    The Go program keeps its state in package-level variables and in the
    file system.  Here that state is one record, [World], threaded through
    a small state monad [Go].  The operating system is part of the world:
    [disk] maps a path to the contents of the file found there, [plan]
    lists the outcomes the operating system gives to the next calls (so
    that a failing rename or a torn write can be replayed), and [trace]
    records the calls made, in order.  Console output ([fmt.Printf]) is
    not modelled.  A Go slice is a list; a nil slice and an empty slice
    are the same list.

    The source holds two revisions of main.go.  The later one, with the
    delete handlers and the backup file, is the program modelled here.
    The earlier one differs in [saveMetadata] and in the refresh of an
    existing entry by [updateMetadata]; these two are kept at the end of
    the definitions as [earlier_saveMetadata] and [earlier_refreshApp]. *)

From Stdlib Require Import ZArith.
From stdpp Require Import base option list strings pretty gmap.

Set Default Proof Using "Type".
Open Scope string_scope.
Open Scope list_scope.

(** ** Data model (main.go, type declarations) *)

Record BuildInfo := mkBuildInfo {
  Version : string;
  Channel : string;
  ReleaseNotes : string;
  FileName : string;
  FileSize : Z;
  UploadTime : string;
  DownloadURL : string
}.

Record AppEntry := mkAppEntry {
  AppName : string;
  PackageName : string;
  IconPath : string;
  Builds : list BuildInfo
}.

Record Project := mkProject {
  ProjectName : string;
  Apps : list AppEntry
}.

(** [AppInfo] holds what was extracted from an uploaded APK.  Its field
    names are those of [AppEntry] and [BuildInfo], hence the module. *)
Module AppInfo.
Record t := mk {
  AppName : string;
  PackageName : string;
  Version : string;
  IconPath : string
}.
End AppInfo.

#[global] Instance BuildInfo_eq_dec : EqDecision BuildInfo.
Proof. solve_decision. Defined.
#[global] Instance AppEntry_eq_dec : EqDecision AppEntry.
Proof. solve_decision. Defined.
#[global] Instance Project_eq_dec : EqDecision Project.
Proof. solve_decision. Defined.

(** In-place assignments to one field. *)
Definition with_Builds (bs : list BuildInfo) (a : AppEntry) : AppEntry :=
  mkAppEntry (AppName a) (PackageName a) (IconPath a) bs.
Definition with_AppName (n : string) (a : AppEntry) : AppEntry :=
  mkAppEntry n (PackageName a) (IconPath a) (Builds a).
Definition with_IconPath (i : string) (a : AppEntry) : AppEntry :=
  mkAppEntry (AppName a) (PackageName a) i (Builds a).
Definition with_Apps (apps : list AppEntry) (p : Project) : Project :=
  mkProject (ProjectName p) apps.

(** ** Errors *)

(** Go's [error] values: [nil] is [None].  [Errorf] is
    [fmt.Errorf("<prefix>: %w", err)]. *)
Inductive error :=
  | ErrNotExist
  | ErrOS (msg : string)
  | ErrJSON (msg : string)
  | Errorf (prefix : string) (cause : error).

#[global] Instance error_eq_dec : EqDecision error.
Proof. solve_decision. Defined.

(** [os.IsNotExist] looks through the os package's own wrappers only, not
    through [fmt.Errorf]. *)
Definition os_IsNotExist (e : error) : bool :=
  match e with ErrNotExist => true | _ => false end.

(** ** The world: registry, disk, and the operating system's answers *)

Inductive outcome :=
  | Normal                                   (* the call behaves as documented *)
  | Failure (e : error)                      (* the call fails and changes nothing *)
  | Torn (e : error) (written : string).     (* a write fails after leaving [written] *)

Inductive event :=
  | EvLock
  | EvUnlock
  | EvStat (path : string)
  | EvRename (oldpath newpath : string)
  | EvReadFile (path : string)
  | EvWriteFile (path : string) (data : string)
  | EvRemove (path : string).

#[global] Instance event_eq_dec : EqDecision event.
Proof. solve_decision. Defined.

Record World := mkWorld {
  allProjects : list Project;
  disk : gmap string string;
  plan : list outcome;
  trace : list event
}.

Definition with_allProjects (ps : list Project) (w : World) : World :=
  mkWorld ps (disk w) (plan w) (trace w).
Definition with_disk (d : gmap string string) (w : World) : World :=
  mkWorld (allProjects w) d (plan w) (trace w).
Definition with_plan (p : list outcome) (w : World) : World :=
  mkWorld (allProjects w) (disk w) p (trace w).
Definition with_trace (t : list event) (w : World) : World :=
  mkWorld (allProjects w) (disk w) (plan w) t.

(** ** The state monad *)

Definition Go (A : Type) : Type := World → A * World.

Definition ret {A} (a : A) : Go A := λ w, (a, w).
Definition bind {A B} (m : Go A) (k : A → Go B) : Go B :=
  λ w, let '(a, w') := m w in k a w'.

Declare Scope go_scope.
Delimit Scope go_scope with go.
Notation "x <- m ;; k" := (bind m (λ x, k))
  (at level 100, m at next level, right associativity) : go_scope.
Notation "m ;;; k" := (bind m (λ _, k))
  (at level 100, right associativity) : go_scope.
Open Scope go_scope.

Definition emit (e : event) : Go unit :=
  λ w, (tt, with_trace (trace w ++ [e]) w).

Definition next_outcome : Go outcome :=
  λ w, match plan w with
       | [] => (Normal, w)
       | o :: rest => (o, with_plan rest w)
       end.

Definition get_allProjects : Go (list Project) := λ w, (allProjects w, w).
Definition set_allProjects (ps : list Project) : Go unit :=
  λ w, (tt, with_allProjects ps w).
Definition get_disk : Go (gmap string string) := λ w, (disk w, w).
Definition set_disk (d : gmap string string) : Go unit :=
  λ w, (tt, with_disk d w).

(** ** System calls (package os) *)

Definition injected (o : outcome) : option error :=
  match o with
  | Normal => None
  | Failure e => Some e
  | Torn e _ => Some e
  end.

(** [os.Stat(path)]: only the error is used by the program. *)
Definition os_Stat (path : string) : Go (option error) :=
  emit (EvStat path) ;;;
  o <- next_outcome ;;
  d <- get_disk ;;
  match injected o with
  | Some e => ret (Some e)
  | None => ret (if d !! path is Some _ then None else Some ErrNotExist)
  end.

(** [os.Rename(oldpath, newpath)]: replaces [newpath] when it exists. *)
Definition os_Rename (oldpath newpath : string) : Go (option error) :=
  emit (EvRename oldpath newpath) ;;;
  o <- next_outcome ;;
  d <- get_disk ;;
  match injected o with
  | Some e => ret (Some e)
  | None =>
      match d !! oldpath with
      | Some data => set_disk (<[newpath := data]> (delete oldpath d)) ;;; ret None
      | None => ret (Some ErrNotExist)
      end
  end.

(** [os.ReadFile(path)]. *)
Definition os_ReadFile (path : string) : Go (string + error) :=
  emit (EvReadFile path) ;;;
  o <- next_outcome ;;
  d <- get_disk ;;
  match injected o with
  | Some e => ret (inr e)
  | None =>
      match d !! path with
      | Some data => ret (inl data)
      | None => ret (inr ErrNotExist)
      end
  end.

(** [os.WriteFile(path, data, 0644)]: creates or truncates the file, then
    writes.  A failure either happens before the file is touched
    ([Failure]) or leaves some other contents behind ([Torn]). *)
Definition os_WriteFile (path data : string) : Go (option error) :=
  emit (EvWriteFile path data) ;;;
  o <- next_outcome ;;
  d <- get_disk ;;
  match o with
  | Normal => set_disk (<[path := data]> d) ;;; ret None
  | Failure e => ret (Some e)
  | Torn e written => set_disk (<[path := written]> d) ;;; ret (Some e)
  end.

(** [os.Remove(path)]. *)
Definition os_Remove (path : string) : Go (option error) :=
  emit (EvRemove path) ;;;
  o <- next_outcome ;;
  d <- get_disk ;;
  match injected o with
  | Some e => ret (Some e)
  | None =>
      match d !! path with
      | Some _ => set_disk (delete path d) ;;; ret None
      | None => ret (Some ErrNotExist)
      end
  end.

(** ** Paths (package path/filepath, with "/" as the separator) *)

(** The separator, "/". *)
Definition slash : Ascii.ascii := Ascii.ascii_of_nat 47.

(** [strings.Split(s, "/")] *)
Fixpoint split_path (s : string) : list string :=
  match s with
  | "" => [""]
  | String c rest =>
      let parts := split_path rest in
      if Ascii.eqb c slash then "" :: parts
      else match parts with
           | part :: parts => String c part :: parts
           | [] => [String c ""]
           end
  end.

(** One element of the path met by [filepath.Clean]; [stack] holds the
    elements kept so far, last first. *)
Definition clean_step (rooted : bool) (stack : list string) (elem : string)
    : list string :=
  if decide (elem = "" ∨ elem = ".") then stack
  else if decide (elem = "..") then
    match stack with
    | top :: rest => if decide (top = "..") then ".." :: stack else rest
    | [] => if rooted then [] else [".."]
    end
  else elem :: stack.

(** [filepath.Clean]: no empty and no "." element, every inner ".." taken
    out with the element before it, ".." dropped at the root. *)
Definition filepath_Clean (path : string) : string :=
  if decide (path = "") then "."
  else
    let rooted := match path with String c _ => Ascii.eqb c slash | _ => false end in
    let stack := foldl (clean_step rooted) [] (split_path path) in
    let body := String.concat "/" (reverse stack) in
    if rooted then "/" +:+ body
    else if decide (body = "") then "." else body.

(** [filepath.Join(elems...)]: empty elements are ignored, the rest is
    joined with "/" and cleaned. *)
Definition filepath_JoinAll (elems : list string) : string :=
  match filter (λ e, e ≠ "") elems with
  | [] => ""
  | parts => filepath_Clean (String.concat "/" parts)
  end.

(** [filepath.Join(dir, name)]. *)
Definition filepath_Join (dir name : string) : string :=
  filepath_JoinAll [dir; name].

(** ** Package-level constants and variables *)

Definition deletePassword : string := "9527".
Definition metadataFilePath : string := "metadata.json".
(** The local [backupPath] of [saveMetadata]. *)
Definition backupPath : string := metadataFilePath +:+ ".bak".

(** [mutex.Lock(); defer mutex.Unlock()] around the rest of a function. *)
Definition locked {A} (body : Go A) : Go A :=
  emit EvLock ;;;
  r <- body ;;
  emit EvUnlock ;;;
  ret r.

(** ** The JSON codec (package encoding/json)

    The library is a collaborator of the program, so the registry code is
    stated over any codec.  [json_Unmarshal data v] decodes [data] into
    the slice currently holding [v] and returns the slice afterwards with
    the error, as [json.Unmarshal(data, &v)] does. *)
Class Codec := {
  json_MarshalIndent : list Project → string + error;
  json_Unmarshal : string → list Project → list Project * option error
}.

Section Persistence.
Context `{Codec}.

(** main.go, loadMetadata *)
Definition loadMetadata : Go (option error) :=
  locked (
    r <- os_ReadFile metadataFilePath ;;
    match r with
    | inr err =>
        if os_IsNotExist err
        then set_allProjects [] ;;; ret None
        else ret (Some err)
    | inl data =>
        ps <- get_allProjects ;;
        let '(ps', err) := json_Unmarshal data ps in
        set_allProjects ps' ;;; ret err
    end).

(** main.go, saveMetadata.  The caller holds the mutex. *)
Definition saveMetadata : Go (option error) :=
  st <- os_Stat metadataFilePath ;;
  moved <- (if st is None
            then os_Rename metadataFilePath backupPath
            else ret None) ;;
  match moved with
  | Some err => ret (Some (Errorf "创建元数据备份失败" err))
  | None =>
      ps <- get_allProjects ;;
      match json_MarshalIndent ps with
      | inr err =>
          os_Rename backupPath metadataFilePath ;;;
          ret (Some err)
      | inl data =>
          werr <- os_WriteFile metadataFilePath data ;;
          match werr with
          | Some err =>
              os_Rename backupPath metadataFilePath ;;;
              ret (Some (Errorf "写入元数据文件失败" err))
          | None =>
              os_Remove backupPath ;;;
              ret None
          end
      end
  end.
End Persistence.

(** ** Registry mutations *)

(** The in-memory part of [updateMetadata]: find or append the project,
    find or append the app entry inside that project (refreshing the entry
    found), then put the new build at the head of its build list.  The Go
    code works through pointers into the slices; here the elements are
    altered at the indices the pointers refer to. *)
Definition refreshApp (appInfo : AppInfo.t) (appEntry : AppEntry) : AppEntry :=
  let appEntry := with_AppName (AppInfo.AppName appInfo) appEntry in
  if decide (AppInfo.IconPath appInfo ≠ "")
  then with_IconPath (AppInfo.IconPath appInfo) appEntry
  else appEntry.

Definition upsertApp (appInfo : AppInfo.t) (newBuild : BuildInfo)
    (apps : list AppEntry) : list AppEntry :=
  let '(j, apps) :=
    match list_find (λ a, PackageName a = AppInfo.PackageName appInfo) apps with
    | Some (j, _) => (j, alter (refreshApp appInfo) j apps)
    | None =>
        let newAppEntry :=
          mkAppEntry (AppInfo.AppName appInfo) (AppInfo.PackageName appInfo)
                     (AppInfo.IconPath appInfo) [] in
        (length apps, apps ++ [newAppEntry])
    end in
  alter (λ appEntry, with_Builds (newBuild :: Builds appEntry) appEntry) j apps.

Definition upsert (projectName : string) (appInfo : AppInfo.t)
    (newBuild : BuildInfo) (ps : list Project) : list Project :=
  let '(i, ps) :=
    match list_find (λ p, ProjectName p = projectName) ps with
    | Some (i, _) => (i, ps)
    | None => (length ps, ps ++ [mkProject projectName []])
    end in
  alter (λ project, with_Apps (upsertApp appInfo newBuild (Apps project)) project) i ps.

(** The scan of [handleDeleteBuild]: the first project, and in it the first
    entry, whose package name matches. *)
Fixpoint locateApp (packageName : string) (ps : list Project)
    : option (nat * nat * AppEntry) :=
  match ps with
  | [] => None
  | p :: rest =>
      match list_find (λ a, PackageName a = packageName) (Apps p) with
      | Some (j, a) => Some (0, j, a)
      | None =>
          (λ '(i, j, a), (S i, j, a)) <$> locateApp packageName rest
      end
  end.

(** The scan of [handleDeleteApp]: in the first project holding a matching
    entry, all matching entries are dropped; [buildsToDelete] is the build
    list of the last of them.  Returns the project as it is after the
    assignment, the builds, and the registry. *)
Fixpoint removeApp (packageName : string) (ps : list Project)
    : option (Project * list BuildInfo * list Project) :=
  match ps with
  | [] => None
  | p :: rest =>
      match last (filter (λ a, PackageName a = packageName) (Apps p)) with
      | Some app =>
          let newApps := filter (λ a, PackageName a ≠ packageName) (Apps p) in
          let project := with_Apps newApps p in
          Some (project, Builds app, project :: rest)
      | None =>
          (λ '(project, builds, rest'), (project, builds, p :: rest'))
            <$> removeApp packageName rest
      end
  end.

(** ** HTTP boundary *)

Definition StatusOK : nat := 200.
Definition StatusUnauthorized : nat := 401.
Definition StatusNotFound : nat := 404.
Definition StatusInternalServerError : nat := 500.

(** [c.JSON(status, gin.H{key: value})] *)
Inductive response := JSON (status : nat) (key value : string).

#[global] Instance response_eq_dec : EqDecision response.
Proof. solve_decision. Defined.

(** What the delete handlers read from the request. *)
Record Request := mkRequest {
  query_password : string;
  param_packageName : string;
  param_fileName : string
}.

Fixpoint removeFiles (builds : list BuildInfo) : Go unit :=
  match builds with
  | [] => ret tt
  | build :: rest =>
      os_Remove (filepath_Join "uploads" (FileName build)) ;;;
      removeFiles rest
  end.

Section Handlers.
Context `{Codec}.

(** main.go, updateMetadata *)
Definition updateMetadata (projectName : string) (appInfo : AppInfo.t)
    (newBuild : BuildInfo) : Go (option error) :=
  locked (
    ps <- get_allProjects ;;
    set_allProjects (upsert projectName appInfo newBuild ps) ;;;
    saveMetadata).

(** main.go, handleDeleteBuild *)
Definition handleDeleteBuild (c : Request) : Go response :=
  if decide (query_password c ≠ deletePassword)
  then ret (JSON StatusUnauthorized "error" "删除密码错误")
  else
    let packageName := param_packageName c in
    let fileName := param_fileName c in
    locked (
      ps <- get_allProjects ;;
      match locateApp packageName ps with
      | None => ret (JSON StatusNotFound "error" "构建版本未找到")
      | Some (i, j, appEntry) =>
          let newBuilds :=
            filter (λ build, FileName build ≠ fileName) (Builds appEntry) in
          let buildFound :=
            bool_decide (Exists (λ build, FileName build = fileName) (Builds appEntry)) in
          set_allProjects
            (alter (λ p, with_Apps (alter (with_Builds newBuilds) j (Apps p)) p) i ps) ;;;
          if negb buildFound
          then ret (JSON StatusNotFound "error" "构建版本未找到")
          else
            (if decide (length newBuilds = 0)
             then
               ps <- get_allProjects ;;
               set_allProjects
                 (alter (λ project,
                    with_Apps
                      (filter (λ app, PackageName app ≠ packageName) (Apps project))
                      project) i ps)
             else ret tt) ;;;
            err <- saveMetadata ;;
            match err with
            | Some _ => ret (JSON StatusInternalServerError "error" "更新元数据失败")
            | None =>
                os_Remove (filepath_Join "uploads" fileName) ;;;
                ret (JSON StatusOK "message" "构建版本已删除")
            end
      end).

(** main.go, handleDeleteApp *)
Definition handleDeleteApp (c : Request) : Go response :=
  if decide (query_password c ≠ deletePassword)
  then ret (JSON StatusUnauthorized "error" "删除密码错误")
  else
    let packageName := param_packageName c in
    locked (
      ps <- get_allProjects ;;
      match removeApp packageName ps with
      | None => ret (JSON StatusNotFound "error" "应用未找到")
      | Some (project, buildsToDelete, ps) =>
          set_allProjects ps ;;;
          (if decide (length (Apps project) = 0)
           then
             set_allProjects
               (filter (λ p, ProjectName p ≠ ProjectName project) ps)
           else ret tt) ;;;
          err <- saveMetadata ;;
          match err with
          | Some _ => ret (JSON StatusInternalServerError "error" "更新元数据失败")
          | None =>
              removeFiles buildsToDelete ;;;
              os_Remove (filepath_JoinAll
                           ["static"; "icons"; packageName +:+ ".png"]) ;;;
              ret (JSON StatusOK "message" "应用已删除")
          end
      end).
End Handlers.

(** ** Views of the registry used in the statements *)

(** The entry [updateMetadata] works on: the first entry named
    [packageName] inside the first project named [projectName]. *)
Definition targetApp (projectName packageName : string) (ps : list Project)
    : option AppEntry :=
  match list_find (λ p, ProjectName p = projectName) ps with
  | Some (_, p) => snd <$> list_find (λ a, PackageName a = packageName) (Apps p)
  | None => None
  end.

Definition targetBuilds (projectName packageName : string) (ps : list Project)
    : list BuildInfo :=
  match targetApp projectName packageName ps with
  | Some a => Builds a
  | None => []
  end.

(** The entry an upsert leaves behind, given the entry it found. *)
Definition upserted (ai : AppInfo.t) (b : BuildInfo) (found : option AppEntry)
    : AppEntry :=
  match found with
  | Some a => with_Builds (b :: Builds a) (refreshApp ai a)
  | None => mkAppEntry (AppInfo.AppName ai) (AppInfo.PackageName ai)
                       (AppInfo.IconPath ai) [b]
  end.

(** Project [p] holds an entry named [packageName]. *)
Definition hasApp (packageName : string) (p : Project) : Prop :=
  Exists (λ a, PackageName a = packageName) (Apps p).

#[global] Instance hasApp_dec packageName p : Decision (hasApp packageName p).
Proof. unfold hasApp. apply _. Defined.

(** Every package name found in the registry, project by project. *)
Definition allPackages (ps : list Project) : list string :=
  ps ≫= λ p, PackageName <$> Apps p.

(** The in-memory effect of [handleDeleteBuild] once the password has been
    accepted, read off the handler: the builds named [fileName] leave the
    first entry named [packageName]; if one was found and none is left, the
    entries named [packageName] leave that project. *)
Definition deleteBuildEffect (packageName fileName : string) (ps : list Project)
    : list Project :=
  match locateApp packageName ps with
  | None => ps
  | Some (i, j, appEntry) =>
      let newBuilds :=
        filter (λ build, FileName build ≠ fileName) (Builds appEntry) in
      let ps1 :=
        alter (λ p, with_Apps (alter (with_Builds newBuilds) j (Apps p)) p) i ps in
      if decide (Exists (λ build, FileName build = fileName) (Builds appEntry))
      then
        if decide (length newBuilds = 0)
        then alter (λ project,
               with_Apps
                 (filter (λ app, PackageName app ≠ packageName) (Apps project))
                 project) i ps1
        else ps1
      else ps1
  end.

(** The in-memory effect of [handleDeleteApp] once the password has been
    accepted, read off the handler. *)
Definition deleteAppEffect (packageName : string) (ps : list Project)
    : list Project :=
  match removeApp packageName ps with
  | None => ps
  | Some (project, _, ps') =>
      if decide (length (Apps project) = 0)
      then filter (λ p, ProjectName p ≠ ProjectName project) ps'
      else ps'
  end.

(** A sequence of uploads, each ending in [updateMetadata]. *)
Definition upsertAll `{Codec} (calls : list (string * AppInfo.t * BuildInfo))
    (w : World) : World :=
  foldl (λ w '(projectName, appInfo, newBuild),
           (updateMetadata projectName appInfo newBuild w).2) w calls.

(** The outcome the operating system gives to the [k]-th call from now
    ([Normal] once the plan is used up). *)
Definition outcome_at (k : nat) (w : World) : outcome := nth k (plan w) Normal.

(** A computation that leaves the in-memory registry alone. *)
Definition keeps_registry {A} (m : Go A) : Prop :=
  ∀ w, allProjects (m w).2 = allProjects w.

(** A computation that only adds calls at the end of the trace. *)
Definition extends_trace {A} (m : Go A) : Prop :=
  ∀ w, ∃ evs, trace (m w).2 = trace w ++ evs.

(** ** A codec and some registries to run the program on

    [plain_codec] writes a registry as the list of its project names and
    reads back the empty document only. *)
Definition plain_render (ps : list Project) : string :=
  "[" +:+ String.concat "," (ProjectName <$> ps) +:+ "]".

#[global] Instance plain_codec : Codec := {|
  json_MarshalIndent ps := inl (plain_render ps);
  json_Unmarshal data ps :=
    if decide (data = "[]") then ([], None) else (ps, Some (ErrJSON "invalid character"))
|}.

Definition build (version channel fileName : string) : BuildInfo :=
  mkBuildInfo version channel "" fileName 0 "2024-01-01 00:00:00"
              ("/downloads/" +:+ fileName).

Definition entry (appName packageName fileName : string) : AppEntry :=
  mkAppEntry appName packageName "" [build "1.0" "beta" fileName].

Definition demoApp : AppInfo.t :=
  AppInfo.mk "Example" "com.example.app" "1.0" "static/icons/com.example.app.png".

(** The same package from an APK whose icon could not be extracted. *)
Definition iconlessApp : AppInfo.t :=
  AppInfo.mk "Example 2" "com.example.app" "1.1" "".

Definition emptyWorld : World := mkWorld [] ∅ [] [].

(** One project, one entry, one build, saved on disk. *)
Definition demoWorld : World :=
  mkWorld
    [mkProject "Demo"
       [mkAppEntry "Example" "com.example.app" "static/icons/com.example.app.png"
          [build "1.0" "beta" "app-1.0-beta-100.apk"]]]
    {[ metadataFilePath := "[Demo]" ]} [] [].

(** [demoWorld] with a disk that accepts the backup rename and then refuses
    the write. *)
Definition fullDiskWorld : World :=
  with_plan [Normal; Normal; Failure (ErrOS "no space left on device"); Normal]
    demoWorld.

(** Two projects share the package "com.example.app". *)
Definition sharedPackageWorld : World :=
  mkWorld
    [mkProject "Demo"
       [entry "Example" "com.example.app" "a.apk";
        entry "Tool" "com.example.tool" "t.apk"];
     mkProject "Other" [entry "Example" "com.example.app" "b.apk"]]
    ∅ [] [].

(** Two projects share the name "Demo"; the first holds one entry only.  No
    sequence of requests builds such a registry; it can only be read from a
    [metadata.json] written by hand. *)
Definition sharedNameWorld : World :=
  mkWorld
    [mkProject "Demo" [entry "Example" "com.example.app" "a.apk"];
     mkProject "Demo" [entry "Tool" "com.example.tool" "t.apk"]]
    ∅ [] [].

(** Requests. *)
Definition deleteOnlyBuild : Request :=
  mkRequest "9527" "com.example.app" "app-1.0-beta-100.apk".
Definition deleteUnknownBuild : Request :=
  mkRequest "9527" "com.example.app" "app-9.9-beta-999.apk".
Definition deleteExampleApp : Request := mkRequest "9527" "com.example.app" "".
(** A build of a package that no entry of [demoWorld] carries. *)
Definition deleteBuildOfUnknownApp : Request :=
  mkRequest "9527" "com.example.none" "app-9.9-beta-999.apk".

(** ** The earlier revision of main.go

    [saveMetadata] without a backup file, and the refresh of an existing
    entry that assigns both fields whatever the incoming icon path is. *)
Section Earlier.
Context `{Codec}.

Definition earlier_saveMetadata : Go (option error) :=
  ps <- get_allProjects ;;
  match json_MarshalIndent ps with
  | inr err => ret (Some err)
  | inl data => os_WriteFile metadataFilePath data
  end.
End Earlier.

Definition earlier_refreshApp (appInfo : AppInfo.t) (appEntry : AppEntry)
    : AppEntry :=
  with_IconPath (AppInfo.IconPath appInfo)
    (with_AppName (AppInfo.AppName appInfo) appEntry).

(** ** Further views used in the statements *)

(** A computation that changes no file outside [paths]. *)
Definition touches_only {A} (paths : list string) (m : Go A) : Prop :=
  ∀ w path, path ∉ paths → disk (m w).2 !! path = disk w !! path.

(** A disk with a backup left behind by an interrupted save and no current
    file; the next write is refused. *)
Definition leftoverBackupWorld : World :=
  mkWorld [mkProject "Demo" []]
          {[ backupPath := "[Old]" ]}
          [Normal; Failure (ErrOS "permission denied"); Normal] [].

(** [demoWorld] where the stat of the current file is refused and the
    write that follows is torn. *)
Definition blindStatWorld : World :=
  with_plan [Failure (ErrOS "permission denied");
             Torn (ErrOS "no space left on device") "[De"] demoWorld.

(** [demoWorld] where the rename to the backup path is refused. *)
Definition noBackupWorld : World :=
  with_plan [Normal; Failure (ErrOS "permission denied")] demoWorld.

(** [demoWorld] where reading the file is refused. *)
Definition unreadableWorld : World :=
  with_plan [Failure (ErrOS "permission denied")] demoWorld.

(** A disk as a process stopped between the backup rename and the write
    leaves it: the backup only. *)
Definition interruptedSaveWorld : World :=
  mkWorld [] {[ backupPath := "[Demo]" ]} [] [].

(** Every build of the registry, in registry order. *)
Definition allBuilds (ps : list Project) : list BuildInfo :=
  ps ≫= λ p, Apps p ≫= Builds.

(** The entry the delete handlers and the detail page look at: the first
    entry named [packageName] of the first project that holds one. *)
Definition firstEntry (packageName : string) (ps : list Project)
    : option AppEntry :=
  (λ '(_, _, a), a) <$> locateApp packageName ps.

(** [demoWorld] after a second upload of the same package. *)
Definition twoBuildsWorld : World :=
  mkWorld
    [mkProject "Demo"
       [mkAppEntry "Example" "com.example.app" "static/icons/com.example.app.png"
          [build "1.1" "beta" "app-1.1-beta-200.apk";
           build "1.0" "beta" "app-1.0-beta-100.apk"]]]
    {[ metadataFilePath := "[Demo]";
       "uploads/app-1.0-beta-100.apk" := "apk 1.0";
       "uploads/app-1.1-beta-200.apk" := "apk 1.1" ]} [] [].

(** The same with a disk that refuses the write of the registry. *)
Definition twoBuildsFullDisk : World :=
  with_plan [Normal; Normal; Failure (ErrOS "no space left on device"); Normal]
    twoBuildsWorld.

(** The same with a disk that refuses to remove the APK. *)
Definition twoBuildsStickyFile : World :=
  with_plan [Normal; Normal; Normal; Normal; Failure (ErrOS "permission denied")]
    twoBuildsWorld.

(** A request for the build that [sharedPackageWorld] holds under "Other". *)
Definition deleteOtherBuild : Request := mkRequest "9527" "com.example.app" "b.apk".

Definition deleteOldBuild : Request :=
  mkRequest "9527" "com.example.app" "app-1.0-beta-100.apk".

(** The icon file of a package, as [handleDeleteApp] names it. *)
Definition iconFile (packageName : string) : string :=
  filepath_JoinAll ["static"; "icons"; packageName +:+ ".png"].

#[global] Instance outcome_eq_dec : EqDecision outcome.
Proof. solve_decision. Defined.

(** The operating system makes no call fail from now on. *)
Definition calm (w : World) : Prop := Forall (λ o, o = Normal) (plan w).

#[global] Instance calm_dec w : Decision (calm w).
Proof. unfold calm. apply _. Defined.

(** [twoBuildsWorld] with the icon on disk. *)
Definition twoBuildsWithIcon : World :=
  with_disk (<[ iconFile "com.example.app" := "png" ]> (disk twoBuildsWorld))
    twoBuildsWorld.

Definition deleteUnknownApp : Request := mkRequest "9527" "com.example.none" "".

(** ** Sequences of requests *)

(** The three requests that change the registry. *)
Inductive action :=
  | Upload (projectName : string) (appInfo : AppInfo.t) (newBuild : BuildInfo)
  | DeleteBuild (c : Request)
  | DeleteApp (c : Request).

Definition perform `{Codec} (act : action) (w : World) : World :=
  match act with
  | Upload projectName appInfo newBuild =>
      (updateMetadata projectName appInfo newBuild w).2
  | DeleteBuild c => (handleDeleteBuild c w).2
  | DeleteApp c => (handleDeleteApp c w).2
  end.

Definition performAll `{Codec} (acts : list action) (w : World) : World :=
  foldl (λ w act, perform act w) w acts.

(** Package names are pairwise distinct inside the project and no entry
    is without builds. *)
Definition well_formed_project (p : Project) : Prop :=
  NoDup (PackageName <$> Apps p) ∧ Forall (λ a, Builds a ≠ []) (Apps p).

(** Project names are pairwise distinct and every project is well formed. *)
Definition well_formed (ps : list Project) : Prop :=
  NoDup (ProjectName <$> ps) ∧ Forall well_formed_project ps.

(** ** The pages (main.go, handleAppDetailPage and the home page) *)

(** [c.String(status, body)] and [c.HTML(status, template, gin.H{...})] for
    the two templates, with the values handed to the template. *)
Inductive page :=
  | PageString (status : nat) (body : string)
  | PageDetails (status : nat) (App : AppEntry) (projectName : string)
                (BaseURL : string)
  | PageIndex (status : nat) (AllProjects : list Project) (UploadStatus : string).

(** What the page handlers read from the request: the route parameter,
    whether [c.Request.TLS] is set, [c.Request.Host], and the query
    parameter [upload]. *)
Record PageRequest := mkPageRequest {
  page_packageName : string;
  request_TLS : bool;
  request_Host : string;
  query_upload : string
}.

(** The inner loop of [handleAppDetailPage]. *)
Fixpoint findInApps (packageName : string) (apps : list AppEntry)
    : option AppEntry :=
  match apps with
  | [] => None
  | app :: rest =>
      if decide (PackageName app = packageName) then Some app
      else findInApps packageName rest
  end.

(** The outer loop: [foundApp] and [projectOwner]. *)
Fixpoint findApp (packageName : string) (ps : list Project)
    : option (AppEntry * Project) :=
  match ps with
  | [] => None
  | project :: rest =>
      match findInApps packageName (Apps project) with
      | Some foundApp => Some (foundApp, project)
      | None => findApp packageName rest
      end
  end.

(** main.go, handleAppDetailPage *)
Definition handleAppDetailPage (c : PageRequest) : Go page :=
  let packageName := page_packageName c in
  locked (
    ps <- get_allProjects ;;
    match findApp packageName ps with
    | None => ret (PageString StatusNotFound "应用未找到")
    | Some (foundApp, projectOwner) =>
        let scheme := if request_TLS c then "https" else "http" in
        let baseURL := scheme +:+ "://" +:+ request_Host c in
        ret (PageDetails StatusOK foundApp (ProjectName projectOwner) baseURL)
    end).

(** main.go, main: the handler of [GET /]. *)
Definition handleIndex (c : PageRequest) : Go page :=
  locked (
    ps <- get_allProjects ;;
    ret (PageIndex StatusOK ps (query_upload c))).

Definition viewExampleApp : PageRequest :=
  mkPageRequest "com.example.app" false "localhost:1234" "".

(** ** The mutex *)

(** No call on the mutex among [evs]. *)
Definition lock_free (evs : list event) : Prop :=
  (EvLock ∉ evs) ∧ (EvUnlock ∉ evs).

(** A computation that adds calls to the trace, none of them on the mutex. *)
Definition quiet {A} (m : Go A) : Prop :=
  ∀ w, ∃ evs, trace (m w).2 = trace w ++ evs ∧ lock_free evs.

(** From [w] to [w'] the mutex was taken once, first, and released once,
    last. *)
Definition holds_mutex_once (w w' : World) : Prop :=
  ∃ evs, trace w' = trace w ++ EvLock :: evs ++ [EvUnlock] ∧ lock_free evs.

(** ** A codec that reads back what it writes

    For registries of projects without entries: the document is the list
    of the project names, separated by "/". *)
Definition names_render (ps : list Project) : string :=
  String.concat "/" (ProjectName <$> ps).

Definition names_parse (data : string) : list Project :=
  if decide (data = "") then [] else (λ name, mkProject name []) <$> split_path data.

Definition names_codec : Codec := {|
  json_MarshalIndent ps := inl (names_render ps);
  json_Unmarshal data _ := (names_parse data, None)
|}.

(** Two projects emptied of their entries, not yet saved. *)
Definition emptiedProjectsWorld : World :=
  mkWorld [mkProject "Demo" []; mkProject "Other" []] ∅ [] [].
(** ** Uploads (main.go, handleApiUpload) *)

Definition StatusFound : nat := 302.
Definition StatusBadRequest : nat := 400.

(** [*multipart.FileHeader], with the bytes of the uploaded file. *)
Record FileHeader := mkFileHeader {
  Filename : string;
  Size : Z;
  Content : string
}.

(** What the program asks of an opened APK ([*apk.Apk]): [pkg.Label(nil)],
    [pkg.PackageName()], [pkg.Manifest().VersionName.String()] and
    [pkg.Icon(nil)]; the icon is given by the bytes [png.Encode] writes
    for it. *)
Module Apk.
Record t := mk {
  Label : string * option error;
  PackageName : string;
  VersionName : string * option error;
  Icon : string + error
}.
End Apk.

(** The libraries the upload handler calls besides package os:
    [filepath.Base], and the parser behind [apk.OpenFile], as a function of
    the bytes of the file. *)
Class Platform := {
  filepath_Base : string → string;
  apk_parse : string → Apk.t + error
}.

(** What the handler reads from the request, and the three readings of
    the clock it takes: [time.Now().UnixNano()] for the temporary name,
    [time.Now().Unix()] for the final name, and
    [time.Now().Format("2006-01-02 15:04:05")] for the record. *)
Record UploadRequest := mkUploadRequest {
  postForm_projectName : string;
  postForm_channel : string;
  postForm_releaseNotes : string;
  postForm_source : string;
  formFile : FileHeader + error;
  now_UnixNano : Z;
  now_Unix : Z;
  now_Format : string
}.

(** [c.String(status, "<message>: %s", err)], [c.Redirect] and [c.JSON]. *)
Inductive reply :=
  | ReplyString (status : nat) (message : string) (cause : option error)
  | ReplyRedirect (status : nat) (location : string)
  | ReplyJSON (status : nat) (key value : string).

#[global] Instance reply_eq_dec : EqDecision reply.
Proof. solve_decision. Defined.

(** [defer cleanup] in front of the rest of a function. *)
Definition deferred {A} (cleanup : Go unit) (body : Go A) : Go A :=
  r <- body ;;
  cleanup ;;;
  ret r.

(** [os.MkdirAll(path, 0755)].  The disk has no directories: the call only
    succeeds or fails, and is not traced. *)
Definition os_MkdirAll (path : string) : Go (option error) :=
  o <- next_outcome ;;
  ret (injected o).

(** [os.Create(path)]: the file is created or truncated. *)
Definition os_Create (path : string) : Go (option error) :=
  os_WriteFile path "".

Section Upload.
Context `{Codec} `{Platform}.

(** [apk.OpenFile(path)]: the file is read and parsed. *)
Definition apk_OpenFile (path : string) : Go (Apk.t + error) :=
  r <- os_ReadFile path ;;
  match r with
  | inr err => ret (inr err)
  | inl bytes => ret (apk_parse bytes)
  end.

(** main.go 610-635: the icon.  The result is the reply of a failed
    request, or [iconPath]; [png.Encode(iconFile, icon)] is the write of
    the bytes of the icon, and [filepath.ToSlash] changes nothing where
    the separator is "/". *)
Definition storeIcon (pkg : Apk.t) (packageName : string) : Go (string + reply) :=
  match Apk.Icon pkg with
  | inr _ => ret (inl "")
  | inl icon =>
      let iconDir := filepath_Join "static" "icons" in
      merr <- os_MkdirAll iconDir ;;
      match merr with
      | Some err =>
          ret (inr (ReplyString StatusInternalServerError "无法创建图标目录" (Some err)))
      | None =>
          let relativeIconPath :=
            filepath_JoinAll ["static"; "icons"; packageName +:+ ".png"] in
          let fullIconPath := relativeIconPath in
          cerr <- os_Create fullIconPath ;;
          match cerr with
          | Some err =>
              ret (inr (ReplyString StatusInternalServerError "无法创建图标文件" (Some err)))
          | None =>
              eerr <- os_WriteFile fullIconPath icon ;;
              match eerr with
              | Some err =>
                  ret (inr (ReplyString StatusInternalServerError
                              "无法编码图标为PNG" (Some err)))
              | None => ret (inl relativeIconPath)
              end
          end
      end
  end.

(** main.go 637-660: the record, and the reply. *)
Definition recordUpload (c : UploadRequest) (file : FileHeader)
    (appName packageName version uniqueFilename finalSavePath iconPath : string)
    : Go reply :=
  let appInfo := AppInfo.mk appName packageName version iconPath in
  let buildInfo :=
    mkBuildInfo (AppInfo.Version appInfo) (postForm_channel c)
                (postForm_releaseNotes c) uniqueFilename (Size file)
                (now_Format c) ("/downloads/" +:+ uniqueFilename) in
  uerr <- updateMetadata (postForm_projectName c) appInfo buildInfo ;;
  match uerr with
  | Some err =>
      os_Remove finalSavePath ;;;
      ret (ReplyString StatusInternalServerError "更新元数据失败" (Some err))
  | None =>
      if decide (postForm_source c = "web")
      then ret (ReplyRedirect StatusFound "/?upload=success")
      else ret (ReplyJSON StatusOK "message" "Upload successful")
  end.

(** main.go 573-660: from [apk.OpenFile] on, with the temporary file in
    place. *)
Definition ingest (c : UploadRequest) (file : FileHeader) (tempSavePath : string)
    : Go reply :=
  opened <- apk_OpenFile tempSavePath ;;
  match opened with
  | inr err => ret (ReplyString StatusInternalServerError "解析APK失败" (Some err))
  | inl pkg =>
      let '(appName, lerr) := Apk.Label pkg in
      if decide (lerr ≠ None ∨ appName = "")
      then ret (ReplyString StatusInternalServerError
                  "解析APK应用名失败或应用名为空" lerr)
      else
        let packageName := Apk.PackageName pkg in
        if decide (packageName = "")
        then ret (ReplyString StatusInternalServerError
                    "解析APK包名失败或包名为空" None)
        else
          let '(version, verr) := Apk.VersionName pkg in
          if decide (verr ≠ None ∨ version = "")
          then ret (ReplyString StatusInternalServerError
                      "解析APK版本名失败或版本名为空" verr)
          else
            let uniqueFilename :=
              packageName +:+ "-" +:+ version +:+ "-" +:+ postForm_channel c
                +:+ "-" +:+ pretty (now_Unix c) +:+ ".apk" in
            let finalSavePath := filepath_Join "uploads" uniqueFilename in
            read <- os_ReadFile tempSavePath ;;
            match read with
            | inr err =>
                ret (ReplyString StatusInternalServerError "无法读取临时文件" (Some err))
            | inl tempFileBytes =>
                werr <- os_WriteFile finalSavePath tempFileBytes ;;
                match werr with
                | Some err =>
                    ret (ReplyString StatusInternalServerError
                           "无法保存最终文件" (Some err))
                | None =>
                    stored <- storeIcon pkg packageName ;;
                    match stored with
                    | inr failed => ret failed
                    | inl iconPath =>
                        recordUpload c file appName packageName version
                          uniqueFilename finalSavePath iconPath
                    end
                end
            end
  end.

(** main.go, handleApiUpload.  [c.SaveUploadedFile(file, tempSavePath)] is
    the write of the bytes received. *)
Definition handleApiUpload (c : UploadRequest) : Go reply :=
  match formFile c with
  | inr err => ret (ReplyString StatusBadRequest "获取表单文件错误" (Some err))
  | inl file =>
      let tempSavePath :=
        filepath_Join "uploads"
          ("temp-" +:+ pretty (now_UnixNano c) +:+ "-"
             +:+ filepath_Base (Filename file)) in
      serr <- os_WriteFile tempSavePath (Content file) ;;
      match serr with
      | Some err => ret (ReplyString StatusInternalServerError "保存文件错误" (Some err))
      | None =>
          deferred (os_Remove tempSavePath ;;; ret tt)
                   (ingest c file tempSavePath)
      end
  end.
End Upload.

(** A reply sent before [updateMetadata] was reached. *)
Definition before_record (r : reply) : Prop :=
  match r with
  | ReplyString _ message _ => message ≠ "更新元数据失败"
  | _ => False
  end.

(** A handler that has not changed the registry whenever it replies before
    [updateMetadata] was reached. *)
Definition refuses_cleanly (m : Go reply) : Prop :=
  ∀ w, before_record (m w).1 → allProjects (m w).2 = allProjects w.

(** A platform to run uploads on: [filepath.Base] of a plain file name is
    the name itself, and four files stand for the APKs met. *)
Definition demoApk : Apk.t :=
  Apk.mk ("Example", None) "com.example.app" ("1.0", None) (inl "png").

#[global] Instance demo_platform : Platform := {|
  filepath_Base name := name;
  apk_parse bytes :=
    if decide (bytes = "apk") then inl demoApk
    else if decide (bytes = "apk without icon") then
      inl (Apk.mk ("Example", None) "com.example.app" ("1.0", None)
             (inr (ErrOS "icon not found")))
    else if decide (bytes = "apk without version") then
      inl (Apk.mk ("Example", None) "com.example.app" ("", None) (inl "png"))
    else inr (ErrOS "zip: not a valid zip file")
|}.

Definition uploadOf (bytes source : string) : UploadRequest :=
  mkUploadRequest "Demo" "beta" "notes" source
    (inl (mkFileHeader "app.apk" 3 bytes))
    1700000000123456789 1700000000 "2023-11-14 22:13:20".

(** A plain file name: not empty, not "." or "..", and without "/". *)
Fixpoint has_slash (s : string) : bool :=
  match s with
  | "" => false
  | String c rest => Ascii.eqb c slash || has_slash rest
  end.

Definition plain_name (s : string) : Prop :=
  has_slash s = false ∧ s ≠ "" ∧ s ≠ "." ∧ s ≠ "..".

#[global] Instance plain_name_dec s : Decision (plain_name s).
Proof. unfold plain_name. apply _. Defined.


(** ** The values an upload works with *)

Section UploadValues.
Context `{Platform}.

(** The temporary path, main.go 564. *)
Definition tempName (c : UploadRequest) (file : FileHeader) : string :=
  "temp-" +:+ pretty (now_UnixNano c) +:+ "-" +:+ filepath_Base (Filename file).

Definition tempPath (c : UploadRequest) (file : FileHeader) : string :=
  filepath_Join "uploads" (tempName c file).

(** The final file name and path, main.go 596-597. *)
Definition uniqueName (c : UploadRequest) (pkg : Apk.t) : string :=
  Apk.PackageName pkg +:+ "-" +:+ (Apk.VersionName pkg).1 +:+ "-"
    +:+ postForm_channel c +:+ "-" +:+ pretty (now_Unix c) +:+ ".apk".

Definition finalPath (c : UploadRequest) (pkg : Apk.t) : string :=
  filepath_Join "uploads" (uniqueName c pkg).

(** The icon file name and the icon path recorded, main.go 610-635. *)
Definition iconName (pkg : Apk.t) : string := Apk.PackageName pkg +:+ ".png".

Definition iconPathOf (pkg : Apk.t) : string :=
  match Apk.Icon pkg with
  | inl _ => filepath_JoinAll ["static"; "icons"; iconName pkg]
  | inr _ => ""
  end.

(** The record made of an upload, main.go 637-646. *)
Definition uploadedApp (pkg : Apk.t) : AppInfo.t :=
  AppInfo.mk (Apk.Label pkg).1 (Apk.PackageName pkg) (Apk.VersionName pkg).1
             (iconPathOf pkg).

Definition uploadedBuild (c : UploadRequest) (file : FileHeader) (pkg : Apk.t)
    : BuildInfo :=
  mkBuildInfo (Apk.VersionName pkg).1 (postForm_channel c)
              (postForm_releaseNotes c) (uniqueName c pkg) (Size file)
              (now_Format c) ("/downloads/" +:+ uniqueName c pkg).

(** The disk once the APK is stored under its final name and the icon is
    written, and the calls made for it, main.go 599-635. *)
Definition storedDisk (c : UploadRequest) (file : FileHeader) (pkg : Apk.t)
    (d : gmap string string) : gmap string string :=
  let kept := <[finalPath c pkg := Content file]> d in
  match Apk.Icon pkg with
  | inl icon => <[iconPathOf pkg := icon]> (<[iconPathOf pkg := ""]> kept)
  | inr _ => kept
  end.

Definition storingCalls (c : UploadRequest) (file : FileHeader) (pkg : Apk.t)
    : list event :=
  [EvReadFile (tempPath c file); EvReadFile (tempPath c file);
   EvWriteFile (finalPath c pkg) (Content file)]
  ++ match Apk.Icon pkg with
     | inl icon => [EvWriteFile (iconPathOf pkg) ""; EvWriteFile (iconPathOf pkg) icon]
     | inr _ => []
     end.

(** The names an upload builds are plain file names, and the temporary
    name is not the final one. *)
Definition plain_upload (c : UploadRequest) (file : FileHeader) (pkg : Apk.t)
    : Prop :=
  plain_name (tempName c file) ∧ plain_name (uniqueName c pkg) ∧
  plain_name (iconName pkg) ∧ tempName c file ≠ uniqueName c pkg.
End UploadValues.

(** An APK the handler accepts: app name, package name and version are
    read without error and are not empty. *)
Definition valid_apk (pkg : Apk.t) : Prop :=
  (Apk.Label pkg).2 = None ∧ (Apk.Label pkg).1 ≠ "" ∧
  Apk.PackageName pkg ≠ "" ∧
  (Apk.VersionName pkg).2 = None ∧ (Apk.VersionName pkg).1 ≠ "".

#[global] Instance valid_apk_dec pkg : Decision (valid_apk pkg).
Proof. unfold valid_apk. apply _. Defined.

(** The reply of an upload that went through, main.go 655-660. *)
Definition accepted (c : UploadRequest) : reply :=
  if decide (postForm_source c = "web")
  then ReplyRedirect StatusFound "/?upload=success"
  else ReplyJSON StatusOK "message" "Upload successful".

(** Worlds to run uploads on: an empty server whose disk takes the APK and
    the icon and then refuses the registry file, and an empty server whose
    disk is full from the start. *)
Definition uploadFullDisk : World :=
  mkWorld [] ∅
    (replicate 8 Normal ++ [Failure (ErrOS "no space left on device")]) [].

Definition uploadNoSpace : World :=
  mkWorld [] ∅ [Torn (ErrOS "no space left on device") "ap"] [].

(** A computation that leaves a calm system calm: it only takes answers
    from the front of the plan. *)
Definition stays_calm {A} (m : Go A) : Prop := ∀ w, calm w → calm (m w).2.
(** * Theorems *)

(** ** Running the program: basic facts *)

Ltac go_unfold :=
  unfold locked, os_Stat, os_Rename, os_ReadFile, os_WriteFile, os_Remove,
    bind, ret, emit, next_outcome, get_allProjects, set_allProjects,
    get_disk, set_disk, with_trace, with_plan, with_disk, with_allProjects in *.

Lemma paths_differ : metadataFilePath ≠ backupPath.
Proof. done. Qed.

Lemma keeps_ret {A} (a : A) : keeps_registry (ret a).
Proof. done. Qed.

Lemma keeps_bind {A B} (m : Go A) (k : A → Go B) :
  keeps_registry m → (∀ a, keeps_registry (k a)) → keeps_registry (bind m k).
Proof.
  intros Hm Hk w. unfold bind. specialize (Hm w).
  destruct (m w) as [a w1]; simpl in *. by rewrite Hk.
Qed.

Lemma keeps_emit e : keeps_registry (emit e).
Proof. done. Qed.

Lemma keeps_next_outcome : keeps_registry next_outcome.
Proof. intros w. unfold next_outcome. by destruct (plan w). Qed.

Lemma keeps_get_disk : keeps_registry get_disk.
Proof. done. Qed.

Lemma keeps_set_disk d : keeps_registry (set_disk d).
Proof. done. Qed.

Lemma keeps_get_allProjects : keeps_registry get_allProjects.
Proof. done. Qed.

Create HintDb keeps.
#[global] Hint Resolve keeps_ret keeps_emit keeps_next_outcome keeps_get_disk
  keeps_set_disk keeps_get_allProjects : keeps.

Ltac keeps_tac :=
  repeat first
    [ progress eauto with keeps
    | apply keeps_bind
    | match goal with
      | |- ∀ _, keeps_registry _ => intros ?
      | |- keeps_registry (match ?x with _ => _ end) => destruct x
      end ].

Lemma keeps_os_Stat path : keeps_registry (os_Stat path).
Proof. unfold os_Stat. keeps_tac. Qed.

Lemma keeps_os_Rename a b : keeps_registry (os_Rename a b).
Proof. unfold os_Rename. keeps_tac. Qed.

Lemma keeps_os_WriteFile path data : keeps_registry (os_WriteFile path data).
Proof. unfold os_WriteFile. keeps_tac. Qed.

Lemma keeps_os_Remove path : keeps_registry (os_Remove path).
Proof. unfold os_Remove. keeps_tac. Qed.

#[global] Hint Resolve keeps_os_Stat keeps_os_Rename keeps_os_WriteFile
  keeps_os_Remove : keeps.

Lemma keeps_removeFiles builds : keeps_registry (removeFiles builds).
Proof. induction builds; simpl; keeps_tac. Qed.

Lemma keeps_saveMetadata `{Codec} : keeps_registry saveMetadata.
Proof. unfold saveMetadata. keeps_tac. Qed.

#[global] Hint Resolve keeps_removeFiles keeps_saveMetadata : keeps.

(** ** Persistence: saveMetadata and loadMetadata *)

Ltac save_run :=
  unfold saveMetadata, backupPath; go_unfold; simpl.

Ltac save_finish :=
  simpl; simplify_map_eq; rewrite <- ?app_assoc; simpl;
  repeat split; try done; intros; simplify_map_eq; done.

(** C1. saveMetadata follows the backup-then-write protocol.  With a
    current [metadata.json] on disk (contents [old]) whose stat and rename
    to [metadata.json.bak] go through, the calls made are, in this order:
    stat, rename to the backup path, then
    - if serialization fails with [e]: rename the backup back; the result
      is [e] itself;
    - if the write fails with [e]: the write, then rename the backup back;
      the result is [e] wrapped by [fmt.Errorf];
    - otherwise: the write, then removal of the backup; the result is nil
      and the primary path holds the serialized registry.
    When the restoring rename is not itself made to fail, the primary path
    holds [old] again and no backup is left; when the final removal is not
    made to fail, no backup is left.  The in-memory registry is never
    touched. *)
Theorem saveMetadata_backup_then_write `{Codec} (w : World) (old : string) :
  disk w !! metadataFilePath = Some old →
  outcome_at 0 w = Normal →
  outcome_at 1 w = Normal →
  let '(err, w') := saveMetadata w in
  allProjects w' = allProjects w ∧
  match json_MarshalIndent (allProjects w) with
  | inr e =>
      err = Some e ∧
      trace w' = trace w ++ [EvStat metadataFilePath;
                             EvRename metadataFilePath backupPath;
                             EvRename backupPath metadataFilePath] ∧
      (outcome_at 2 w = Normal →
       disk w' !! metadataFilePath = Some old ∧ disk w' !! backupPath = None)
  | inl data =>
      match injected (outcome_at 2 w) with
      | Some e =>
          err = Some (Errorf "写入元数据文件失败" e) ∧
          trace w' = trace w ++ [EvStat metadataFilePath;
                                 EvRename metadataFilePath backupPath;
                                 EvWriteFile metadataFilePath data;
                                 EvRename backupPath metadataFilePath] ∧
          (outcome_at 3 w = Normal →
           disk w' !! metadataFilePath = Some old ∧ disk w' !! backupPath = None)
      | None =>
          err = None ∧
          trace w' = trace w ++ [EvStat metadataFilePath;
                                 EvRename metadataFilePath backupPath;
                                 EvWriteFile metadataFilePath data;
                                 EvRemove backupPath] ∧
          disk w' !! metadataFilePath = Some data ∧
          (outcome_at 3 w = Normal → disk w' !! backupPath = None)
      end
  end.
Proof.
  destruct w as [ps d pl tr]. unfold outcome_at. simpl. intros Hold Hstat Hmove.
  assert (metadataFilePath ≠ metadataFilePath +:+ ".bak") by done.
  destruct pl as [|o1 [|o2 [|o3 [|o4 rest]]]]; simpl in *; subst;
    save_run; rewrite Hold; simpl; rewrite ?Hold; simpl;
    destruct (json_MarshalIndent ps) as [data|e]; simpl;
    try (destruct o3 as [|e3|e3 torn]; simpl);
    try (destruct o4; simpl);
    save_finish.
Qed.

(** A write torn by a full disk: the previous file comes back. *)
Lemma saveMetadata_backup_then_write_witness :
  let w := mkWorld [mkProject "Demo" []]
                   {[ metadataFilePath := "[]" ]}
                   [Normal; Normal; Torn (ErrOS "no space left on device") "[De"; Normal]
                   [] in
  (saveMetadata w).1
    = Some (Errorf "写入元数据文件失败" (ErrOS "no space left on device")) ∧
  disk (saveMetadata w).2 !! metadataFilePath = Some "[]" ∧
  disk (saveMetadata w).2 !! backupPath = None.
Proof.
  intros w.
  pose proof (saveMetadata_backup_then_write w "[]" eq_refl eq_refl eq_refl)
    as Hrun.
  destruct (saveMetadata w) as [err w']; simpl in Hrun.
  destruct Hrun as (_ & -> & _ & Hdisk).
  split; [reflexivity | exact (Hdisk eq_refl)].
Defined.

(** Without a current file no backup is taken: the registry is serialized
    and written straight away. *)
Lemma saveMetadata_cold_start `{Codec} (w : World) (data : string)
    (rest : list outcome) :
  disk w !! metadataFilePath = None →
  plan w = Normal :: Normal :: rest →
  json_MarshalIndent (allProjects w) = inl data →
  let '(err, w') := saveMetadata w in
  err = None ∧
  disk w' !! metadataFilePath = Some data ∧
  trace w' = trace w ++ [EvStat metadataFilePath;
                         EvWriteFile metadataFilePath data;
                         EvRemove backupPath].
Proof.
  destruct w as [ps d pl tr]; simpl; intros Hnone -> Hdata.
  save_run. rewrite Hnone; simpl. rewrite Hdata; simpl.
  destruct rest as [|o rest]; simpl;
    [|destruct o; simpl]; simplify_map_eq;
    repeat case_match; simpl; rewrite <- ?app_assoc; simpl;
    repeat split; simplify_map_eq; rewrite <- ?app_assoc; done.
Qed.

(** When the rename to the backup path fails, nothing is serialized or
    written and the wrapped error is returned. *)
Lemma saveMetadata_backup_failure `{Codec} (w : World) (old : string)
    (o : outcome) (e : error) (rest : list outcome) :
  disk w !! metadataFilePath = Some old →
  plan w = Normal :: o :: rest →
  injected o = Some e →
  saveMetadata w =
    (Some (Errorf "创建元数据备份失败" e),
     mkWorld (allProjects w) (disk w) rest
             (trace w ++ [EvStat metadataFilePath;
                          EvRename metadataFilePath backupPath])).
Proof.
  destruct w as [ps d pl tr]; simpl; intros Hold -> Ho.
  save_run. rewrite Hold; simpl.
  destruct o; simplify_eq/=; by rewrite <- app_assoc.
Qed.

(** C7. loadMetadata, when reading the file is not itself made to fail:
    - no file: the result is nil and the registry is empty;
    - a file that does not parse (the decoder returns an error): that
      error is the result;
    - a file that parses: the result is nil and the registry is what the
      decoder produced. *)
Theorem loadMetadata_cases `{Codec} (w : World) :
  injected (hd Normal (plan w)) = None →
  let '(err, w') := loadMetadata w in
  match disk w !! metadataFilePath with
  | None => err = None ∧ allProjects w' = []
  | Some data =>
      match json_Unmarshal data (allProjects w) with
      | (_, Some e) => err = Some e
      | (parsed, None) => err = None ∧ allProjects w' = parsed
      end
  end.
Proof.
  destruct w as [ps d pl tr]; simpl; intros Hread.
  unfold loadMetadata; go_unfold; simpl.
  destruct pl as [|o pl]; simpl in *; rewrite ?Hread;
    destruct (d !! metadataFilePath) as [data|]; simpl; try done;
    destruct (json_Unmarshal data ps) as [parsed [e|]]; simpl; done.
Qed.

(** A first start, without any file. *)
Lemma loadMetadata_cases_witness :
  (loadMetadata emptyWorld).1 = None ∧
  allProjects (loadMetadata emptyWorld).2 = [].
Proof.
  pose proof (loadMetadata_cases emptyWorld eq_refl) as Hrun.
  destruct (loadMetadata emptyWorld) as [err w']. exact Hrun.
Defined.

(** A read error other than "does not exist" is returned as it is and the
    registry keeps its value. *)
Lemma loadMetadata_read_error `{Codec} (w : World) (o : outcome) (e : error)
    (rest : list outcome) :
  plan w = o :: rest → injected o = Some e → os_IsNotExist e = false →
  (loadMetadata w).1 = Some e ∧ allProjects (loadMetadata w).2 = allProjects w.
Proof.
  destruct w as [ps d pl tr]; simpl; intros -> Ho He.
  unfold loadMetadata; go_unfold; simpl. rewrite Ho; simpl. by rewrite He.
Qed.

(** ** Authorization of the delete handlers *)

(** C6. With a password other than the configured one, [handleDeleteBuild]
    and [handleDeleteApp] answer 401 and return the world exactly as they
    found it: the registry and the disk are the same, and the trace shows
    no call at all, so the mutex was not taken. *)
Theorem delete_handlers_unauthorized `{Codec} (c : Request) (w : World) :
  query_password c ≠ deletePassword →
  handleDeleteBuild c w = (JSON StatusUnauthorized "error" "删除密码错误", w) ∧
  handleDeleteApp c w = (JSON StatusUnauthorized "error" "删除密码错误", w).
Proof.
  intros Hpw. unfold handleDeleteBuild, handleDeleteApp.
  by rewrite !decide_True by done.
Qed.

Lemma delete_handlers_unauthorized_witness :
  let c := mkRequest "0000" "com.example.app" "app-1.0-beta-100.apk" in
  let w := mkWorld [mkProject "Demo" []] ∅ [] [] in
  handleDeleteBuild c w = (JSON 401 "error" "删除密码错误", w) ∧
  handleDeleteApp c w = (JSON 401 "error" "删除密码错误", w).
Proof.
  intros c w. apply (delete_handlers_unauthorized c w). by vm_compute.
Defined.

(** ** Scans of a slice *)

Section scans.
Context {A : Type} (P : A → Prop) `{!∀ x, Decision (P x)}.

Lemma list_find_split (l : list A) (i : nat) (x : A) :
  list_find P l = Some (i, x) →
  ∃ pre post,
    l = pre ++ x :: post ∧ length pre = i ∧ Forall (λ y, ¬ P y) pre ∧ P x.
Proof.
  intros (Hi & HP & Hbefore)%list_find_Some.
  exists (take i l), (drop (S i) l). split_and!; [| |apply Forall_forall|done].
  - by rewrite take_drop_middle.
  - apply length_take_le. apply lookup_lt_Some in Hi. lia.
  - intros y Hy. apply list_elem_of_lookup in Hy as [j Hj].
    apply lookup_take_Some in Hj as [Hj Hlt]. eauto.
Qed.

Lemma list_find_middle (pre post : list A) (x : A) :
  Forall (λ y, ¬ P y) pre → P x →
  list_find P (pre ++ x :: post) = Some (length pre, x).
Proof.
  intros Hpre Hx. apply list_find_Some. split_and!; [|done|].
  - by rewrite list_lookup_middle.
  - intros j y Hj Hlt. rewrite lookup_app_l in Hj by done.
    rewrite Forall_forall in Hpre. apply Hpre. by eapply list_elem_of_lookup_2.
Qed.

Lemma alter_middle (f : A → A) (pre post : list A) (x : A) :
  alter f (length pre) (pre ++ x :: post) = pre ++ f x :: post.
Proof. by rewrite alter_app_r_alt, Nat.sub_diag by lia. Qed.

Lemma filter_all (l : list A) : Forall P l → filter P l = l.
Proof.
  induction 1 as [|x l Hx _ IH]; [done|].
  by rewrite filter_cons_True, IH.
Qed.

Lemma filter_none (l : list A) : Forall (λ y, ¬ P y) l → filter P l = [].
Proof.
  induction 1 as [|x l Hx _ IH]; [done|].
  by rewrite filter_cons_False.
Qed.
End scans.

(** ** updateMetadata *)

Lemma refreshApp_PackageName ai a : PackageName (refreshApp ai a) = PackageName a.
Proof. unfold refreshApp. by case_decide. Qed.

Lemma refreshApp_Builds ai a : Builds (refreshApp ai a) = Builds a.
Proof. unfold refreshApp. by case_decide. Qed.

Lemma refreshApp_AppName ai a : AppName (refreshApp ai a) = AppInfo.AppName ai.
Proof. unfold refreshApp. by case_decide. Qed.

Lemma refreshApp_IconPath ai a :
  IconPath (refreshApp ai a) =
    if decide (AppInfo.IconPath ai = "") then IconPath a else AppInfo.IconPath ai.
Proof. unfold refreshApp. by repeat case_decide. Qed.

Lemma upserted_PackageName ai b found :
  (∀ a, found = Some a → PackageName a = AppInfo.PackageName ai) →
  PackageName (upserted ai b found) = AppInfo.PackageName ai.
Proof.
  destruct found as [a|]; simpl; [|done].
  intros Hpkg. rewrite refreshApp_PackageName. by apply Hpkg.
Qed.

Lemma upsertApp_found ai b apps j a :
  list_find (λ a, PackageName a = AppInfo.PackageName ai) apps = Some (j, a) →
  ∃ pre post,
    apps = pre ++ a :: post ∧
    Forall (λ a', PackageName a' ≠ AppInfo.PackageName ai) pre ∧
    upsertApp ai b apps = pre ++ upserted ai b (Some a) :: post.
Proof.
  intros Hfind. unfold upsertApp. rewrite Hfind.
  apply list_find_split in Hfind as (pre & post & -> & <- & Hpre & Hpkg).
  exists pre, post. split_and!; [done..|].
  rewrite !alter_middle. simpl. by rewrite refreshApp_Builds.
Qed.

Lemma upsertApp_new ai b apps :
  list_find (λ a, PackageName a = AppInfo.PackageName ai) apps = None →
  upsertApp ai b apps = apps ++ [upserted ai b None].
Proof.
  intros Hfind. unfold upsertApp. rewrite Hfind.
  rewrite <- (Nat.add_0_r (length apps)). by rewrite alter_app_r.
Qed.

Lemma upsertApp_target ai b apps :
  snd <$> list_find (λ a, PackageName a = AppInfo.PackageName ai) (upsertApp ai b apps)
  = Some (upserted ai b
            (snd <$> list_find (λ a, PackageName a = AppInfo.PackageName ai) apps)).
Proof.
  destruct (list_find _ apps) as [[j a]|] eqn:Hfind; simpl.
  - destruct (upsertApp_found ai b apps j a Hfind) as (pre & post & -> & Hpre & ->).
    apply list_find_split in Hfind as (_ & _ & _ & _ & _ & Hpkg).
    rewrite list_find_middle; [done|done|].
    simpl. by rewrite refreshApp_PackageName.
  - rewrite upsertApp_new by done.
    apply list_find_None in Hfind.
    by rewrite list_find_middle.
Qed.

Lemma upsert_found n ai b ps i p :
  list_find (λ p, ProjectName p = n) ps = Some (i, p) →
  ∃ pre post,
    ps = pre ++ p :: post ∧
    Forall (λ q, ProjectName q ≠ n) pre ∧
    upsert n ai b ps = pre ++ with_Apps (upsertApp ai b (Apps p)) p :: post.
Proof.
  intros Hfind. unfold upsert. rewrite Hfind.
  apply list_find_split in Hfind as (pre & post & -> & <- & Hpre & Hname).
  exists pre, post. split_and!; [done..|]. by rewrite alter_middle.
Qed.

Lemma upsert_new n ai b ps :
  list_find (λ p, ProjectName p = n) ps = None →
  upsert n ai b ps = ps ++ [mkProject n [upserted ai b None]].
Proof.
  intros Hfind. unfold upsert. rewrite Hfind.
  rewrite <- (Nat.add_0_r (length ps)). by rewrite alter_app_r.
Qed.

Lemma upsert_target n ai b ps :
  targetApp n (AppInfo.PackageName ai) (upsert n ai b ps)
  = Some (upserted ai b (targetApp n (AppInfo.PackageName ai) ps)).
Proof.
  unfold targetApp.
  destruct (list_find _ ps) as [[i p]|] eqn:Hfind.
  - destruct (upsert_found n ai b ps i p Hfind) as (pre & post & -> & Hpre & ->).
    apply list_find_split in Hfind as (_ & _ & _ & _ & _ & Hname).
    rewrite list_find_middle by done. simpl. apply upsertApp_target.
  - rewrite upsert_new by done.
    apply list_find_None in Hfind.
    rewrite list_find_middle by done.
    change (Apps _) with ([] ++ [upserted ai b None]).
    by rewrite list_find_middle.
Qed.

Lemma updateMetadata_registry `{Codec} n ai b w :
  allProjects (updateMetadata n ai b w).2 = upsert n ai b (allProjects w).
Proof.
  unfold updateMetadata, locked. go_unfold.
  match goal with |- context [saveMetadata ?w1] =>
    pose proof (keeps_saveMetadata w1) as Hkeep;
    destruct (saveMetadata w1) as [err w2] end.
  simpl in *. done.
Qed.

Lemma upsert_targetBuilds n ai b ps :
  targetBuilds n (AppInfo.PackageName ai) (upsert n ai b ps)
  = b :: targetBuilds n (AppInfo.PackageName ai) ps.
Proof.
  unfold targetBuilds. rewrite upsert_target.
  by destruct (targetApp _ _ ps).
Qed.

(** C4. After [updateMetadata projectName appInfo newBuild], whether or not
    the registry could be saved, the build list of the entry the call
    worked on (the entry named [appInfo.PackageName] in the project named
    [projectName]) is [newBuild] followed by the builds that entry had
    before, in their previous order; a new entry starts with [newBuild]
    alone. *)
Theorem updateMetadata_prepends `{Codec} (projectName : string)
    (appInfo : AppInfo.t) (newBuild : BuildInfo) (w : World) :
  targetBuilds projectName (AppInfo.PackageName appInfo)
    (allProjects (updateMetadata projectName appInfo newBuild w).2)
  = newBuild :: targetBuilds projectName (AppInfo.PackageName appInfo) (allProjects w).
Proof. rewrite updateMetadata_registry. apply upsert_targetBuilds. Qed.

(** C8. When [updateMetadata] finds the entry [a] already in the project,
    the entry afterwards has the incoming app name; its icon path is the
    one [a] had when the incoming icon path is empty, and the incoming one
    otherwise. *)
Theorem updateMetadata_refreshes_entry `{Codec} (projectName : string)
    (appInfo : AppInfo.t) (newBuild : BuildInfo) (w : World) (a : AppEntry) :
  targetApp projectName (AppInfo.PackageName appInfo) (allProjects w) = Some a →
  ∃ a',
    targetApp projectName (AppInfo.PackageName appInfo)
      (allProjects (updateMetadata projectName appInfo newBuild w).2) = Some a' ∧
    AppName a' = AppInfo.AppName appInfo ∧
    (AppInfo.IconPath appInfo = "" → IconPath a' = IconPath a) ∧
    (AppInfo.IconPath appInfo ≠ "" → IconPath a' = AppInfo.IconPath appInfo).
Proof.
  intros Ha. rewrite updateMetadata_registry, upsert_target, Ha.
  eexists; split; [done|]. simpl.
  rewrite refreshApp_AppName, refreshApp_IconPath.
  split_and!; [done|..]; intros; by case_decide.
Qed.

Lemma updateMetadata_refreshes_entry_witness :
  ∃ a',
    targetApp "Demo" "com.example.app"
      (allProjects (updateMetadata "Demo" iconlessApp
                      (build "1.1" "beta" "app-1.1-beta-200.apk") demoWorld).2)
      = Some a' ∧
    AppName a' = "Example 2" ∧
    IconPath a' = "static/icons/com.example.app.png".
Proof.
  destruct (updateMetadata_refreshes_entry "Demo" iconlessApp
              (build "1.1" "beta" "app-1.1-beta-200.apk") demoWorld _ eq_refl)
    as (a' & Ha' & Hname & Hicon & _).
  exists a'. split_and!; [exact Ha' | exact Hname | exact (Hicon eq_refl)].
Defined.

Lemma updateMetadata_run `{Codec} n ai b w :
  updateMetadata n ai b w =
    let '(err, w') :=
      saveMetadata (mkWorld (upsert n ai b (allProjects w)) (disk w) (plan w)
                            (trace w ++ [EvLock])) in
    (err, with_trace (trace w' ++ [EvUnlock]) w').
Proof.
  unfold updateMetadata, locked. go_unfold. simpl.
  by destruct (saveMetadata _).
Qed.

(** C9. If [saveMetadata], run on the registry as changed in memory by
    [updateMetadata], fails with [e], then [updateMetadata] returns [e]
    itself and the registry in memory stays changed: it is the result of
    the upsert, with [newBuild] at the head of the entry's build list. *)
Theorem updateMetadata_no_rollback `{Codec} (projectName : string)
    (appInfo : AppInfo.t) (newBuild : BuildInfo) (w : World) (e : error) :
  let mutated := upsert projectName appInfo newBuild (allProjects w) in
  (saveMetadata (mkWorld mutated (disk w) (plan w) (trace w ++ [EvLock]))).1
    = Some e →
  let '(err, w') := updateMetadata projectName appInfo newBuild w in
  err = Some e ∧
  allProjects w' = mutated ∧
  targetBuilds projectName (AppInfo.PackageName appInfo) (allProjects w')
    = newBuild :: targetBuilds projectName (AppInfo.PackageName appInfo) (allProjects w).
Proof.
  intros mutated Hsave.
  pose proof (updateMetadata_registry projectName appInfo newBuild w) as Hreg.
  rewrite updateMetadata_run in Hreg |- *. fold mutated in Hreg |- *.
  destruct (saveMetadata _) as [err w']; simpl in *.
  split_and!; [done..|]. rewrite Hreg. apply upsert_targetBuilds.
Qed.

Lemma updateMetadata_no_rollback_witness :
  let b := build "1.1" "beta" "app-1.1-beta-200.apk" in
  let r := updateMetadata "Demo" iconlessApp b fullDiskWorld in
  r.1 = Some (Errorf "写入元数据文件失败" (ErrOS "no space left on device")) ∧
  targetBuilds "Demo" "com.example.app" (allProjects r.2)
    = [b; build "1.0" "beta" "app-1.0-beta-100.apk"].
Proof.
  intros b r.
  pose proof (@updateMetadata_no_rollback plain_codec "Demo" iconlessApp b
                fullDiskWorld
                (Errorf "写入元数据文件失败" (ErrOS "no space left on device"))
                ltac:(vm_compute; reflexivity)) as Hrun.
  fold r in Hrun. destruct r as [err w']; simpl in *.
  destruct Hrun as (-> & _ & ->). done.
Defined.

(** ** handleDeleteBuild *)

Lemma hasApp_find packageName p :
  hasApp packageName p ↔
  is_Some (list_find (λ a, PackageName a = packageName) (Apps p)).
Proof.
  unfold hasApp. split.
  - intros (a & Ha & Hpkg)%Exists_exists. by eapply list_find_elem_of.
  - intros [[j a] Hfind]. apply list_find_Some in Hfind as (Hj & Hpkg & _).
    apply Exists_exists. exists a. split; [|done]. by eapply list_elem_of_lookup_2.
Qed.

Lemma locateApp_None packageName ps :
  locateApp packageName ps = None ↔ Forall (λ p, ¬ hasApp packageName p) ps.
Proof.
  induction ps as [|p ps IH]; simpl; [done|].
  rewrite Forall_cons, hasApp_find, <- IH.
  destruct (list_find _ (Apps p)) as [[j a]|]; simpl.
  - split; [done|]. intros [Hno _]. destruct Hno. eauto.
  - destruct (locateApp packageName ps) as [[[i j] a]|]; simpl.
    + split; [done|]. by intros [_ ?].
    + split; [|done]. intros _. split; [|done]. by intros [? ?].
Qed.

Lemma locateApp_Some packageName ps i j a :
  locateApp packageName ps = Some (i, j, a) →
  ∃ pre p post apre apost,
    ps = pre ++ p :: post ∧ length pre = i ∧
    Forall (λ q, ¬ hasApp packageName q) pre ∧
    Apps p = apre ++ a :: apost ∧ length apre = j ∧
    Forall (λ a', PackageName a' ≠ packageName) apre ∧
    PackageName a = packageName.
Proof.
  revert i. induction ps as [|p ps IH]; intros i; simpl; [done|].
  destruct (list_find _ (Apps p)) as [[j' a']|] eqn:Hfind.
  - intros [= <- <- <-].
    apply list_find_split in Hfind as (apre & apost & Happs & Hlen & Hpre & Hpkg).
    exists [], p, ps, apre, apost. by split_and!.
  - destruct (locateApp packageName ps) as [[[i' j'] a']|] eqn:Hloc; simpl; [|done].
    intros [= <- <- <-].
    destruct (IH i' eq_refl) as (pre & q & post & apre & apost & -> & Hi & Hpre & Hrest).
    exists (p :: pre), q, post, apre, apost. split_and!; simpl; try done; try tauto.
    + by rewrite Hi.
    + constructor; [|done]. rewrite hasApp_find, Hfind. by intros [? ?].
Qed.

Ltac run_handler :=
  unfold locked, bind, get_allProjects, set_allProjects, emit, ret,
    with_allProjects, with_trace; simpl.

(** Steps over a call that leaves the registry alone. *)
Ltac step_over m w1 :=
  let Hkeep := fresh "Hkeep" in
  assert (allProjects (m w1).2 = allProjects w1) as Hkeep
    by (by apply keeps_saveMetadata || by apply keeps_os_Remove
        || by apply keeps_removeFiles);
  destruct (m w1) as [? ?]; simpl in Hkeep.

Lemma handleDeleteBuild_registry `{Codec} c w :
  query_password c = deletePassword →
  allProjects (handleDeleteBuild c w).2
  = deleteBuildEffect (param_packageName c) (param_fileName c) (allProjects w).
Proof.
  intros Hpw. unfold handleDeleteBuild, deleteBuildEffect.
  rewrite decide_False by (by intros ?).
  run_handler.
  destruct (locateApp _ _) as [[[i j] a]|]; [|done].
  case_bool_decide as Hex; simpl;
    [rewrite (decide_True (P := Exists _ _)) by done
    |by rewrite (decide_False (P := Exists _ _)) by done].
  destruct (decide (length _ = 0)); simpl;
    match goal with |- context [saveMetadata ?w1] => step_over saveMetadata w1 end;
    (destruct o; simpl; [done|]);
    match goal with |- context [os_Remove ?p ?w1] => step_over (os_Remove p) w1 end;
    simpl; congruence.
Qed.

Lemma with_Builds_same a : with_Builds (Builds a) a = a.
Proof. by destruct a. Qed.

Lemma with_Apps_same p : with_Apps (Apps p) p = p.
Proof. by destruct p. Qed.

(** The assignment [appEntry.Builds = newBuilds] with nothing filtered out. *)
Lemma assign_same_builds packageName fileName ps i j a :
  locateApp packageName ps = Some (i, j, a) →
  Forall (λ b, FileName b ≠ fileName) (Builds a) →
  alter (λ p,
    with_Apps
      (alter (with_Builds (filter (λ b, FileName b ≠ fileName) (Builds a))) j (Apps p))
      p) i ps = ps.
Proof.
  intros (pre & p & post & apre & apost & -> & <- & _ & Happs & <- & _)%locateApp_Some
    Hall.
  rewrite alter_middle, Happs, alter_middle, filter_all by done.
  by rewrite with_Builds_same, <- Happs, with_Apps_same.
Qed.

Lemma handleDeleteBuild_not_found `{Codec} c w i j a :
  query_password c = deletePassword →
  locateApp (param_packageName c) (allProjects w) = Some (i, j, a) →
  Forall (λ b, FileName b ≠ param_fileName c) (Builds a) →
  handleDeleteBuild c w =
    (JSON StatusNotFound "error" "构建版本未找到",
     mkWorld (allProjects w) (disk w) (plan w) (trace w ++ [EvLock; EvUnlock])).
Proof.
  intros Hpw Hloc Hall. unfold handleDeleteBuild.
  rewrite decide_False by (by intros ?).
  run_handler. rewrite Hloc.
  rewrite bool_decide_eq_false_2; simpl.
  - erewrite assign_same_builds by done. by rewrite <- app_assoc.
  - intros (b & Hb & Hname)%Exists_exists.
    rewrite Forall_forall in Hall. by apply (Hall b).
Qed.

(** An unknown package gets the very same answer from [handleDeleteBuild]. *)
Lemma handleDeleteBuild_unknown_package `{Codec} c w :
  query_password c = deletePassword →
  Forall (λ p, ¬ hasApp (param_packageName c) p) (allProjects w) →
  handleDeleteBuild c w =
    (JSON StatusNotFound "error" "构建版本未找到",
     mkWorld (allProjects w) (disk w) (plan w) (trace w ++ [EvLock; EvUnlock])).
Proof.
  intros Hpw Hno%locateApp_None. unfold handleDeleteBuild.
  rewrite decide_False by (by intros ?).
  run_handler. rewrite Hno. simpl. by rewrite <- app_assoc.
Qed.

(** C5 (as amended).  When some entry carries the package name and no
    entry carrying it has a build with the file name, [handleDeleteBuild]
    answers 404 with the build-not-found message and leaves the registry
    and the disk as they were.  This is the only not-found answer
    [handleDeleteBuild] has: a request for a package that no entry carries,
    on any registry, gets the very same answer. *)
Theorem handleDeleteBuild_unknown_file `{Codec} (c : Request) (w : World) :
  query_password c = deletePassword →
  (∃ p a, p ∈ allProjects w ∧ a ∈ Apps p ∧ PackageName a = param_packageName c) →
  (∀ p a b, p ∈ allProjects w → a ∈ Apps p →
            PackageName a = param_packageName c → b ∈ Builds a →
            FileName b ≠ param_fileName c) →
  let '(r, w') := handleDeleteBuild c w in
  r = JSON StatusNotFound "error" "构建版本未找到" ∧
  allProjects w' = allProjects w ∧
  disk w' = disk w ∧
  ∀ c0 w0,
    query_password c0 = deletePassword →
    Forall (λ p, ¬ hasApp (param_packageName c0) p) (allProjects w0) →
    (handleDeleteBuild c0 w0).1 = r.
Proof.
  intros Hpw (p & a & Hp & Ha & Hpkg) Hnone.
  destruct (locateApp (param_packageName c) (allProjects w))
    as [[[i j] a']|] eqn:Hloc.
  - assert (Forall (λ b, FileName b ≠ param_fileName c) (Builds a')) as Hall.
    { pose proof Hloc as Hat. apply locateApp_Some in Hat
        as (pre & q & post & apre & apost & Hps & _ & _ & Happs & _ & _ & Hpkg').
      apply Forall_forall. intros b Hb. apply (Hnone q a' b); [| |done..].
      - rewrite Hps. set_solver.
      - rewrite Happs. set_solver. }
    rewrite (handleDeleteBuild_not_found c w i j a') by done.
    split_and!; [done..|]. intros c0 w0 Hpw0 Hmissing.
    by rewrite handleDeleteBuild_unknown_package.
  - apply locateApp_None in Hloc. rewrite Forall_forall in Hloc.
    destruct (Hloc p Hp). apply Exists_exists. eauto.
Qed.

Lemma handleDeleteBuild_unknown_file_witness :
  let '(r, w') := handleDeleteBuild deleteUnknownBuild demoWorld in
  r = JSON 404 "error" "构建版本未找到" ∧
  allProjects w' = allProjects demoWorld ∧
  disk w' = disk demoWorld ∧
  (handleDeleteBuild deleteBuildOfUnknownApp emptyWorld).1 = r.
Proof.
  pose proof (@handleDeleteBuild_unknown_file plain_codec deleteUnknownBuild
                demoWorld eq_refl) as Hrun.
  destruct (handleDeleteBuild deleteUnknownBuild demoWorld) as [r w'].
  destruct Hrun as (Hr & Hreg & Hdisk & Hsame).
  - eexists _, _. split_and!; [apply list_elem_of_here..|done].
  - intros p a b ->%list_elem_of_singleton ->%list_elem_of_singleton
      _ ->%list_elem_of_singleton. done.
  - split_and!; [done..|]. apply Hsame; [done|constructor].
Defined.

(** C5 (as stated) fails: the report does not tell a missing build from a
    missing app.  On [demoWorld], which holds "com.example.app" with one
    build, the request for an unknown build of that package and the request
    for a build of a package that no entry carries get the same answer. *)
Lemma handleDeleteBuild_not_found_not_distinct :
  Exists (hasApp (param_packageName deleteUnknownBuild)) (allProjects demoWorld) ∧
  Forall (λ p, ¬ hasApp (param_packageName deleteBuildOfUnknownApp) p)
    (allProjects demoWorld) ∧
  ¬ ((handleDeleteBuild deleteUnknownBuild demoWorld).1
     ≠ (handleDeleteBuild deleteBuildOfUnknownApp demoWorld).1).
Proof.
  split_and!.
  - apply (bool_decide_unpack _). by vm_compute.
  - apply (bool_decide_unpack _). by vm_compute.
  - intros Hdistinct. apply Hdistinct. by vm_compute.
Qed.

(** When the build deleted was the last one of its entry, the entries with
    that package name leave the project; the project itself stays in the
    registry, with whatever entries are left. *)
Lemma deleteBuildEffect_last_build packageName fileName pre p post apre a apost :
  Forall (λ q, ¬ hasApp packageName q) pre →
  Apps p = apre ++ a :: apost →
  Forall (λ a', PackageName a' ≠ packageName) apre →
  PackageName a = packageName →
  Builds a ≠ [] →
  Forall (λ b, FileName b = fileName) (Builds a) →
  deleteBuildEffect packageName fileName (pre ++ p :: post)
  = pre ++ with_Apps (apre ++ filter (λ a', PackageName a' ≠ packageName) apost) p
        :: post.
Proof.
  intros Hpre Happs Hapre Hpkg Hsome Hall. unfold deleteBuildEffect.
  assert (locateApp packageName (pre ++ p :: post)
          = Some (length pre, length apre, a)) as ->.
  { clear -Hpre Happs Hapre Hpkg. induction Hpre as [|q pre Hq _ IH]; simpl.
    - by rewrite Happs, list_find_middle.
    - rewrite hasApp_find in Hq.
      destruct (list_find _ (Apps q)); [by destruct Hq|]. by rewrite IH. }
  assert (filter (λ b, FileName b ≠ fileName) (Builds a) = []) as ->.
  { apply filter_none. eapply Forall_impl; [done|]. naive_solver. }
  rewrite decide_True.
  2:{ destruct (Builds a) as [|b bs]; [done|]. apply Exists_cons_hd.
      by apply Forall_cons in Hall as [? _]. }
  rewrite decide_True by done.
  rewrite !alter_middle. unfold with_Apps; simpl.
  rewrite Happs, alter_middle, filter_app, filter_all by done.
  rewrite filter_cons_False; [done|]. simpl. naive_solver.
Qed.

Lemma fmap_alter_same {A B} (f : A → B) (g : A → A) (i : nat) (l : list A) :
  (∀ x, f (g x) = f x) → f <$> alter g i l = f <$> l.
Proof.
  intros Hfg. revert i. induction l as [|x l IH]; intros [|i]; simpl; [done..| |].
  - by rewrite Hfg.
  - f_equal. apply IH.
Qed.

(** [handleDeleteBuild] never takes a project out of the registry. *)
Lemma deleteBuildEffect_projects packageName fileName ps :
  ProjectName <$> deleteBuildEffect packageName fileName ps = ProjectName <$> ps.
Proof.
  unfold deleteBuildEffect.
  destruct (locateApp packageName ps) as [[[i j] a]|]; [|done].
  repeat case_decide; by rewrite !fmap_alter_same.
Qed.

Lemma handleDeleteBuild_keeps_projects `{Codec} c w :
  ProjectName <$> allProjects (handleDeleteBuild c w).2
  = ProjectName <$> allProjects w.
Proof.
  destruct (decide (query_password c = deletePassword)) as [Hpw|Hpw].
  - rewrite handleDeleteBuild_registry by done. apply deleteBuildEffect_projects.
  - unfold handleDeleteBuild. by rewrite decide_True.
Qed.

(** C2 (what the program does).  Deleting the only build of the only entry
    of project "Demo" succeeds and takes the entry out, but the project,
    now without entries, is still in the registry. *)
Theorem handleDeleteBuild_leaves_empty_project :
  (handleDeleteBuild deleteOnlyBuild demoWorld).1
    = JSON StatusOK "message" "构建版本已删除" ∧
  allProjects (handleDeleteBuild deleteOnlyBuild demoWorld).2
    = [mkProject "Demo" []].
Proof. by vm_compute. Qed.

(** ** handleDeleteApp *)

Lemma handleDeleteApp_registry `{Codec} c w :
  query_password c = deletePassword →
  allProjects (handleDeleteApp c w).2
  = deleteAppEffect (param_packageName c) (allProjects w).
Proof.
  intros Hpw. unfold handleDeleteApp, deleteAppEffect.
  rewrite decide_False by (by intros ?).
  run_handler.
  destruct (removeApp _ _) as [[[project builds] ps']|]; [|done].
  destruct (decide (length _ = 0)); simpl;
    match goal with |- context [saveMetadata ?w1] => step_over saveMetadata w1 end;
    (destruct o; simpl; [done|]);
    match goal with |- context [removeFiles ?b ?w1] => step_over (removeFiles b) w1 end;
    match goal with |- context [os_Remove ?p ?w1] => step_over (os_Remove p) w1 end;
    simpl; congruence.
Qed.

Lemma hasApp_last_match packageName p :
  hasApp packageName p ↔
  is_Some (last (filter (λ a, PackageName a = packageName) (Apps p))).
Proof.
  rewrite last_is_Some. unfold hasApp. rewrite Exists_exists. split.
  - intros (a & Ha & Hpkg) Hnil.
    by eapply (filter_nil_not_elem_of (λ a, PackageName a = packageName)).
  - intros Hne. destruct (filter _ (Apps p)) as [|a l] eqn:Hf; [done|].
    assert (a ∈ filter (λ a, PackageName a = packageName) (Apps p)) as Ha
      by (rewrite Hf; apply list_elem_of_here).
    apply list_elem_of_filter in Ha as [? ?]. eauto.
Qed.

(** The scan stops at the first project holding the package: the projects
    before it and after it are not touched. *)
Lemma removeApp_first packageName pre p post :
  Forall (λ q, ¬ hasApp packageName q) pre →
  hasApp packageName p →
  ∃ app,
    last (filter (λ a, PackageName a = packageName) (Apps p)) = Some app ∧
    removeApp packageName (pre ++ p :: post)
    = Some (with_Apps (filter (λ a, PackageName a ≠ packageName) (Apps p)) p,
            Builds app,
            pre ++ with_Apps (filter (λ a, PackageName a ≠ packageName) (Apps p)) p
                :: post).
Proof.
  intros Hpre [app Happ]%hasApp_last_match. exists app. split; [done|].
  induction Hpre as [|q pre Hq _ IH]; simpl.
  - by rewrite Happ.
  - rewrite hasApp_last_match in Hq.
    destruct (last _) eqn:Hlast; [by destruct Hq|]. by rewrite IH.
Qed.

Lemma removeApp_None packageName ps :
  Forall (λ q, ¬ hasApp packageName q) ps → removeApp packageName ps = None.
Proof.
  induction 1 as [|q ps Hq _ IH]; simpl; [done|].
  rewrite hasApp_last_match in Hq.
  destruct (last _) eqn:Hlast; [by destruct Hq|]. by rewrite IH.
Qed.

(** An unknown package is answered with the app-not-found message. *)
Lemma handleDeleteApp_unknown_package `{Codec} c w :
  query_password c = deletePassword →
  Forall (λ p, ¬ hasApp (param_packageName c) p) (allProjects w) →
  handleDeleteApp c w =
    (JSON StatusNotFound "error" "应用未找到",
     mkWorld (allProjects w) (disk w) (plan w) (trace w ++ [EvLock; EvUnlock])).
Proof.
  intros Hpw Hno%removeApp_None. unfold handleDeleteApp.
  rewrite decide_False by (by intros ?).
  run_handler. rewrite Hno. simpl. by rewrite <- app_assoc.
Qed.

(** What [handleDeleteApp] does to a registry whose first project holding
    the package is [p]. *)
Lemma deleteAppEffect_first packageName pre p post :
  Forall (λ q, ¬ hasApp packageName q) pre →
  hasApp packageName p →
  let kept := filter (λ a, PackageName a ≠ packageName) (Apps p) in
  deleteAppEffect packageName (pre ++ p :: post) =
    if decide (kept = [])
    then filter (λ q, ProjectName q ≠ ProjectName p) pre
         ++ filter (λ q, ProjectName q ≠ ProjectName p) post
    else pre ++ with_Apps kept p :: post.
Proof.
  intros Hpre Hp kept. unfold deleteAppEffect.
  destruct (removeApp_first _ pre p post Hpre Hp) as (app & _ & ->).
  fold kept. simpl.
  destruct (decide (kept = [])) as [->|Hkept].
  - simpl. rewrite filter_app, filter_cons_False; [done|]. simpl. naive_solver.
  - rewrite decide_False; [done|]. by destruct kept.
Qed.

(** What [handleDeleteApp] does to any registry whose first project
    holding the package is [p]: the matching entries leave [p] and no
    other project; if [p] is left without entries, the cascade takes out
    the projects that carry the name of [p]. *)
Lemma handleDeleteApp_cascade `{Codec} (c : Request) (w : World)
    (pre post : list Project) (p : Project) :
  query_password c = deletePassword →
  allProjects w = pre ++ p :: post →
  Forall (λ q, ¬ hasApp (param_packageName c) q) pre →
  hasApp (param_packageName c) p →
  let kept := filter (λ a, PackageName a ≠ param_packageName c) (Apps p) in
  allProjects (handleDeleteApp c w).2 =
    if decide (kept = [])
    then filter (λ q, ProjectName q ≠ ProjectName p) pre
         ++ filter (λ q, ProjectName q ≠ ProjectName p) post
    else pre ++ with_Apps kept p :: post.
Proof.
  intros Hpw Hps Hpre Hp kept.
  rewrite handleDeleteApp_registry, Hps by done.
  by apply deleteAppEffect_first.
Qed.



(** The assumption on the names is needed: in [sharedNameWorld], where a
    later project carries the name of the project that is emptied, the
    cascade takes out both. *)
Lemma handleDeleteApp_same_name_removed :
  allProjects (handleDeleteApp deleteExampleApp sharedNameWorld).2 = [].
Proof. by vm_compute. Qed.

(** ** Uniqueness of names under updateMetadata *)

Lemma upsertApp_distinct_packages ai b apps :
  NoDup (PackageName <$> apps) → NoDup (PackageName <$> upsertApp ai b apps).
Proof.
  intros Hnd.
  destruct (list_find (λ a, PackageName a = AppInfo.PackageName ai) apps)
    as [[j a]|] eqn:Hfind.
  - destruct (upsertApp_found ai b apps j a Hfind) as (pre & post & -> & _ & ->).
    rewrite fmap_app, fmap_cons in Hnd |- *. simpl.
    by rewrite refreshApp_PackageName.
  - rewrite upsertApp_new by done.
    apply list_find_None in Hfind. rewrite Forall_forall in Hfind.
    rewrite fmap_app. apply NoDup_app. split_and!; [done| |apply NoDup_singleton].
    intros x (a & -> & Ha)%list_elem_of_fmap Hx%list_elem_of_singleton.
    by apply (Hfind a).
Qed.

Lemma upsert_distinct_projects n ai b ps :
  NoDup (ProjectName <$> ps) → NoDup (ProjectName <$> upsert n ai b ps).
Proof.
  intros Hnd.
  destruct (list_find (λ p, ProjectName p = n) ps) as [[i p]|] eqn:Hfind.
  - destruct (upsert_found n ai b ps i p Hfind) as (pre & post & -> & _ & ->).
    by rewrite fmap_app, fmap_cons in Hnd |- *.
  - rewrite upsert_new by done.
    apply list_find_None in Hfind. rewrite Forall_forall in Hfind.
    rewrite fmap_app. apply NoDup_app. split_and!; [done| |apply NoDup_singleton].
    intros x (p & -> & Hp)%list_elem_of_fmap Hx%list_elem_of_singleton.
    by apply (Hfind p).
Qed.

Lemma upsert_distinct_packages n ai b ps :
  Forall (λ p, NoDup (PackageName <$> Apps p)) ps →
  Forall (λ p, NoDup (PackageName <$> Apps p)) (upsert n ai b ps).
Proof.
  intros Hall.
  destruct (list_find (λ p, ProjectName p = n) ps) as [[i p]|] eqn:Hfind.
  - destruct (upsert_found n ai b ps i p Hfind) as (pre & post & -> & _ & ->).
    apply Forall_app in Hall as [Hpre [Hp Hpost]%Forall_cons].
    apply Forall_app. split; [done|]. constructor; [|done].
    simpl. by apply upsertApp_distinct_packages.
  - rewrite upsert_new by done.
    apply Forall_app. split; [done|]. constructor; [|done].
    simpl. apply NoDup_singleton.
Qed.

(** What does hold after any sequence of uploads into an empty registry:
    project names are pairwise distinct, and inside each project the
    package names are pairwise distinct. *)
Lemma upsertAll_distinct `{Codec} calls w :
  NoDup (ProjectName <$> allProjects w) →
  Forall (λ p, NoDup (PackageName <$> Apps p)) (allProjects w) →
  NoDup (ProjectName <$> allProjects (upsertAll calls w)) ∧
  Forall (λ p, NoDup (PackageName <$> Apps p)) (allProjects (upsertAll calls w)).
Proof.
  revert w. induction calls as [|[[n ai] b] calls IH]; intros w Hnames Hpkgs;
    simpl; [done|].
  apply IH; rewrite updateMetadata_registry.
  - by apply upsert_distinct_projects.
  - by apply upsert_distinct_packages.
Qed.

Lemma upsertAll_from_empty `{Codec} calls w :
  allProjects w = [] →
  NoDup (ProjectName <$> allProjects (upsertAll calls w)) ∧
  Forall (λ p, NoDup (PackageName <$> Apps p)) (allProjects (upsertAll calls w)).
Proof.
  intros Hempty. apply upsertAll_distinct; rewrite Hempty; constructor.
Qed.

(** C3 (what the program does).  Uploading the same package first under
    project "Demo" and then under project "Other" leaves two entries with
    that package name in the registry, one in each project. *)
Theorem upsert_same_package_two_projects :
  let calls := [("Demo", demoApp, build "1.0" "beta" "app-1.0-beta-100.apk");
                ("Other", demoApp, build "1.0" "beta" "app-1.0-beta-200.apk")] in
  let ps := allProjects (upsertAll calls emptyWorld) in
  ProjectName <$> ps = ["Demo"; "Other"] ∧
  allPackages ps = ["com.example.app"; "com.example.app"] ∧
  ¬ NoDup (allPackages ps).
Proof.
  intros calls ps.
  assert (allPackages ps = ["com.example.app"; "com.example.app"]) as Hpk
    by (by vm_compute).
  split_and!; [by vm_compute|done|].
  rewrite Hpk. intros [Hnotin _]%NoDup_cons. apply Hnotin, list_elem_of_here.
Qed.

(** ** The mutex in the trace *)

Lemma extends_ret {A} (a : A) : extends_trace (ret a).
Proof. intros w. exists []. by rewrite app_nil_r. Qed.

Lemma extends_bind {A B} (m : Go A) (k : A → Go B) :
  extends_trace m → (∀ a, extends_trace (k a)) → extends_trace (bind m k).
Proof.
  intros Hm Hk w. unfold bind. destruct (Hm w) as [evs1 Hevs1].
  destruct (m w) as [a w1]; simpl in *.
  destruct (Hk a w1) as [evs2 Hevs2].
  exists (evs1 ++ evs2). by rewrite Hevs2, Hevs1, app_assoc.
Qed.

Lemma extends_emit e : extends_trace (emit e).
Proof. intros w. by exists [e]. Qed.

Lemma extends_next_outcome : extends_trace next_outcome.
Proof.
  intros w. exists []. unfold next_outcome.
  destruct (plan w); by rewrite app_nil_r.
Qed.

Lemma extends_get_disk : extends_trace get_disk.
Proof. intros w. exists []. by rewrite app_nil_r. Qed.

Lemma extends_set_disk d : extends_trace (set_disk d).
Proof. intros w. exists []. by rewrite app_nil_r. Qed.

Lemma extends_get_allProjects : extends_trace get_allProjects.
Proof. intros w. exists []. by rewrite app_nil_r. Qed.

Lemma extends_set_allProjects ps : extends_trace (set_allProjects ps).
Proof. intros w. exists []. by rewrite app_nil_r. Qed.

Create HintDb extends.
#[global] Hint Resolve extends_ret extends_emit extends_next_outcome
  extends_get_disk extends_set_disk extends_get_allProjects
  extends_set_allProjects : extends.

Ltac extends_tac :=
  repeat first
    [ progress eauto with extends
    | apply extends_bind
    | match goal with
      | |- ∀ _, extends_trace _ => intros ?
      | |- extends_trace (match ?x with _ => _ end) => destruct x
      end ].

Lemma extends_os_Stat path : extends_trace (os_Stat path).
Proof. unfold os_Stat. extends_tac. Qed.

Lemma extends_os_Rename a b : extends_trace (os_Rename a b).
Proof. unfold os_Rename. extends_tac. Qed.

Lemma extends_os_WriteFile path data : extends_trace (os_WriteFile path data).
Proof. unfold os_WriteFile. extends_tac. Qed.

Lemma extends_os_Remove path : extends_trace (os_Remove path).
Proof. unfold os_Remove. extends_tac. Qed.

#[global] Hint Resolve extends_os_Stat extends_os_Rename extends_os_WriteFile
  extends_os_Remove : extends.

Lemma extends_removeFiles builds : extends_trace (removeFiles builds).
Proof. induction builds; simpl; extends_tac. Qed.

Lemma extends_saveMetadata `{Codec} : extends_trace saveMetadata.
Proof. unfold saveMetadata. extends_tac. Qed.

#[global] Hint Resolve extends_removeFiles extends_saveMetadata : extends.

Lemma locked_trace {A} (body : Go A) w :
  extends_trace body →
  ∃ evs, trace (locked body w).2 = trace w ++ EvLock :: evs ++ [EvUnlock].
Proof.
  intros Hbody. unfold locked, bind, emit, ret; simpl.
  destruct (Hbody (with_trace (trace w ++ [EvLock]) w)) as [evs Hevs].
  destruct (body _) as [r w1]; simpl in *.
  exists evs. rewrite Hevs. by rewrite <- !app_assoc.
Qed.

(** With the configured password both delete handlers start by taking the
    mutex and end by releasing it. *)
Lemma delete_handlers_authorized_lock `{Codec} (c : Request) (w : World) :
  query_password c = deletePassword →
  (∃ evs, trace (handleDeleteBuild c w).2 = trace w ++ EvLock :: evs ++ [EvUnlock]) ∧
  (∃ evs, trace (handleDeleteApp c w).2 = trace w ++ EvLock :: evs ++ [EvUnlock]).
Proof.
  intros Hpw. unfold handleDeleteBuild, handleDeleteApp.
  rewrite !decide_False by (by intros ?).
  split; apply locked_trace; extends_tac.
Qed.

(** [updateMetadata] and [loadMetadata] hold the mutex from start to end. *)
Lemma updateMetadata_locked `{Codec} n ai b w :
  ∃ evs, trace (updateMetadata n ai b w).2 = trace w ++ EvLock :: evs ++ [EvUnlock].
Proof. apply locked_trace. extends_tac. Qed.

(** ** The earlier revision *)

(** The earlier [saveMetadata] wrote over the file without a backup. *)
Lemma earlier_saveMetadata_overwrites `{Codec} (w : World) (data : string) :
  json_MarshalIndent (allProjects w) = inl data →
  trace (earlier_saveMetadata w).2
  = trace w ++ [EvWriteFile metadataFilePath data].
Proof.
  intros Hdata. unfold earlier_saveMetadata; go_unfold; simpl. rewrite Hdata.
  destruct (plan w) as [|[] ?]; done.
Qed.

(** The earlier refresh of an existing entry took the incoming icon path
    even when it was empty. *)
Lemma earlier_refreshApp_icon (appInfo : AppInfo.t) (a : AppEntry) :
  IconPath (earlier_refreshApp appInfo a) = AppInfo.IconPath appInfo.
Proof. done. Qed.

(** * Further properties of the program *)

(** ** Which files a computation may change *)

Lemma touches_ret {A} paths (a : A) : touches_only paths (ret a).
Proof. done. Qed.

Lemma touches_bind {A B} paths (m : Go A) (k : A → Go B) :
  touches_only paths m → (∀ a, touches_only paths (k a)) →
  touches_only paths (bind m k).
Proof.
  intros Hm Hk w path Hpath. unfold bind. specialize (Hm w path Hpath).
  destruct (m w) as [a w1]; simpl in *. by rewrite Hk.
Qed.

Lemma touches_emit paths e : touches_only paths (emit e).
Proof. done. Qed.

Lemma touches_next_outcome paths : touches_only paths next_outcome.
Proof. intros w path _. unfold next_outcome. by destruct (plan w). Qed.

Lemma touches_get_disk paths : touches_only paths get_disk.
Proof. done. Qed.

Lemma touches_get_allProjects paths : touches_only paths get_allProjects.
Proof. done. Qed.

Lemma touches_set_allProjects paths ps : touches_only paths (set_allProjects ps).
Proof. done. Qed.

Create HintDb touches.
#[global] Hint Resolve touches_ret touches_emit touches_next_outcome
  touches_get_disk touches_get_allProjects touches_set_allProjects : touches.

Ltac touches_basic :=
  repeat match goal with
    | |- touches_only _ (bind _ _) => apply touches_bind
    | |- touches_only _ (match ?x with _ => _ end) => destruct x
    | |- ∀ _, touches_only _ _ => intros ?
    | |- touches_only _ _ => by eauto with touches
    end.

Lemma touches_os_Stat paths path : touches_only paths (os_Stat path).
Proof. unfold os_Stat. touches_basic. Qed.

Lemma touches_os_ReadFile paths path : touches_only paths (os_ReadFile path).
Proof. unfold os_ReadFile. touches_basic. Qed.

Lemma touches_os_WriteFile paths path data :
  path ∈ paths → touches_only paths (os_WriteFile path data).
Proof.
  intros Hin w q Hq. assert (path ≠ q) by (by intros ->).
  unfold os_WriteFile. go_unfold. simpl.
  destruct (plan w) as [|[] ?]; simpl; by rewrite ?lookup_insert_ne.
Qed.

Lemma touches_os_Remove paths path :
  path ∈ paths → touches_only paths (os_Remove path).
Proof.
  intros Hin w q Hq. assert (path ≠ q) by (by intros ->).
  unfold os_Remove. go_unfold. simpl.
  destruct (plan w) as [|[] ?]; simpl; try done;
    destruct (disk w !! path); simpl; by rewrite ?lookup_delete_ne.
Qed.

Lemma touches_os_Rename paths a b :
  a ∈ paths → b ∈ paths → touches_only paths (os_Rename a b).
Proof.
  intros Ha Hb w q Hq.
  assert (a ≠ q) by (by intros ->). assert (b ≠ q) by (by intros ->).
  unfold os_Rename. go_unfold. simpl.
  destruct (plan w) as [|[] ?]; simpl; try done;
    destruct (disk w !! a); simpl;
    by rewrite ?lookup_insert_ne, ?lookup_delete_ne.
Qed.

Lemma touches_mono {A} paths paths' (m : Go A) :
  paths ⊆ paths' → touches_only paths m → touches_only paths' m.
Proof. intros Hsub Hm w path Hpath. apply Hm. set_solver. Qed.

Ltac touches_tac :=
  repeat match goal with
    | |- touches_only _ (os_Stat _) => apply touches_os_Stat
    | |- touches_only _ (os_ReadFile _) => apply touches_os_ReadFile
    | |- touches_only _ (os_Rename _ _) => apply touches_os_Rename; set_solver
    | |- touches_only _ (os_WriteFile _ _) => apply touches_os_WriteFile; set_solver
    | |- touches_only _ (os_Remove _) => apply touches_os_Remove; set_solver
    | |- touches_only _ (bind _ _) => apply touches_bind
    | |- touches_only _ (match ?x with _ => _ end) => destruct x
    | |- ∀ _, touches_only _ _ => intros ?
    | |- touches_only _ _ => by eauto with touches
    end.

Lemma touches_saveMetadata `{Codec} :
  touches_only [metadataFilePath; backupPath] saveMetadata.
Proof. unfold saveMetadata. touches_tac. Qed.

(** ** More on saveMetadata and loadMetadata *)

(** X1. saveMetadata changes no file other than [metadata.json] and
    [metadata.json.bak], and never the registry in memory, whatever the
    operating system answers. *)
Theorem saveMetadata_frame `{Codec} (w : World) (path : string) :
  path ≠ metadataFilePath → path ≠ backupPath →
  disk (saveMetadata w).2 !! path = disk w !! path ∧
  allProjects (saveMetadata w).2 = allProjects w.
Proof.
  intros Hp Hb. split; [|apply keeps_saveMetadata].
  apply touches_saveMetadata.
  rewrite !not_elem_of_cons. split_and!; [done..|apply not_elem_of_nil].
Qed.

Lemma saveMetadata_frame_witness :
  disk (saveMetadata fullDiskWorld).2 !! "uploads/app-1.0-beta-100.apk"
    = disk fullDiskWorld !! "uploads/app-1.0-beta-100.apk" ∧
  allProjects (saveMetadata fullDiskWorld).2 = allProjects fullDiskWorld.
Proof.
  apply (saveMetadata_frame fullDiskWorld "uploads/app-1.0-beta-100.apk"); done.
Defined.

Ltac same_marshal :=
  repeat match goal with
    | H1 : json_MarshalIndent ?ps = _, H2 : json_MarshalIndent ?ps = _ |- _ =>
        rewrite H1 in H2; simplify_eq
    end.

Ltac plan_shapes pl :=
  destruct pl as [|? [|? [|? [|? ?]]]]; simpl in *; subst.

(** X2. Without a current [metadata.json] no backup is taken, whatever
    stat answers: the registry is serialized and written straight away.
    When the write goes through the result is nil, the file holds the
    serialized registry, and the only other call is the removal of the
    backup path. *)
Theorem saveMetadata_first_save `{Codec} (w : World) (data : string) :
  disk w !! metadataFilePath = None →
  json_MarshalIndent (allProjects w) = inl data →
  outcome_at 1 w = Normal →
  (saveMetadata w).1 = None ∧
  disk (saveMetadata w).2 !! metadataFilePath = Some data ∧
  trace (saveMetadata w).2
    = trace w ++ [EvStat metadataFilePath;
                  EvWriteFile metadataFilePath data;
                  EvRemove backupPath].
Proof.
  destruct w as [ps d pl tr]. unfold outcome_at. simpl. intros Hnone Hdata Hwrite.
  assert (metadataFilePath ≠ metadataFilePath +:+ ".bak") by done.
  plan_shapes pl; save_run;
    repeat (first [rewrite Hnone | rewrite Hdata | case_match];
            simpl in *; simplify_eq);
    same_marshal;
    rewrite <- ?app_assoc; simpl; split_and!; simplify_map_eq; done.
Qed.

Lemma saveMetadata_first_save_witness :
  (saveMetadata emptyWorld).1 = None ∧
  disk (saveMetadata emptyWorld).2 !! metadataFilePath = Some "[]" ∧
  trace (saveMetadata emptyWorld).2
    = [EvStat metadataFilePath; EvWriteFile metadataFilePath "[]";
       EvRemove backupPath].
Proof.
  apply (@saveMetadata_first_save plain_codec emptyWorld "[]"); reflexivity.
Defined.

Ltac save_cases pl :=
  plan_shapes pl; save_run;
  repeat (first [ match goal with H : _ !! _ = _ |- _ => rewrite H end
                | match goal with H : json_MarshalIndent _ = _ |- _ => rewrite H end
                | case_match ];
          simpl in *; simplify_eq);
  same_marshal;
  rewrite <- ?app_assoc; simpl; split_and!; simplify_map_eq; try done.

(** X3. When the rename of the current file to the backup path fails,
    saveMetadata stops there: the error comes back wrapped, nothing is
    serialized or written, and the disk is as it was. *)
Theorem saveMetadata_backup_refused `{Codec} (w : World) (old : string) (e : error) :
  disk w !! metadataFilePath = Some old →
  outcome_at 0 w = Normal →
  injected (outcome_at 1 w) = Some e →
  (saveMetadata w).1 = Some (Errorf "创建元数据备份失败" e) ∧
  disk (saveMetadata w).2 = disk w ∧
  trace (saveMetadata w).2
    = trace w ++ [EvStat metadataFilePath; EvRename metadataFilePath backupPath].
Proof.
  destruct w as [ps d pl tr]. unfold outcome_at. simpl. intros Hold Hstat Hmove.
  save_cases pl.
Qed.

Lemma saveMetadata_backup_refused_witness :
  (saveMetadata noBackupWorld).1
    = Some (Errorf "创建元数据备份失败" (ErrOS "permission denied")) ∧
  disk (saveMetadata noBackupWorld).2 = disk noBackupWorld ∧
  trace (saveMetadata noBackupWorld).2
    = [EvStat metadataFilePath; EvRename metadataFilePath backupPath].
Proof.
  apply (@saveMetadata_backup_refused plain_codec noBackupWorld "[Demo]");
    reflexivity.
Defined.

(** X4. A backup file left behind by an earlier interrupted save is taken
    for the backup of this save: without a current file, when the write is
    refused, the rename "back" puts the leftover backup in the place of
    [metadata.json]. *)
Theorem saveMetadata_leftover_backup `{Codec} (w : World)
    (stale data : string) (e : error) :
  disk w !! metadataFilePath = None →
  disk w !! backupPath = Some stale →
  json_MarshalIndent (allProjects w) = inl data →
  outcome_at 1 w = Failure e →
  outcome_at 2 w = Normal →
  (saveMetadata w).1 = Some (Errorf "写入元数据文件失败" e) ∧
  disk (saveMetadata w).2 !! metadataFilePath = Some stale ∧
  disk (saveMetadata w).2 !! backupPath = None.
Proof.
  destruct w as [ps d pl tr]. unfold outcome_at, backupPath. simpl.
  intros Hnone Hstale Hdata Hwrite Hback.
  assert (metadataFilePath ≠ metadataFilePath +:+ ".bak") by done.
  save_cases pl.
Qed.

Lemma saveMetadata_leftover_backup_witness :
  (saveMetadata leftoverBackupWorld).1
    = Some (Errorf "写入元数据文件失败" (ErrOS "permission denied")) ∧
  disk (saveMetadata leftoverBackupWorld).2 !! metadataFilePath = Some "[Old]" ∧
  disk (saveMetadata leftoverBackupWorld).2 !! backupPath = None.
Proof.
  apply (@saveMetadata_leftover_backup plain_codec leftoverBackupWorld
           "[Old]" "[Demo]"); reflexivity.
Defined.

(** X5. Any error of stat is read as "no current file".  If stat fails
    while the file exists, no backup is taken, and a write that is torn
    leaves the torn contents in [metadata.json]: the previous contents are
    lost. *)
Theorem saveMetadata_stat_error `{Codec} (w : World)
    (old data torn : string) (e0 e : error) :
  disk w !! metadataFilePath = Some old →
  disk w !! backupPath = None →
  json_MarshalIndent (allProjects w) = inl data →
  injected (outcome_at 0 w) = Some e0 →
  outcome_at 1 w = Torn e torn →
  (saveMetadata w).1 = Some (Errorf "写入元数据文件失败" e) ∧
  disk (saveMetadata w).2 !! metadataFilePath = Some torn ∧
  disk (saveMetadata w).2 !! backupPath = None ∧
  trace (saveMetadata w).2
    = trace w ++ [EvStat metadataFilePath;
                  EvWriteFile metadataFilePath data;
                  EvRename backupPath metadataFilePath].
Proof.
  destruct w as [ps d pl tr]. unfold outcome_at, backupPath. simpl.
  intros Hold Hnobak Hdata Hstat Hwrite.
  assert (metadataFilePath ≠ metadataFilePath +:+ ".bak") by done.
  save_cases pl.
Qed.

Lemma saveMetadata_stat_error_witness :
  (saveMetadata blindStatWorld).1
    = Some (Errorf "写入元数据文件失败" (ErrOS "no space left on device")) ∧
  disk (saveMetadata blindStatWorld).2 !! metadataFilePath = Some "[De" ∧
  disk (saveMetadata blindStatWorld).2 !! backupPath = None ∧
  trace (saveMetadata blindStatWorld).2
    = [EvStat metadataFilePath; EvWriteFile metadataFilePath "[Demo]";
       EvRename backupPath metadataFilePath].
Proof.
  apply (@saveMetadata_stat_error plain_codec blindStatWorld
           "[Demo]" "[Demo]" "[De" (ErrOS "permission denied"));
    reflexivity.
Defined.

Lemma saveMetadata_success_disk `{Codec} (w : World) (data : string) :
  json_MarshalIndent (allProjects w) = inl data →
  (saveMetadata w).1 = None →
  disk (saveMetadata w).2 !! metadataFilePath = Some data.
Proof.
  destruct w as [ps d pl tr]. simpl. intros Hdata.
  assert (metadataFilePath ≠ metadataFilePath +:+ ".bak") by done.
  plan_shapes pl; save_run;
    repeat (first [ match goal with H : json_MarshalIndent _ = _ |- _ => rewrite H end
                  | case_match ];
            simpl in *; simplify_eq);
    same_marshal; intros; simplify_map_eq; done.
Qed.

(** X6. Save, restart, load.  After a saveMetadata that returned nil, let
    the registry in memory be replaced by any other one, [stale] (the
    empty registry of a server that starts again).  A loadMetadata whose
    read is not made to fail then decodes the bytes that were written:
    with a decoder that gives the saved registry back from its
    serialization, the registry in memory is again the one that was
    saved, and the result is nil. *)
Theorem save_then_load `{Codec} (w : World) (data : string) (stale : list Project) :
  json_MarshalIndent (allProjects w) = inl data →
  json_Unmarshal data stale = (allProjects w, None) →
  (saveMetadata w).1 = None →
  let restarted := with_allProjects stale (saveMetadata w).2 in
  injected (hd Normal (plan restarted)) = None →
  (loadMetadata restarted).1 = None ∧
  allProjects (loadMetadata restarted).2 = allProjects w.
Proof.
  intros Hdata Hback Hsaved restarted Hread. subst restarted.
  pose proof (saveMetadata_success_disk w data Hdata Hsaved) as Hdisk.
  destruct (saveMetadata w) as [err [ps d pl tr]]; simpl in *.
  unfold loadMetadata; go_unfold; simpl.
  destruct pl as [|o pl]; simpl in *; rewrite ?Hread, Hdisk; simpl;
    by rewrite Hback.
Qed.

Lemma save_then_load_witness :
  let restarted :=
    with_allProjects [] (@saveMetadata names_codec emptiedProjectsWorld).2 in
  (@loadMetadata names_codec restarted).1 = None ∧
  allProjects (@loadMetadata names_codec restarted).2
    = [mkProject "Demo" []; mkProject "Other" []].
Proof.
  apply (@save_then_load names_codec emptiedProjectsWorld "Demo/Other" []);
    reflexivity.
Defined.

(** X7. When the read fails with an error other than "does not exist",
    loadMetadata returns that error and changes neither the registry in
    memory nor the disk. *)
Theorem loadMetadata_read_failure `{Codec} (w : World) (e : error) :
  injected (hd Normal (plan w)) = Some e →
  os_IsNotExist e = false →
  (loadMetadata w).1 = Some e ∧
  allProjects (loadMetadata w).2 = allProjects w ∧
  disk (loadMetadata w).2 = disk w.
Proof.
  destruct w as [ps d pl tr]; simpl. intros Hread Hother.
  unfold loadMetadata; go_unfold; simpl.
  destruct pl as [|o pl]; simpl in *; [done|]. rewrite Hread; simpl.
  by rewrite Hother.
Qed.

Lemma loadMetadata_read_failure_witness :
  (loadMetadata unreadableWorld).1 = Some (ErrOS "permission denied") ∧
  allProjects (loadMetadata unreadableWorld).2 = allProjects unreadableWorld ∧
  disk (loadMetadata unreadableWorld).2 = disk unreadableWorld.
Proof.
  apply (@loadMetadata_read_failure plain_codec unreadableWorld); reflexivity.
Defined.

(** X8. loadMetadata never looks at the backup file.  With
    [metadata.json.bak] on disk and no [metadata.json], as after a save
    that was interrupted between its rename and its write, loadMetadata
    returns nil with an empty registry; the only file it reads is
    [metadata.json]. *)
Theorem loadMetadata_ignores_backup `{Codec} (w : World) (old : string) :
  disk w !! metadataFilePath = None →
  disk w !! backupPath = Some old →
  injected (hd Normal (plan w)) = None →
  (loadMetadata w).1 = None ∧
  allProjects (loadMetadata w).2 = [] ∧
  trace (loadMetadata w).2
    = trace w ++ [EvLock; EvReadFile metadataFilePath; EvUnlock].
Proof.
  destruct w as [ps d pl tr]; simpl. intros Hnone _ Hread.
  unfold loadMetadata; go_unfold; simpl.
  destruct pl as [|o pl]; simpl in *; rewrite ?Hread, Hnone; simpl;
    by rewrite <- !app_assoc.
Qed.

Lemma loadMetadata_ignores_backup_witness :
  (loadMetadata interruptedSaveWorld).1 = None ∧
  allProjects (loadMetadata interruptedSaveWorld).2 = [] ∧
  trace (loadMetadata interruptedSaveWorld).2
    = [EvLock; EvReadFile metadataFilePath; EvUnlock].
Proof.
  apply (@loadMetadata_ignores_backup plain_codec interruptedSaveWorld "[Demo]");
    reflexivity.
Defined.

(** ** More on updateMetadata *)

Lemma allBuilds_app ps qs : allBuilds (ps ++ qs) = allBuilds ps ++ allBuilds qs.
Proof. unfold allBuilds. by rewrite bind_app. Qed.

Lemma allBuilds_cons p ps :
  allBuilds (p :: ps) = (Apps p ≫= Builds) ++ allBuilds ps.
Proof. done. Qed.

(** X9. An upload adds exactly one build to the registry and loses none:
    the builds of the registry afterwards, read in registry order, are the
    builds before with [newBuild] inserted at one place.  This holds
    whether or not the registry could be saved. *)
Theorem updateMetadata_adds_one_build `{Codec} (projectName : string)
    (appInfo : AppInfo.t) (newBuild : BuildInfo) (w : World) :
  ∃ before after,
    allBuilds (allProjects w) = before ++ after ∧
    allBuilds (allProjects (updateMetadata projectName appInfo newBuild w).2)
      = before ++ newBuild :: after.
Proof.
  rewrite updateMetadata_registry. generalize (allProjects w). intros ps.
  destruct (list_find (λ p, ProjectName p = projectName) ps)
    as [[i p]|] eqn:Hfind.
  - destruct (upsert_found projectName appInfo newBuild ps i p Hfind)
      as (pre & post & -> & _ & ->).
    rewrite !allBuilds_app, !allBuilds_cons. simpl.
    destruct (list_find (λ a, PackageName a = AppInfo.PackageName appInfo) (Apps p))
      as [[j a]|] eqn:Hfa.
    + destruct (upsertApp_found appInfo newBuild (Apps p) j a Hfa)
        as (apre & apost & -> & _ & ->).
      rewrite !bind_app, !bind_cons. simpl.
      exists (allBuilds pre ++ (apre ≫= Builds)),
             (Builds a ++ (apost ≫= Builds) ++ allBuilds post).
      split; repeat (rewrite <- ?app_assoc; simpl); done.
    + rewrite upsertApp_new by done. rewrite bind_app. simpl.
      exists (allBuilds pre ++ (Apps p ≫= Builds)), (allBuilds post).
      split; repeat (rewrite <- ?app_assoc; simpl); done.
  - rewrite upsert_new by done. rewrite allBuilds_app.
    exists (allBuilds ps), []. by rewrite app_nil_r.
Qed.

(** X10. An upload never removes or reorders projects: the project names
    afterwards are the names before, followed by [projectName] if no
    project had that name. *)
Theorem updateMetadata_project_order `{Codec} (projectName : string)
    (appInfo : AppInfo.t) (newBuild : BuildInfo) (w : World) :
  ProjectName <$> allProjects (updateMetadata projectName appInfo newBuild w).2
  = if decide (projectName ∈ ProjectName <$> allProjects w)
    then ProjectName <$> allProjects w
    else (ProjectName <$> allProjects w) ++ [projectName].
Proof.
  rewrite updateMetadata_registry. generalize (allProjects w). intros ps.
  destruct (list_find (λ p, ProjectName p = projectName) ps)
    as [[i p]|] eqn:Hfind.
  - destruct (upsert_found projectName appInfo newBuild ps i p Hfind)
      as (pre & post & -> & _ & ->).
    apply list_find_split in Hfind as (_ & _ & _ & _ & _ & Hname).
    rewrite decide_True.
    + by rewrite !fmap_app, !fmap_cons.
    + rewrite fmap_app, fmap_cons, Hname. set_solver.
  - rewrite upsert_new by done. apply list_find_None in Hfind.
    rewrite decide_False; [by rewrite fmap_app|].
    intros (p & Hname & Hp)%list_elem_of_fmap.
    rewrite Forall_forall in Hfind. by apply (Hfind p).
Qed.

(** ** More on handleDeleteBuild *)

Lemma firstEntry_Some packageName ps a :
  firstEntry packageName ps = Some a ↔
  ∃ pre p post apre apost,
    ps = pre ++ p :: post ∧
    Forall (λ q, ¬ hasApp packageName q) pre ∧
    Apps p = apre ++ a :: apost ∧
    Forall (λ a', PackageName a' ≠ packageName) apre ∧
    PackageName a = packageName.
Proof.
  unfold firstEntry. split.
  - destruct (locateApp packageName ps) as [[[i j] a']|] eqn:Hloc; [|done].
    intros [= ->].
    apply locateApp_Some in Hloc
      as (pre & p & post & apre & apost & ? & _ & ? & ? & _ & ? & ?).
    by exists pre, p, post, apre, apost.
  - intros (pre & p & post & apre & apost & -> & Hpre & Happs & Hapre & Hpkg).
    assert (locateApp packageName (pre ++ p :: post)
            = Some (length pre, length apre, a)) as ->; [|done].
    induction Hpre as [|q pre Hq _ IH]; simpl.
    + by rewrite Happs, list_find_middle.
    + rewrite hasApp_find in Hq.
      destruct (list_find _ (Apps q)); [by destruct Hq|]. by rewrite IH.
Qed.

Lemma firstEntry_None packageName ps :
  firstEntry packageName ps = None ↔
  Forall (λ p, ¬ hasApp packageName p) ps.
Proof.
  unfold firstEntry. rewrite <- locateApp_None.
  by destruct (locateApp packageName ps) as [[[? ?] ?]|].
Qed.

(** What [handleDeleteBuild] does once the build was found: save the
    changed registry, then remove the file. *)
Lemma handleDeleteBuild_run `{Codec} c w a :
  query_password c = deletePassword →
  firstEntry (param_packageName c) (allProjects w) = Some a →
  Exists (λ b, FileName b = param_fileName c) (Builds a) →
  handleDeleteBuild c w =
    let changed :=
      deleteBuildEffect (param_packageName c) (param_fileName c) (allProjects w) in
    let '(err, w1) :=
      saveMetadata (mkWorld changed (disk w) (plan w) (trace w ++ [EvLock])) in
    match err with
    | Some _ =>
        (JSON StatusInternalServerError "error" "更新元数据失败",
         with_trace (trace w1 ++ [EvUnlock]) w1)
    | None =>
        let '(_, w2) := os_Remove (filepath_Join "uploads" (param_fileName c)) w1 in
        (JSON StatusOK "message" "构建版本已删除",
         with_trace (trace w2 ++ [EvUnlock]) w2)
    end.
Proof.
  intros Hpw Hfirst Hex. unfold firstEntry in Hfirst.
  destruct (locateApp _ _) as [[[i j] a']|] eqn:Hloc; simplify_eq/=.
  unfold handleDeleteBuild, deleteBuildEffect.
  rewrite decide_False by (by intros ?).
  run_handler. rewrite Hloc.
  rewrite bool_decide_eq_true_2 by done.
  rewrite (decide_True (P := Exists _ _)) by done. simpl.
  destruct (decide (length _ = 0)); simpl;
    destruct (saveMetadata _) as [[?|] w1]; simpl; try done;
    by destruct (os_Remove _ w1).
Qed.

Lemma locateApp_at packageName pre p post apre a apost :
  Forall (λ q, ¬ hasApp packageName q) pre →
  Apps p = apre ++ a :: apost →
  Forall (λ a', PackageName a' ≠ packageName) apre →
  PackageName a = packageName →
  locateApp packageName (pre ++ p :: post) = Some (length pre, length apre, a).
Proof.
  intros Hpre Happs Hapre Hpkg.
  induction Hpre as [|q pre Hq _ IH]; simpl.
  - by rewrite Happs, list_find_middle.
  - rewrite hasApp_find in Hq.
    destruct (list_find _ (Apps q)); [by destruct Hq|]. by rewrite IH.
Qed.

(** The registry after [handleDeleteBuild] found the build in entry [a]. *)
Lemma deleteBuildEffect_found packageName fileName pre p post apre a apost :
  Forall (λ q, ¬ hasApp packageName q) pre →
  Apps p = apre ++ a :: apost →
  Forall (λ a', PackageName a' ≠ packageName) apre →
  PackageName a = packageName →
  Exists (λ b, FileName b = fileName) (Builds a) →
  let kept := filter (λ b, FileName b ≠ fileName) (Builds a) in
  deleteBuildEffect packageName fileName (pre ++ p :: post)
  = pre ++ with_Apps
             (if decide (kept = [])
              then apre ++ filter (λ a', PackageName a' ≠ packageName) apost
              else apre ++ with_Builds kept a :: apost) p
        :: post.
Proof.
  intros Hpre Happs Hapre Hpkg Hex kept. unfold deleteBuildEffect.
  rewrite (locateApp_at packageName pre p post apre a apost) by done.
  rewrite decide_True by done. fold kept.
  rewrite !alter_middle. unfold with_Apps; simpl.
  rewrite Happs, alter_middle.
  destruct (decide (length kept = 0)) as [Hlen|Hlen].
  - rewrite decide_True by (by destruct kept).
    rewrite filter_app, filter_all by done.
    rewrite filter_cons_False; [done|]. simpl. naive_solver.
  - rewrite decide_False; [done|]. by intros ->.
Qed.

(** X11. Deleting one build of several.  Let [a] be the first entry with
    the package name, in project [p].  If [a] has a build with the file
    name and a build with another file name, then after
    [handleDeleteBuild], whether or not the registry could be saved, [a]
    has lost exactly its builds with that file name, the others keep
    their order, and every other entry and project is as it was. *)
Theorem handleDeleteBuild_keeps_other_builds `{Codec} (c : Request) (w : World)
    (pre post : list Project) (p : Project)
    (apre apost : list AppEntry) (a : AppEntry) :
  query_password c = deletePassword →
  allProjects w = pre ++ p :: post →
  Forall (λ q, ¬ hasApp (param_packageName c) q) pre →
  Apps p = apre ++ a :: apost →
  Forall (λ a', PackageName a' ≠ param_packageName c) apre →
  PackageName a = param_packageName c →
  Exists (λ b, FileName b = param_fileName c) (Builds a) →
  Exists (λ b, FileName b ≠ param_fileName c) (Builds a) →
  allProjects (handleDeleteBuild c w).2
  = pre ++ with_Apps
             (apre ++ with_Builds
                        (filter (λ b, FileName b ≠ param_fileName c) (Builds a)) a
                   :: apost) p
        :: post.
Proof.
  intros Hpw Hps Hpre Happs Hapre Hpkg Hex Hother.
  rewrite handleDeleteBuild_registry, Hps by done.
  rewrite (deleteBuildEffect_found _ _ pre p post apre a apost) by done.
  rewrite decide_False; [done|].
  apply Exists_exists in Hother as (b & Hb & Hname). intros Hnil.
  assert (b ∈ filter (λ b, FileName b ≠ param_fileName c) (Builds a)) as Hin
    by (by apply list_elem_of_filter).
  rewrite Hnil in Hin. by apply elem_of_nil in Hin.
Qed.

Lemma handleDeleteBuild_keeps_other_builds_witness :
  allProjects (handleDeleteBuild deleteOldBuild twoBuildsWorld).2
  = [mkProject "Demo"
       [mkAppEntry "Example" "com.example.app" "static/icons/com.example.app.png"
          [build "1.1" "beta" "app-1.1-beta-200.apk"]]].
Proof.
  pose proof (@handleDeleteBuild_keeps_other_builds plain_codec deleteOldBuild
                twoBuildsWorld [] [] _ [] [] _ eq_refl eq_refl
                (Forall_nil_2 _) eq_refl (Forall_nil_2 _) eq_refl) as Hrun.
  apply Hrun.
  - apply Exists_cons_tl, Exists_cons_hd. reflexivity.
  - apply Exists_cons_hd. by vm_compute.
Defined.

(** X12. If the registry cannot be saved after a build was taken out,
    [handleDeleteBuild] answers 500 and makes no further call: the build
    stays deleted in memory, and no file other than [metadata.json] and
    its backup is touched, so the APK file stays under [uploads/]. *)
Theorem handleDeleteBuild_save_failure `{Codec} (c : Request) (w : World)
    (a : AppEntry) (e : error) :
  query_password c = deletePassword →
  firstEntry (param_packageName c) (allProjects w) = Some a →
  Exists (λ b, FileName b = param_fileName c) (Builds a) →
  let changed :=
    deleteBuildEffect (param_packageName c) (param_fileName c) (allProjects w) in
  let saved :=
    saveMetadata (mkWorld changed (disk w) (plan w) (trace w ++ [EvLock])) in
  saved.1 = Some e →
  (handleDeleteBuild c w).1
    = JSON StatusInternalServerError "error" "更新元数据失败" ∧
  allProjects (handleDeleteBuild c w).2 = changed ∧
  trace (handleDeleteBuild c w).2 = trace saved.2 ++ [EvUnlock] ∧
  ∀ path, path ≠ metadataFilePath → path ≠ backupPath →
    disk (handleDeleteBuild c w).2 !! path = disk w !! path.
Proof.
  intros Hpw Hfirst Hex changed saved. subst saved.
  rewrite (handleDeleteBuild_run c w a) by done. cbv zeta. fold changed.
  pose proof (keeps_saveMetadata
                (mkWorld changed (disk w) (plan w) (trace w ++ [EvLock]))) as Hkeep.
  pose proof (touches_saveMetadata
                (mkWorld changed (disk w) (plan w) (trace w ++ [EvLock]))) as Hdisk.
  destruct (saveMetadata _) as [err w1]; simpl in *. intros ->. simpl.
  split_and!; [done..|]. intros path Hmeta Hbak. apply Hdisk.
  rewrite !not_elem_of_cons. split_and!; [done..|apply not_elem_of_nil].
Qed.

Lemma handleDeleteBuild_save_failure_witness :
  (handleDeleteBuild deleteOldBuild twoBuildsFullDisk).1
    = JSON 500 "error" "更新元数据失败" ∧
  targetBuilds "Demo" "com.example.app"
    (allProjects (handleDeleteBuild deleteOldBuild twoBuildsFullDisk).2)
    = [build "1.1" "beta" "app-1.1-beta-200.apk"] ∧
  disk (handleDeleteBuild deleteOldBuild twoBuildsFullDisk).2
    !! "uploads/app-1.0-beta-100.apk" = Some "apk 1.0".
Proof.
  destruct (@handleDeleteBuild_save_failure plain_codec deleteOldBuild
              twoBuildsFullDisk _
              (Errorf "写入元数据文件失败" (ErrOS "no space left on device"))
              eq_refl eq_refl) as (Hr & Hreg & _ & Hdisk).
  - apply Exists_cons_tl, Exists_cons_hd. reflexivity.
  - by vm_compute.
  - split_and!; [exact Hr|by rewrite Hreg|].
    etrans; [by apply Hdisk|by vm_compute].
Defined.

(** X13. Once the changed registry is saved, [handleDeleteBuild] answers
    200 whatever becomes of the APK file: a failing removal does not fail
    the request.  When the removal is not made to fail, no file is left at
    [uploads/<fileName>]. *)
Theorem handleDeleteBuild_success `{Codec} (c : Request) (w : World)
    (a : AppEntry) :
  query_password c = deletePassword →
  firstEntry (param_packageName c) (allProjects w) = Some a →
  Exists (λ b, FileName b = param_fileName c) (Builds a) →
  let changed :=
    deleteBuildEffect (param_packageName c) (param_fileName c) (allProjects w) in
  let saved :=
    saveMetadata (mkWorld changed (disk w) (plan w) (trace w ++ [EvLock])) in
  saved.1 = None →
  (handleDeleteBuild c w).1 = JSON StatusOK "message" "构建版本已删除" ∧
  (injected (hd Normal (plan saved.2)) = None →
   disk (handleDeleteBuild c w).2 !! filepath_Join "uploads" (param_fileName c)
     = None).
Proof.
  intros Hpw Hfirst Hex changed saved. subst saved.
  rewrite (handleDeleteBuild_run c w a) by done. cbv zeta. fold changed.
  destruct (saveMetadata _) as [err [ps d pl tr]]; simpl in *. intros ->.
  unfold os_Remove; go_unfold; simpl.
  destruct pl as [|o pl]; simpl;
    [|destruct (injected o) eqn:Ho; simpl];
    destruct (d !! _) eqn:Hd; simpl; split; try done;
    intros; simplify_eq; by simplify_map_eq.
Qed.

Lemma handleDeleteBuild_success_witness :
  (handleDeleteBuild deleteOldBuild twoBuildsStickyFile).1
    = JSON 200 "message" "构建版本已删除" ∧
  (handleDeleteBuild deleteOldBuild twoBuildsWorld).1
    = JSON 200 "message" "构建版本已删除" ∧
  disk (handleDeleteBuild deleteOldBuild twoBuildsWorld).2
    !! "uploads/app-1.0-beta-100.apk" = None.
Proof.
  assert (Exists (λ b, FileName b = param_fileName deleteOldBuild)
            [build "1.1" "beta" "app-1.1-beta-200.apk";
             build "1.0" "beta" "app-1.0-beta-100.apk"]) as Hex
    by (apply Exists_cons_tl, Exists_cons_hd; reflexivity).
  destruct (@handleDeleteBuild_success plain_codec deleteOldBuild
              twoBuildsStickyFile _ eq_refl eq_refl Hex
              ltac:(by vm_compute)) as [Hsticky _].
  destruct (@handleDeleteBuild_success plain_codec deleteOldBuild
              twoBuildsWorld _ eq_refl eq_refl Hex
              ltac:(by vm_compute)) as [Hr Hgone].
  split_and!; [exact Hsticky|exact Hr|apply Hgone; by vm_compute].
Defined.

(** X14. [handleDeleteBuild] looks at the first entry with the package
    name only.  When that entry has no build with the file name, the
    answer is 404 and nothing changes, even if an entry with the same
    package name in a later project has such a build. *)
Theorem handleDeleteBuild_first_entry_only `{Codec} (c : Request) (w : World)
    (a : AppEntry) :
  query_password c = deletePassword →
  firstEntry (param_packageName c) (allProjects w) = Some a →
  Forall (λ b, FileName b ≠ param_fileName c) (Builds a) →
  (handleDeleteBuild c w).1 = JSON StatusNotFound "error" "构建版本未找到" ∧
  allProjects (handleDeleteBuild c w).2 = allProjects w ∧
  disk (handleDeleteBuild c w).2 = disk w.
Proof.
  intros Hpw Hfirst Hall. unfold firstEntry in Hfirst.
  destruct (locateApp _ _) as [[[i j] a']|] eqn:Hloc; simplify_eq/=.
  by rewrite (handleDeleteBuild_not_found c w i j a).
Qed.

Lemma handleDeleteBuild_first_entry_only_witness :
  Exists (λ p, Exists (λ a, Exists (λ b, FileName b = "b.apk") (Builds a)) (Apps p))
    (allProjects sharedPackageWorld) ∧
  (handleDeleteBuild deleteOtherBuild sharedPackageWorld).1
    = JSON 404 "error" "构建版本未找到" ∧
  allProjects (handleDeleteBuild deleteOtherBuild sharedPackageWorld).2
    = allProjects sharedPackageWorld.
Proof.
  split.
  - apply Exists_cons_tl, Exists_cons_hd, Exists_cons_hd, Exists_cons_hd.
    reflexivity.
  - destruct (@handleDeleteBuild_first_entry_only plain_codec deleteOtherBuild
                sharedPackageWorld _ eq_refl eq_refl) as (Hr & Hreg & _).
    + repeat constructor. by vm_compute.
    + by split.
Defined.

(** ** More on handleDeleteApp *)

(** What [handleDeleteApp] does once the package was found. *)
Lemma handleDeleteApp_run `{Codec} c w project builds ps' :
  query_password c = deletePassword →
  removeApp (param_packageName c) (allProjects w) = Some (project, builds, ps') →
  handleDeleteApp c w =
    let changed := deleteAppEffect (param_packageName c) (allProjects w) in
    let '(err, w1) :=
      saveMetadata (mkWorld changed (disk w) (plan w) (trace w ++ [EvLock])) in
    match err with
    | Some _ =>
        (JSON StatusInternalServerError "error" "更新元数据失败",
         with_trace (trace w1 ++ [EvUnlock]) w1)
    | None =>
        let '(_, w2) := removeFiles builds w1 in
        let '(_, w3) := os_Remove (iconFile (param_packageName c)) w2 in
        (JSON StatusOK "message" "应用已删除",
         with_trace (trace w3 ++ [EvUnlock]) w3)
    end.
Proof.
  intros Hpw Hrem. unfold handleDeleteApp, deleteAppEffect, iconFile.
  rewrite decide_False by (by intros ?).
  run_handler. rewrite Hrem.
  destruct (decide (length _ = 0)); simpl;
    destruct (saveMetadata _) as [[?|] w1]; simpl; try done;
    destruct (removeFiles builds w1) as [? w2]; simpl;
    by destruct (os_Remove _ w2).
Qed.

(** X15. An unknown package: [handleDeleteApp] answers 404 with the
    app-not-found message and changes neither the registry nor the disk;
    the only calls are taking and releasing the mutex. *)
Theorem handleDeleteApp_not_found `{Codec} (c : Request) (w : World) :
  query_password c = deletePassword →
  Forall (λ p, ¬ hasApp (param_packageName c) p) (allProjects w) →
  handleDeleteApp c w =
    (JSON StatusNotFound "error" "应用未找到",
     mkWorld (allProjects w) (disk w) (plan w) (trace w ++ [EvLock; EvUnlock])).
Proof. apply handleDeleteApp_unknown_package. Qed.

Lemma handleDeleteApp_not_found_witness :
  handleDeleteApp deleteUnknownApp demoWorld =
    (JSON 404 "error" "应用未找到",
     with_trace [EvLock; EvUnlock] demoWorld).
Proof.
  apply (@handleDeleteApp_not_found plain_codec deleteUnknownApp demoWorld eq_refl).
  apply (bool_decide_unpack _). by vm_compute.
Defined.

Lemma os_Remove_calm path w :
  calm w →
  calm (os_Remove path w).2 ∧
  disk (os_Remove path w).2 = delete path (disk w).
Proof.
  destruct w as [ps d pl tr]. unfold calm; simpl. intros Hcalm.
  unfold os_Remove; go_unfold; simpl.
  destruct Hcalm as [|o pl -> Hcalm]; simpl;
    destruct (d !! path) eqn:Hd; simpl; split; try done;
    try (by constructor); by rewrite delete_id.
Qed.

Lemma removeFiles_calm builds w path :
  calm w →
  calm (removeFiles builds w).2 ∧
  disk (removeFiles builds w).2 !! path
  = if decide (path ∈ (λ b, filepath_Join "uploads" (FileName b)) <$> builds)
    then None else disk w !! path.
Proof.
  revert w. induction builds as [|b builds IH]; intros w Hcalm; simpl.
  - done.
  - unfold bind.
    destruct (os_Remove_calm (filepath_Join "uploads" (FileName b)) w Hcalm)
      as [Hcalm1 Hdisk1].
    destruct (os_Remove _ w) as [r w1]; simpl in *.
    destruct (IH w1 Hcalm1) as [Hcalm2 Hdisk2]. split; [done|].
    rewrite Hdisk2, Hdisk1.
    destruct (decide (path = filepath_Join "uploads" (FileName b))) as [->|Hne].
    + rewrite (decide_True (P := _ ∈ _ :: _)) by left.
      rewrite lookup_delete_eq. by case_decide.
    + rewrite lookup_delete_ne by done.
      destruct (decide (path ∈ _ <$> builds)) as [Hin|Hnin].
      * rewrite decide_True; [done|]. by apply list_elem_of_further.
      * rewrite decide_False; [done|]. apply not_elem_of_cons. by split.
Qed.

Lemma removeApp_last packageName pre p post a :
  Forall (λ q, ¬ hasApp packageName q) pre →
  last (filter (λ a', PackageName a' = packageName) (Apps p)) = Some a →
  removeApp packageName (pre ++ p :: post)
  = Some (with_Apps (filter (λ a', PackageName a' ≠ packageName) (Apps p)) p,
          Builds a,
          pre ++ with_Apps (filter (λ a', PackageName a' ≠ packageName) (Apps p)) p
              :: post).
Proof.
  intros Hpre Hlast.
  destruct (removeApp_first packageName pre p post Hpre) as (a' & Ha' & ->).
  - apply hasApp_last_match. by rewrite Hlast.
  - by simplify_eq.
Qed.

(** X16. Deleting an app whose registry change could be saved.  Let [p] be
    the first project holding the package and [a] the last entry of [p]
    with that package name.  [handleDeleteApp] answers 200, whatever
    becomes of the files.  When no call after the save is made to fail,
    then for every build of [a] no file is left at
    [filepath.Join("uploads", FileName)], the path the upload handler
    stores the APK of a build at, and no file is left at the icon path
    [filepath.Join("static", "icons", packageName + ".png")]. *)
Theorem handleDeleteApp_success `{Codec} (c : Request) (w : World)
    (pre post : list Project) (p : Project) (a : AppEntry) :
  query_password c = deletePassword →
  allProjects w = pre ++ p :: post →
  Forall (λ q, ¬ hasApp (param_packageName c) q) pre →
  last (filter (λ a', PackageName a' = param_packageName c) (Apps p)) = Some a →
  let changed := deleteAppEffect (param_packageName c) (allProjects w) in
  let saved :=
    saveMetadata (mkWorld changed (disk w) (plan w) (trace w ++ [EvLock])) in
  saved.1 = None →
  (handleDeleteApp c w).1 = JSON StatusOK "message" "应用已删除" ∧
  (calm saved.2 →
   (∀ b, b ∈ Builds a →
      disk (handleDeleteApp c w).2 !! filepath_Join "uploads" (FileName b) = None) ∧
   disk (handleDeleteApp c w).2 !! iconFile (param_packageName c) = None).
Proof.
  intros Hpw Hps Hpre Hlast changed saved. subst saved.
  rewrite (handleDeleteApp_run c w _ (Builds a) _
             ltac:(done) ltac:(rewrite Hps; by apply removeApp_last)).
  cbv zeta. fold changed.
  destruct (saveMetadata _) as [err w1]; simpl. intros ->.
  destruct (removeFiles (Builds a) w1) as [r2 w2] eqn:Hfiles.
  destruct (os_Remove (iconFile (param_packageName c)) w2) as [r3 w3] eqn:Hicon.
  simpl. split; [done|]. intros Hcalm.
  assert (∀ path, calm w2 ∧ disk w2 !! path
            = if decide (path ∈ (λ b, filepath_Join "uploads" (FileName b))
                                 <$> Builds a)
              then None else disk w1 !! path) as Hw2.
  { intros path. pose proof (removeFiles_calm (Builds a) w1 path Hcalm) as Hrm.
    by rewrite Hfiles in Hrm. }
  pose proof (os_Remove_calm (iconFile (param_packageName c)) w2
                (proj1 (Hw2 ""))) as [_ Hw3].
  rewrite Hicon in Hw3; simpl in Hw3. rewrite Hw3. split.
  - intros b Hb.
    destruct (decide (iconFile (param_packageName c)
                      = filepath_Join "uploads" (FileName b))) as [<-|Hother].
    { apply lookup_delete_eq. }
    rewrite lookup_delete_ne by done.
    rewrite (proj2 (Hw2 _)), decide_True; [done|].
    by apply (list_elem_of_fmap_2 (λ b, filepath_Join "uploads" (FileName b))).
  - apply lookup_delete_eq.
Qed.

Lemma handleDeleteApp_success_witness :
  (handleDeleteApp deleteExampleApp twoBuildsWithIcon).1
    = JSON 200 "message" "应用已删除" ∧
  disk (handleDeleteApp deleteExampleApp twoBuildsWithIcon).2
    !! "uploads/app-1.0-beta-100.apk" = None ∧
  disk (handleDeleteApp deleteExampleApp twoBuildsWithIcon).2
    !! "uploads/app-1.1-beta-200.apk" = None ∧
  disk (handleDeleteApp deleteExampleApp twoBuildsWithIcon).2
    !! "static/icons/com.example.app.png" = None.
Proof.
  destruct (@handleDeleteApp_success plain_codec deleteExampleApp
              twoBuildsWithIcon [] [] _ _ eq_refl eq_refl (Forall_nil_2 _)
              eq_refl ltac:(by vm_compute)) as [Hr Hgone].
  destruct Hgone as [Hfiles Hicon]; [apply (bool_decide_unpack _); by vm_compute|].
  split_and!; [exact Hr| | |exact Hicon].
  - apply (Hfiles (build "1.0" "beta" "app-1.0-beta-100.apk")).
    apply list_elem_of_further, list_elem_of_here.
  - apply (Hfiles (build "1.1" "beta" "app-1.1-beta-200.apk")).
    apply list_elem_of_here.
Defined.

(** X17. If the registry cannot be saved after an app was taken out,
    [handleDeleteApp] answers 500 and makes no further call: the app stays
    deleted in memory, while its APK files and its icon stay on disk. *)
Theorem handleDeleteApp_save_failure `{Codec} (c : Request) (w : World)
    (pre post : list Project) (p : Project) (e : error) :
  query_password c = deletePassword →
  allProjects w = pre ++ p :: post →
  Forall (λ q, ¬ hasApp (param_packageName c) q) pre →
  hasApp (param_packageName c) p →
  let changed := deleteAppEffect (param_packageName c) (allProjects w) in
  let saved :=
    saveMetadata (mkWorld changed (disk w) (plan w) (trace w ++ [EvLock])) in
  saved.1 = Some e →
  (handleDeleteApp c w).1
    = JSON StatusInternalServerError "error" "更新元数据失败" ∧
  allProjects (handleDeleteApp c w).2 = changed ∧
  trace (handleDeleteApp c w).2 = trace saved.2 ++ [EvUnlock] ∧
  ∀ path, path ≠ metadataFilePath → path ≠ backupPath →
    disk (handleDeleteApp c w).2 !! path = disk w !! path.
Proof.
  intros Hpw Hps Hpre Hp changed saved. subst saved.
  destruct (removeApp_first _ pre p post Hpre Hp) as (a & _ & Hrem).
  rewrite <- Hps in Hrem.
  rewrite (handleDeleteApp_run c w _ _ _ Hpw Hrem). cbv zeta. fold changed.
  pose proof (keeps_saveMetadata
                (mkWorld changed (disk w) (plan w) (trace w ++ [EvLock]))) as Hkeep.
  pose proof (touches_saveMetadata
                (mkWorld changed (disk w) (plan w) (trace w ++ [EvLock]))) as Hdisk.
  destruct (saveMetadata _) as [err w1]; simpl in *. intros ->. simpl.
  split_and!; [done..|]. intros path Hp1 Hp2. apply Hdisk.
  rewrite !not_elem_of_cons. split_and!; [done..|apply not_elem_of_nil].
Qed.

Lemma handleDeleteApp_save_failure_witness :
  (handleDeleteApp deleteExampleApp twoBuildsFullDisk).1
    = JSON 500 "error" "更新元数据失败" ∧
  allProjects (handleDeleteApp deleteExampleApp twoBuildsFullDisk).2 = [] ∧
  disk (handleDeleteApp deleteExampleApp twoBuildsFullDisk).2
    !! "uploads/app-1.0-beta-100.apk" = Some "apk 1.0".
Proof.
  destruct (@handleDeleteApp_save_failure plain_codec deleteExampleApp
              twoBuildsFullDisk [] [] _
              (Errorf "写入元数据文件失败" (ErrOS "no space left on device"))
              eq_refl eq_refl (Forall_nil_2 _)) as (Hr & Hreg & _ & Hdisk).
  - apply Exists_cons_hd. reflexivity.
  - by vm_compute.
  - split_and!; [exact Hr|by rewrite Hreg|].
    etrans; [by apply Hdisk|by vm_compute].
Defined.

(** ** What every sequence of requests keeps *)

Lemma NoDup_fmap_filter {A B} (f : A → B) (P : A → Prop)
    `{!∀ x, Decision (P x)} (l : list A) :
  NoDup (f <$> l) → NoDup (f <$> filter P l).
Proof.
  induction l as [|x l IH]; [done|].
  rewrite fmap_cons, NoDup_cons. intros [Hx Hl].
  rewrite filter_cons. case_decide; [|by apply IH].
  rewrite fmap_cons, NoDup_cons. split; [|by apply IH].
  intros (y & Hfy & Hy)%list_elem_of_fmap.
  apply list_elem_of_filter in Hy as [_ Hy].
  apply Hx. rewrite Hfy. by apply list_elem_of_fmap_2.
Qed.

Lemma Forall_filter_keeps {A} (P Q : A → Prop) `{!∀ x, Decision (Q x)}
    (l : list A) :
  Forall P l → Forall P (filter Q l).
Proof.
  rewrite !Forall_forall. intros Hl x [_ Hx]%list_elem_of_filter. by apply Hl.
Qed.

Lemma well_formed_replace pre p p' post :
  ProjectName p' = ProjectName p →
  well_formed_project p' →
  well_formed (pre ++ p :: post) →
  well_formed (pre ++ p' :: post).
Proof.
  intros Hname Hp' [Hnames Hall]. split.
  - by rewrite fmap_app, fmap_cons, Hname, <- fmap_cons, <- fmap_app.
  - apply Forall_app in Hall as [Hpre [_ Hpost]%Forall_cons].
    apply Forall_app. split; [done|]. by constructor.
Qed.

Lemma well_formed_filter (P : Project → Prop) `{!∀ p, Decision (P p)} ps :
  well_formed ps → well_formed (filter P ps).
Proof.
  intros [Hnames Hall]. split.
  - by apply NoDup_fmap_filter.
  - by apply Forall_filter_keeps.
Qed.

Lemma upsertApp_well_formed ai b p :
  well_formed_project p →
  well_formed_project (with_Apps (upsertApp ai b (Apps p)) p).
Proof.
  intros [Hnd Hall]. split; simpl; [by apply upsertApp_distinct_packages|].
  destruct (list_find (λ a, PackageName a = AppInfo.PackageName ai) (Apps p))
    as [[j a]|] eqn:Hfind.
  - destruct (upsertApp_found ai b (Apps p) j a Hfind)
      as (apre & apost & Happs & _ & ->).
    rewrite Happs in Hall.
    apply Forall_app in Hall as [Hpre [_ Hpost]%Forall_cons].
    apply Forall_app. split; [done|]. by constructor.
  - rewrite upsertApp_new by done.
    apply Forall_app. split; [done|]. by repeat constructor.
Qed.

Lemma upsert_well_formed n ai b ps :
  well_formed ps → well_formed (upsert n ai b ps).
Proof.
  intros Hwf.
  destruct (list_find (λ p, ProjectName p = n) ps) as [[i p]|] eqn:Hfind.
  - destruct (upsert_found n ai b ps i p Hfind) as (pre & post & -> & _ & ->).
    apply (well_formed_replace pre p); [done| |done].
    apply upsertApp_well_formed.
    destruct Hwf as [_ Hall].
    by apply Forall_app in Hall as [_ [? _]%Forall_cons].
  - destruct Hwf as [Hnames Hall]. split.
    + by apply (upsert_distinct_projects n ai b).
    + rewrite upsert_new by done.
      apply Forall_app. split; [done|]. constructor; [|done].
      split; simpl; [apply NoDup_singleton|by repeat constructor].
Qed.

Lemma deleteBuildEffect_well_formed packageName fileName ps :
  well_formed ps → well_formed (deleteBuildEffect packageName fileName ps).
Proof.
  intros Hwf.
  destruct (locateApp packageName ps) as [[[i j] a]|] eqn:Hloc;
    [|unfold deleteBuildEffect; by rewrite Hloc].
  destruct (decide (Exists (λ b, FileName b = fileName) (Builds a))) as [Hex|Hno].
  - pose proof Hloc as Hat.
    apply locateApp_Some in Hat
      as (pre & p & post & apre & apost & -> & _ & Hpre & Happs & _ & Hapre & Hpkg).
    rewrite (deleteBuildEffect_found _ _ pre p post apre a apost) by done.
    assert (well_formed_project p) as [Hnd Hall].
    { destruct Hwf as [_ Hall]. by apply Forall_app in Hall as [_ [? _]%Forall_cons]. }
    rewrite Happs in Hnd, Hall.
    apply Forall_app in Hall as [Hbpre [Hba Hbpost]%Forall_cons].
    apply (well_formed_replace pre p); [done| |done].
    case_decide as Hkept; split; simpl.
    + rewrite fmap_app in Hnd |- *. apply NoDup_app in Hnd as (? & Hdisj & [_ ?]%NoDup_cons).
      apply NoDup_app. split_and!; [done| |by apply NoDup_fmap_filter].
      intros x Hx (y & -> & [_ Hy]%list_elem_of_filter)%list_elem_of_fmap.
      apply (Hdisj _ Hx). rewrite fmap_cons. apply list_elem_of_further.
      by apply list_elem_of_fmap_2.
    + apply Forall_app. split; [done|]. by apply Forall_filter_keeps.
    + by rewrite fmap_app, fmap_cons in Hnd |- *.
    + apply Forall_app. split; [done|]. by constructor.
  - unfold deleteBuildEffect. rewrite Hloc, decide_False by done.
    rewrite (assign_same_builds packageName fileName ps i j a); [done..|].
    apply Forall_forall. intros b Hb Hname. apply Hno, Exists_exists. eauto.
Qed.

Lemma first_holder packageName ps :
  Forall (λ q, ¬ hasApp packageName q) ps ∨
  ∃ pre p post,
    ps = pre ++ p :: post ∧
    Forall (λ q, ¬ hasApp packageName q) pre ∧ hasApp packageName p.
Proof.
  induction ps as [|q ps IH]; [by left|].
  destruct (decide (hasApp packageName q)) as [Hq|Hq].
  - right. by exists [], q, ps.
  - destruct IH as [Hnone|(pre & p & post & -> & Hpre & Hp)].
    + left. by constructor.
    + right. exists (q :: pre), p, post. split_and!; [done| |done].
      by constructor.
Qed.

Lemma deleteAppEffect_well_formed packageName ps :
  well_formed ps → well_formed (deleteAppEffect packageName ps).
Proof.
  intros Hwf.
  destruct (first_holder packageName ps)
    as [Hnone|(pre & p & post & -> & Hpre & Hp)].
  - unfold deleteAppEffect. by rewrite removeApp_None.
  - rewrite deleteAppEffect_first by done.
    case_decide.
    + rewrite <- filter_app. apply well_formed_filter.
      destruct Hwf as [Hnames Hall]. split.
      * rewrite fmap_app, fmap_cons in Hnames. rewrite fmap_app.
        apply NoDup_app in Hnames as (? & Hdisj & [_ ?]%NoDup_cons).
        apply NoDup_app. split_and!; [done| |done].
        intros x Hx Hx'. apply (Hdisj x Hx). by apply list_elem_of_further.
      * apply Forall_app in Hall as [? [_ ?]%Forall_cons]. by apply Forall_app.
    + apply (well_formed_replace pre p); [done| |done].
      destruct Hwf as [_ Hall].
      apply Forall_app in Hall as [_ [[Hnd Hb] _]%Forall_cons].
      split; simpl; [by apply NoDup_fmap_filter|by apply Forall_filter_keeps].
Qed.

(** X18. Whatever requests are served, in whatever order, with whatever
    passwords and whatever the operating system answers: if project names
    were pairwise distinct, package names pairwise distinct inside each
    project, and no entry without builds, then this is still so
    afterwards.  In particular it holds for every registry built from the
    empty one. *)
Theorem requests_keep_well_formed `{Codec} (acts : list action) (w : World) :
  well_formed (allProjects w) →
  well_formed (allProjects (performAll acts w)).
Proof.
  revert w. induction acts as [|act acts IH]; intros w Hwf; simpl; [done|].
  apply IH. destruct act as [n ai b|c|c]; simpl.
  - rewrite updateMetadata_registry. by apply upsert_well_formed.
  - destruct (decide (query_password c = deletePassword)) as [Hpw|Hpw].
    + rewrite handleDeleteBuild_registry by done.
      by apply deleteBuildEffect_well_formed.
    + unfold handleDeleteBuild. by rewrite decide_True.
  - destruct (decide (query_password c = deletePassword)) as [Hpw|Hpw].
    + rewrite handleDeleteApp_registry by done.
      by apply deleteAppEffect_well_formed.
    + unfold handleDeleteApp. by rewrite decide_True.
Qed.

Lemma requests_keep_well_formed_witness :
  well_formed
    (allProjects
       (performAll
          [Upload "Demo" demoApp (build "1.0" "beta" "app-1.0-beta-100.apk");
           Upload "Other" demoApp (build "1.0" "beta" "app-1.0-beta-200.apk");
           DeleteBuild deleteOnlyBuild;
           Upload "Demo" iconlessApp (build "1.1" "beta" "app-1.1-beta-300.apk");
           DeleteApp deleteExampleApp]
          emptyWorld)).
Proof.
  apply (@requests_keep_well_formed plain_codec).
  split; [apply NoDup_nil_2|constructor].
Defined.

(** ** The detail page *)

Lemma findInApps_list_find packageName apps :
  findInApps packageName apps
  = snd <$> list_find (λ a, PackageName a = packageName) apps.
Proof.
  induction apps as [|a apps IH]; simpl; [done|].
  case_decide; [done|]. rewrite IH.
  by destruct (list_find _ apps) as [[? ?]|].
Qed.

Lemma findApp_at packageName pre p post apre a apost :
  Forall (λ q, ¬ hasApp packageName q) pre →
  Apps p = apre ++ a :: apost →
  Forall (λ a', PackageName a' ≠ packageName) apre →
  PackageName a = packageName →
  findApp packageName (pre ++ p :: post) = Some (a, p).
Proof.
  intros Hpre Happs Hapre Hpkg.
  induction Hpre as [|q pre Hq _ IH]; simpl.
  - by rewrite findInApps_list_find, Happs, list_find_middle.
  - rewrite hasApp_find in Hq. rewrite findInApps_list_find.
    destruct (list_find _ (Apps q)); [by destruct Hq|]. by rewrite IH.
Qed.

Lemma findApp_None packageName ps :
  findApp packageName ps = None ↔ Forall (λ p, ¬ hasApp packageName p) ps.
Proof.
  induction ps as [|p ps IH]; simpl; [done|].
  rewrite Forall_cons, hasApp_find, <- IH, findInApps_list_find.
  destruct (list_find _ (Apps p)) as [[j a]|]; simpl.
  - split; [done|]. intros [Hno _]. destruct Hno. eauto.
  - split; [|by intros [_ ?]]. intros ?. split; [|done]. by intros [? ?].
Qed.

(** The page and the delete handlers agree on the entry they mean. *)
Lemma findApp_firstEntry packageName ps :
  fst <$> findApp packageName ps = firstEntry packageName ps.
Proof.
  destruct (firstEntry packageName ps) as [a|] eqn:Hfirst.
  - apply firstEntry_Some in Hfirst
      as (pre & p & post & apre & apost & -> & ? & ? & ? & ?).
    by erewrite findApp_at.
  - apply firstEntry_None, findApp_None in Hfirst. by rewrite Hfirst.
Qed.

Lemma handleAppDetailPage_run c w :
  handleAppDetailPage c w =
    (match findApp (page_packageName c) (allProjects w) with
     | None => PageString StatusNotFound "应用未找到"
     | Some (foundApp, projectOwner) =>
         PageDetails StatusOK foundApp (ProjectName projectOwner)
           ((if request_TLS c then "https" else "http")
              +:+ "://" +:+ request_Host c)
     end,
     mkWorld (allProjects w) (disk w) (plan w) (trace w ++ [EvLock; EvUnlock])).
Proof.
  unfold handleAppDetailPage. run_handler.
  destruct (findApp _ _) as [[a p]|]; simpl; by rewrite <- app_assoc.
Qed.

(** X19. The detail page only reads: it changes neither the registry nor
    the disk, and makes no call besides taking and releasing the mutex.
    It answers 404 "应用未找到" exactly when no project holds an entry with
    the package name. *)
Theorem handleAppDetailPage_read_only (c : PageRequest) (w : World) :
  (handleAppDetailPage c w).2
    = mkWorld (allProjects w) (disk w) (plan w) (trace w ++ [EvLock; EvUnlock]) ∧
  ((handleAppDetailPage c w).1 = PageString StatusNotFound "应用未找到" ↔
   Forall (λ p, ¬ hasApp (page_packageName c) p) (allProjects w)).
Proof.
  rewrite handleAppDetailPage_run. simpl. split; [done|].
  rewrite <- findApp_None.
  by destruct (findApp _ _) as [[a p]|].
Qed.

(** X20. The entry shown by the detail page is the entry the delete
    handlers work on: the first entry with the package name in the first
    project that holds one, shown with the name of that project, and with
    the scheme https exactly when the request came over TLS. *)
Theorem handleAppDetailPage_shows_first (c : PageRequest) (w : World)
    (pre post : list Project) (p : Project)
    (apre apost : list AppEntry) (a : AppEntry) :
  allProjects w = pre ++ p :: post →
  Forall (λ q, ¬ hasApp (page_packageName c) q) pre →
  Apps p = apre ++ a :: apost →
  Forall (λ a', PackageName a' ≠ page_packageName c) apre →
  PackageName a = page_packageName c →
  (handleAppDetailPage c w).1
    = PageDetails StatusOK a (ProjectName p)
        ((if request_TLS c then "https" else "http") +:+ "://" +:+ request_Host c) ∧
  firstEntry (page_packageName c) (allProjects w) = Some a.
Proof.
  intros Hps Hpre Happs Hapre Hpkg.
  rewrite handleAppDetailPage_run, Hps. simpl.
  rewrite (findApp_at _ pre p post apre a apost) by done. split; [done|].
  apply firstEntry_Some. by exists pre, p, post, apre, apost.
Qed.

Lemma handleAppDetailPage_shows_first_witness :
  (handleAppDetailPage viewExampleApp sharedPackageWorld).1
    = PageDetails 200 (entry "Example" "com.example.app" "a.apk") "Demo"
        "http://localhost:1234" ∧
  firstEntry "com.example.app" (allProjects sharedPackageWorld)
    = Some (entry "Example" "com.example.app" "a.apk").
Proof.
  apply (handleAppDetailPage_shows_first viewExampleApp sharedPackageWorld
           [] [mkProject "Other" [entry "Example" "com.example.app" "b.apk"]]
           (mkProject "Demo" [entry "Example" "com.example.app" "a.apk";
                              entry "Tool" "com.example.tool" "t.apk"])
           [] [entry "Tool" "com.example.tool" "t.apk"]
           (entry "Example" "com.example.app" "a.apk"));
    done.
Defined.

Lemma upsert_skip n ai b q ps :
  ProjectName q ≠ n → upsert n ai b (q :: ps) = q :: upsert n ai b ps.
Proof.
  intros Hq. unfold upsert. simpl. rewrite decide_False by done.
  by destruct (list_find _ ps) as [[i p]|].
Qed.

Lemma upsert_skip_prefix n ai b pre ps :
  Forall (λ q, ProjectName q ≠ n) pre →
  upsert n ai b (pre ++ ps) = pre ++ upsert n ai b ps.
Proof.
  induction 1 as [|q pre Hq _ IH]; simpl; [done|].
  by rewrite upsert_skip, IH.
Qed.

(** The registry after an upload, seen from the detail page, when only
    the project named in the upload may hold the package. *)
Lemma findApp_upsert n ai b ps :
  Forall (λ p, ProjectName p ≠ n → ¬ hasApp (AppInfo.PackageName ai) p) ps →
  ∃ p',
    findApp (AppInfo.PackageName ai) (upsert n ai b ps)
    = Some (upserted ai b (targetApp n (AppInfo.PackageName ai) ps), p') ∧
    ProjectName p' = n.
Proof.
  intros Honly. unfold targetApp.
  destruct (list_find (λ p, ProjectName p = n) ps) as [[i p]|] eqn:Hfind.
  - destruct (upsert_found n ai b ps i p Hfind) as (pre & post & -> & Hpre & ->).
    apply list_find_split in Hfind as (_ & _ & _ & _ & _ & Hname).
    apply Forall_app in Honly as [Honly _].
    assert (Forall (λ q, ¬ hasApp (AppInfo.PackageName ai) q) pre) as Hnone.
    { rewrite Forall_forall in Honly, Hpre |- *. intros q Hq.
      by apply Honly, Hpre. }
    exists (with_Apps (upsertApp ai b (Apps p)) p). split; [|exact Hname].
    destruct (list_find (λ a, PackageName a = AppInfo.PackageName ai) (Apps p))
      as [[j a]|] eqn:Hfa; simpl.
    + destruct (upsertApp_found ai b (Apps p) j a Hfa)
        as (apre & apost & Happs & Hapre & Hup).
      apply list_find_split in Hfa as (_ & _ & _ & _ & _ & Hpkg).
      apply (findApp_at _ pre _ post apre _ apost); simpl; try done.
      by rewrite refreshApp_PackageName.
    + apply list_find_None in Hfa.
      apply (findApp_at _ pre _ post (Apps p) _ []); simpl; try done.
      by apply upsertApp_new, list_find_None.
  - rewrite upsert_new by done. apply list_find_None in Hfind.
    assert (Forall (λ q, ¬ hasApp (AppInfo.PackageName ai) q) ps) as Hnone.
    { rewrite Forall_forall in Honly, Hfind |- *. intros q Hq.
      by apply Honly, Hfind. }
    exists (mkProject n [upserted ai b None]). split; [|reflexivity].
    by apply (findApp_at _ ps _ [] [] _ []).
Qed.

(** X21. Upload, then look.  If no project other than the one named in
    the upload holds the package, then after [updateMetadata], whether or
    not the registry could be saved, the detail page of the package
    answers 200 under that project name and shows an entry with the
    uploaded app name whose first build is [newBuild], followed by the
    builds the entry had before. *)
Theorem upload_then_view `{Codec} (projectName : string) (appInfo : AppInfo.t)
    (newBuild : BuildInfo) (w : World) (c : PageRequest) :
  page_packageName c = AppInfo.PackageName appInfo →
  Forall (λ p, ProjectName p ≠ projectName →
               ¬ hasApp (AppInfo.PackageName appInfo) p) (allProjects w) →
  ∃ shown url,
    (handleAppDetailPage c (updateMetadata projectName appInfo newBuild w).2).1
      = PageDetails StatusOK shown projectName url ∧
    AppName shown = AppInfo.AppName appInfo ∧
    Builds shown
      = newBuild :: targetBuilds projectName (AppInfo.PackageName appInfo)
                      (allProjects w).
Proof.
  intros Hc Honly. rewrite handleAppDetailPage_run. simpl.
  rewrite updateMetadata_registry, Hc.
  destruct (findApp_upsert projectName appInfo newBuild (allProjects w) Honly)
    as (p' & -> & ->).
  eexists _, _. split; [done|]. unfold targetBuilds.
  destruct (targetApp _ _ _) as [a|]; simpl; [|done].
  by rewrite refreshApp_AppName.
Qed.

Lemma upload_then_view_witness :
  ∃ shown url,
    (handleAppDetailPage viewExampleApp
       (updateMetadata "Demo" iconlessApp
          (build "1.1" "beta" "app-1.1-beta-200.apk") fullDiskWorld).2).1
      = PageDetails 200 shown "Demo" url ∧
    AppName shown = "Example 2" ∧
    Builds shown = [build "1.1" "beta" "app-1.1-beta-200.apk";
                    build "1.0" "beta" "app-1.0-beta-100.apk"].
Proof.
  apply (@upload_then_view plain_codec "Demo" iconlessApp
           (build "1.1" "beta" "app-1.1-beta-200.apk") fullDiskWorld
           viewExampleApp eq_refl).
  repeat constructor. by intros [].
Defined.

(** X22. An upload that does not show.  Let [p] be the first project
    holding the package.  An upload of that package under a project name
    carried neither by [p] nor by any project before [p] creates or
    extends an entry further down the registry; the detail page of the
    package shows the same entry of [p] as before, without the new
    build. *)
Theorem upload_under_other_project_hidden `{Codec} (projectName : string)
    (appInfo : AppInfo.t) (newBuild : BuildInfo) (w : World) (c : PageRequest)
    (pre post : list Project) (p : Project) :
  page_packageName c = AppInfo.PackageName appInfo →
  allProjects w = pre ++ p :: post →
  Forall (λ q, ¬ hasApp (AppInfo.PackageName appInfo) q) pre →
  hasApp (AppInfo.PackageName appInfo) p →
  Forall (λ q, ProjectName q ≠ projectName) (pre ++ [p]) →
  (handleAppDetailPage c (updateMetadata projectName appInfo newBuild w).2).1
    = (handleAppDetailPage c w).1 ∧
  allProjects (updateMetadata projectName appInfo newBuild w).2
    = pre ++ p :: upsert projectName appInfo newBuild post.
Proof.
  intros Hc Hps Hpre Hp Hnames.
  rewrite !handleAppDetailPage_run. simpl.
  rewrite updateMetadata_registry, Hps, Hc.
  replace (pre ++ p :: post) with ((pre ++ [p]) ++ post)
    by (by rewrite <- app_assoc).
  rewrite upsert_skip_prefix by done. rewrite <- !app_assoc. simpl.
  split; [|done].
  apply hasApp_find in Hp as [[j a] Hfa].
  apply list_find_split in Hfa as (apre & apost & Happs & _ & Hapre & Hpkg).
  by rewrite !(findApp_at _ pre p _ apre a apost).
Qed.

Lemma upload_under_other_project_hidden_witness :
  (handleAppDetailPage viewExampleApp
     (updateMetadata "Other" iconlessApp
        (build "1.1" "beta" "app-1.1-beta-200.apk") demoWorld).2).1
    = (handleAppDetailPage viewExampleApp demoWorld).1 ∧
  allProjects (updateMetadata "Other" iconlessApp
                 (build "1.1" "beta" "app-1.1-beta-200.apk") demoWorld).2
    = allProjects demoWorld
      ++ [mkProject "Other"
            [mkAppEntry "Example 2" "com.example.app" ""
               [build "1.1" "beta" "app-1.1-beta-200.apk"]]].
Proof.
  apply (@upload_under_other_project_hidden plain_codec "Other" iconlessApp
           (build "1.1" "beta" "app-1.1-beta-200.apk") demoWorld viewExampleApp
           [] [] _ eq_refl eq_refl (Forall_nil_2 _)).
  - apply Exists_cons_hd. reflexivity.
  - repeat constructor. done.
Defined.

(** ** The mutex is taken once *)

Lemma lock_free_nil : lock_free [].
Proof. split; apply not_elem_of_nil. Qed.

Lemma lock_free_app evs1 evs2 :
  lock_free evs1 → lock_free evs2 → lock_free (evs1 ++ evs2).
Proof.
  intros [? ?] [? ?]. split; by apply not_elem_of_app.
Qed.

Lemma quiet_ret {A} (a : A) : quiet (ret a).
Proof. intros w. exists []. split; [by rewrite app_nil_r|apply lock_free_nil]. Qed.

Lemma quiet_bind {A B} (m : Go A) (k : A → Go B) :
  quiet m → (∀ a, quiet (k a)) → quiet (bind m k).
Proof.
  intros Hm Hk w. unfold bind. destruct (Hm w) as (evs1 & Hevs1 & Hfree1).
  destruct (m w) as [a w1]; simpl in *.
  destruct (Hk a w1) as (evs2 & Hevs2 & Hfree2).
  exists (evs1 ++ evs2). split; [|by apply lock_free_app].
  by rewrite Hevs2, Hevs1, app_assoc.
Qed.

Lemma quiet_emit e : e ≠ EvLock → e ≠ EvUnlock → quiet (emit e).
Proof.
  intros ? ? w. exists [e]. split; [done|].
  split; rewrite list_elem_of_singleton; congruence.
Qed.

Lemma quiet_silent {A} (m : Go A) :
  (∀ w, trace (m w).2 = trace w) → quiet m.
Proof.
  intros Hm w. exists []. split; [by rewrite Hm, app_nil_r|apply lock_free_nil].
Qed.

Lemma quiet_next_outcome : quiet next_outcome.
Proof. apply quiet_silent. intros w. unfold next_outcome. by destruct (plan w). Qed.

Lemma quiet_get_disk : quiet get_disk.
Proof. by apply quiet_silent. Qed.

Lemma quiet_set_disk d : quiet (set_disk d).
Proof. by apply quiet_silent. Qed.

Lemma quiet_get_allProjects : quiet get_allProjects.
Proof. by apply quiet_silent. Qed.

Lemma quiet_set_allProjects ps : quiet (set_allProjects ps).
Proof. by apply quiet_silent. Qed.

Create HintDb quiet.
#[global] Hint Resolve quiet_ret quiet_next_outcome quiet_get_disk
  quiet_set_disk quiet_get_allProjects quiet_set_allProjects : quiet.

Ltac quiet_tac :=
  repeat match goal with
    | |- quiet (bind _ _) => apply quiet_bind
    | |- quiet (emit _) => by apply quiet_emit
    | |- quiet (match ?x with _ => _ end) => destruct x
    | |- ∀ _, quiet _ => intros ?
    | |- quiet _ => by eauto with quiet
    end.

Lemma quiet_os_Stat path : quiet (os_Stat path).
Proof. unfold os_Stat. quiet_tac. Qed.

Lemma quiet_os_Rename a b : quiet (os_Rename a b).
Proof. unfold os_Rename. quiet_tac. Qed.

Lemma quiet_os_ReadFile path : quiet (os_ReadFile path).
Proof. unfold os_ReadFile. quiet_tac. Qed.

Lemma quiet_os_WriteFile path data : quiet (os_WriteFile path data).
Proof. unfold os_WriteFile. quiet_tac. Qed.

Lemma quiet_os_Remove path : quiet (os_Remove path).
Proof. unfold os_Remove. quiet_tac. Qed.

#[global] Hint Resolve quiet_os_Stat quiet_os_Rename quiet_os_ReadFile
  quiet_os_WriteFile quiet_os_Remove : quiet.

Lemma quiet_removeFiles builds : quiet (removeFiles builds).
Proof. induction builds; simpl; quiet_tac. Qed.

Lemma quiet_saveMetadata `{Codec} : quiet saveMetadata.
Proof. unfold saveMetadata. quiet_tac. Qed.

#[global] Hint Resolve quiet_removeFiles quiet_saveMetadata : quiet.

Lemma locked_once {A} (body : Go A) w :
  quiet body → holds_mutex_once w (locked body w).2.
Proof.
  intros Hbody. unfold locked, bind, emit, ret; simpl.
  destruct (Hbody (with_trace (trace w ++ [EvLock]) w)) as (evs & Hevs & Hfree).
  destruct (body _) as [r w1]; simpl in *.
  exists evs. split; [|done]. rewrite Hevs. by rewrite <- !app_assoc.
Qed.

(** X23. Every handler that uses the registry takes the mutex exactly
    once, as its first call, and releases it exactly once, as its last
    call; nothing it calls in between, [saveMetadata] included, touches
    the mutex.  For the delete handlers this is so once the password has
    been accepted. *)
Theorem mutex_taken_once `{Codec} (w : World)
    (projectName : string) (appInfo : AppInfo.t) (newBuild : BuildInfo)
    (c : Request) (pc : PageRequest) :
  holds_mutex_once w (loadMetadata w).2 ∧
  holds_mutex_once w (updateMetadata projectName appInfo newBuild w).2 ∧
  holds_mutex_once w (handleAppDetailPage pc w).2 ∧
  holds_mutex_once w (handleIndex pc w).2 ∧
  (query_password c = deletePassword →
   holds_mutex_once w (handleDeleteBuild c w).2 ∧
   holds_mutex_once w (handleDeleteApp c w).2).
Proof.
  split_and!; try (apply locked_once; quiet_tac).
  intros Hpw. unfold handleDeleteBuild, handleDeleteApp.
  rewrite !decide_False by (by intros ?).
  split; apply locked_once; quiet_tac.
Qed.

Lemma mutex_taken_once_witness :
  holds_mutex_once twoBuildsWorld (handleDeleteBuild deleteOldBuild twoBuildsWorld).2 ∧
  holds_mutex_once twoBuildsWorld (handleDeleteApp deleteOldBuild twoBuildsWorld).2.
Proof.
  apply (@mutex_taken_once plain_codec twoBuildsWorld "Demo" demoApp
           (build "1.0" "beta" "a.apk") deleteOldBuild viewExampleApp).
  reflexivity.
Defined.

(** ** The upload handler *)

Lemma keeps_os_ReadFile path : keeps_registry (os_ReadFile path).
Proof. unfold os_ReadFile. keeps_tac. Qed.

Lemma keeps_os_MkdirAll path : keeps_registry (os_MkdirAll path).
Proof. unfold os_MkdirAll. keeps_tac. Qed.

Lemma keeps_os_Create path : keeps_registry (os_Create path).
Proof. apply keeps_os_WriteFile. Qed.

#[global] Hint Resolve keeps_os_ReadFile keeps_os_MkdirAll keeps_os_Create : keeps.

Lemma keeps_apk_OpenFile `{Platform} path : keeps_registry (apk_OpenFile path).
Proof. unfold apk_OpenFile. keeps_tac. Qed.

Lemma keeps_storeIcon pkg packageName : keeps_registry (storeIcon pkg packageName).
Proof. unfold storeIcon. keeps_tac. Qed.

#[global] Hint Resolve keeps_apk_OpenFile keeps_storeIcon : keeps.

Lemma refuses_ret r : refuses_cleanly (ret r).
Proof. done. Qed.

Lemma refuses_bind {A} (m : Go A) (k : A → Go reply) :
  keeps_registry m → (∀ a, refuses_cleanly (k a)) → refuses_cleanly (bind m k).
Proof.
  intros Hm Hk w. unfold bind. specialize (Hm w).
  destruct (m w) as [a w1]; simpl in *. intros Hr. by rewrite Hk.
Qed.

Lemma refuses_deferred (cleanup : Go unit) (body : Go reply) :
  keeps_registry cleanup → refuses_cleanly body →
  refuses_cleanly (deferred cleanup body).
Proof.
  intros Hc Hb w. unfold deferred, bind, ret. specialize (Hb w).
  destruct (body w) as [r w1]; simpl in *. specialize (Hc w1).
  destruct (cleanup w1) as [[] w2]; simpl in *. intros Hr. by rewrite Hc, Hb.
Qed.

Lemma recordUpload_not_before `{Codec} c file appName packageName version
    uniqueFilename finalSavePath iconPath w :
  ¬ before_record
      (recordUpload c file appName packageName version uniqueFilename
         finalSavePath iconPath w).1.
Proof.
  unfold recordUpload, bind.
  destruct (updateMetadata _ _ _ w) as [[e|] w1]; simpl.
  - destruct (os_Remove finalSavePath w1) as [? w2]; simpl. by intros ?.
  - case_decide; simpl; by intros ?.
Qed.

Ltac refuses_tac :=
  repeat match goal with
    | |- refuses_cleanly (ret _) => apply refuses_ret
    | |- refuses_cleanly (recordUpload _ _ _ _ _ _ _ _) =>
        intros ? ?; by exfalso; eapply recordUpload_not_before
    | |- refuses_cleanly (bind _ _) => apply refuses_bind; [by keeps_tac|]
    | |- refuses_cleanly (deferred _ _) => apply refuses_deferred; [by keeps_tac|]
    | |- refuses_cleanly (match ?x with _ => _ end) => destruct x
    | |- ∀ _, refuses_cleanly _ => intros ?
    end.

(** X24. An upload that is refused before the record is made, for a
    missing file, a file that cannot be stored or parsed, an empty app
    name, package name or version, or an icon that cannot be written, has
    not changed the registry, whatever the operating system answered. *)
Theorem upload_refused_keeps_registry `{Codec} `{Platform}
    (c : UploadRequest) (w : World) :
  before_record (handleApiUpload c w).1 →
  allProjects (handleApiUpload c w).2 = allProjects w.
Proof.
  revert w. change (refuses_cleanly (handleApiUpload c)).
  unfold handleApiUpload, ingest. refuses_tac.
Qed.

Lemma upload_refused_keeps_registry_witness :
  (handleApiUpload (uploadOf "apk without version" "web") demoWorld).1
    = ReplyString 500 "解析APK版本名失败或版本名为空" None ∧
  allProjects (handleApiUpload (uploadOf "apk without version" "web") demoWorld).2
    = allProjects demoWorld.
Proof.
  split; [by vm_compute|].
  apply (@upload_refused_keeps_registry plain_codec demo_platform). by vm_compute.
Defined.

(** *** Paths of plain file names *)

Lemma split_path_no_slash s : has_slash s = false → split_path s = [s].
Proof.
  induction s as [|c s IH]; simpl; [done|].
  intros [Hc Hs]%orb_false_iff. by rewrite Hc, IH.
Qed.

Lemma split_path_slash s t :
  has_slash s = false →
  split_path (s +:+ String slash t) = s :: split_path t.
Proof.
  induction s as [|c s IH]; simpl.
  - done.
  - intros [Hc Hs]%orb_false_iff. by rewrite Hc, IH.
Qed.

Lemma clean_step_plain rooted stack name :
  plain_name name → clean_step rooted stack name = name :: stack.
Proof.
  intros (_ & ? & ? & ?). unfold clean_step.
  rewrite decide_False by (by intros [?|?]). by rewrite decide_False.
Qed.

Lemma app_not_empty s t : s ≠ "" → s +:+ t ≠ "".
Proof. by destruct s. Qed.

(** [filepath.Join(dir, name)] of two plain names. *)
Lemma filepath_JoinAll_2 dir name :
  plain_name dir → plain_name name →
  filepath_JoinAll [dir; name] = dir +:+ "/" +:+ name.
Proof.
  intros Hdir Hname. pose proof Hdir as (Hd & Hd0 & _). pose proof Hname as (Hn & Hn0 & _).
  unfold filepath_JoinAll. rewrite !filter_cons_True by done. simpl.
  unfold filepath_Clean.
  rewrite decide_False by (by apply app_not_empty).
  change ("/" +:+ name) with (String slash name).
  rewrite split_path_slash, split_path_no_slash by done. simpl.
  rewrite !clean_step_plain by done. simpl.
  destruct dir as [|c dir]; [done|]. simpl in *.
  by apply orb_false_iff in Hd as [-> _].
Qed.

(** [filepath.Join(a, b, name)] of three plain names. *)
Lemma filepath_JoinAll_3 a b name :
  plain_name a → plain_name b → plain_name name →
  filepath_JoinAll [a; b; name] = a +:+ "/" +:+ b +:+ "/" +:+ name.
Proof.
  intros Ha Hb Hname.
  pose proof Ha as (Ha1 & Ha0 & _). pose proof Hb as (Hb1 & Hb0 & _).
  pose proof Hname as (Hn & Hn0 & _).
  unfold filepath_JoinAll. rewrite !filter_cons_True by done. simpl.
  unfold filepath_Clean.
  rewrite decide_False by (by apply app_not_empty).
  change (a +:+ "/" +:+ b +:+ "/" +:+ name)
    with (a +:+ String slash (b +:+ String slash name)).
  rewrite !split_path_slash, split_path_no_slash by done. simpl.
  rewrite !clean_step_plain by done. simpl.
  destruct a as [|c a]; [done|]. simpl in *.
  by apply orb_false_iff in Ha1 as [-> _].
Qed.

(** A plain file name is found right under the directory it is joined to. *)
Lemma filepath_Join_plain name :
  plain_name name → filepath_Join "uploads" name = "uploads/" +:+ name.
Proof.
  intros Hname. unfold filepath_Join. by rewrite filepath_JoinAll_2.
Qed.

(** *** What one call does *)

Lemma os_WriteFile_spec path data w :
  allProjects (os_WriteFile path data w).2 = allProjects w ∧
  trace (os_WriteFile path data w).2 = trace w ++ [EvWriteFile path data] ∧
  ((os_WriteFile path data w).1 = None →
   disk (os_WriteFile path data w).2 = <[path := data]> (disk w)) ∧
  (calm w →
   (os_WriteFile path data w).1 = None ∧ calm (os_WriteFile path data w).2).
Proof.
  destruct w as [ps d pl tr]. unfold calm, os_WriteFile; go_unfold; simpl.
  destruct pl as [|[] pl]; simpl; split_and!; try done;
    intros [? ?]%Forall_cons; by simplify_eq.
Qed.

Lemma os_ReadFile_spec path w :
  allProjects (os_ReadFile path w).2 = allProjects w ∧
  disk (os_ReadFile path w).2 = disk w ∧
  trace (os_ReadFile path w).2 = trace w ++ [EvReadFile path] ∧
  (∀ bytes, (os_ReadFile path w).1 = inl bytes → disk w !! path = Some bytes) ∧
  (calm w →
   calm (os_ReadFile path w).2 ∧
   ∀ bytes, disk w !! path = Some bytes → (os_ReadFile path w).1 = inl bytes).
Proof.
  destruct w as [ps d pl tr]. unfold calm, os_ReadFile; go_unfold; simpl.
  destruct pl as [|[] pl]; simpl; destruct (d !! path); simpl;
    split_and!; try done; try (intros; by simplify_eq);
    intros Hc; try (apply Forall_cons in Hc as [? ?]); simplify_eq;
    (split; [done|intros; by simplify_eq]).
Qed.

Lemma os_MkdirAll_spec path w :
  allProjects (os_MkdirAll path w).2 = allProjects w ∧
  disk (os_MkdirAll path w).2 = disk w ∧
  trace (os_MkdirAll path w).2 = trace w ∧
  (calm w → (os_MkdirAll path w).1 = None ∧ calm (os_MkdirAll path w).2).
Proof.
  destruct w as [ps d pl tr]. unfold calm, os_MkdirAll; go_unfold; simpl.
  destruct pl as [|[] pl]; simpl; split_and!; try done;
    intros [? ?]%Forall_cons; by simplify_eq.
Qed.

Lemma os_Remove_spec path w :
  allProjects (os_Remove path w).2 = allProjects w ∧
  trace (os_Remove path w).2 = trace w ++ [EvRemove path] ∧
  (∀ other, other ≠ path →
     disk (os_Remove path w).2 !! other = disk w !! other) ∧
  (disk w !! path = None → disk (os_Remove path w).2 = disk w).
Proof.
  destruct w as [ps d pl tr]. unfold os_Remove; go_unfold; simpl.
  destruct pl as [|[] pl]; simpl; destruct (d !! path) eqn:Hd; simpl;
    split_and!; try done; intros; by simplify_map_eq.
Qed.

Lemma saveMetadata_calm `{Codec} (w : World) (data : string) :
  calm w →
  json_MarshalIndent (allProjects w) = inl data →
  (saveMetadata w).1 = None ∧ calm (saveMetadata w).2.
Proof.
  destruct w as [ps d pl tr]. unfold calm. simpl. intros Hcalm Hdata.
  destruct pl as [|o1 [|o2 [|o3 [|o4 pl]]]]; simpl in *;
    repeat match goal with
      | H : Forall _ (_ :: _) |- _ => apply Forall_cons in H as [? ?]
      end; subst;
    save_run; rewrite ?Hdata;
    repeat (case_match; simpl in *; simplify_eq; rewrite ?Hdata);
    same_marshal; simpl; split; try done; simplify_map_eq;
    by repeat constructor.
Qed.

(** *** The upload handler up to the record *)

Lemma deferred_run {A} (cleanup : Go unit) (body body' : Go A) w w' :
  body w = body' w' → deferred cleanup body w = deferred cleanup body' w'.
Proof. intros Hrun. unfold deferred, bind. by rewrite Hrun. Qed.

Lemma deferred_reply {A} (cleanup : Go unit) (body : Go A) w :
  (deferred cleanup body w).1 = (body w).1.
Proof.
  unfold deferred, bind, ret. destruct (body w) as [r w1].
  by destruct (cleanup w1).
Qed.

Lemma storeIcon_run (pkg : Apk.t) w :
  let run := storeIcon pkg (Apk.PackageName pkg) w in
  (∃ r, run.1 = inr r ∧ before_record r ∧ ¬ calm w) ∨
  (run.1 = inl (match Apk.Icon pkg with
                | inl _ => filepath_JoinAll ["static"; "icons"; iconName pkg]
                | inr _ => ""
                end) ∧
   allProjects run.2 = allProjects w ∧
   (calm w → calm run.2) ∧
   match Apk.Icon pkg with
   | inl icon =>
       let path := filepath_JoinAll ["static"; "icons"; iconName pkg] in
       disk run.2 = <[path := icon]> (<[path := ""]> (disk w)) ∧
       trace run.2 = trace w ++ [EvWriteFile path ""; EvWriteFile path icon]
   | inr _ => disk run.2 = disk w ∧ trace run.2 = trace w
   end).
Proof.
  unfold storeIcon. fold (iconName pkg).
  destruct (Apk.Icon pkg) as [icon|e]; simpl; [|by right].
  set (path := filepath_JoinAll ["static"; "icons"; iconName pkg]).
  unfold bind, ret.
  destruct (os_MkdirAll_spec (filepath_JoinAll ["static"; "icons"]) w)
    as (Hps1 & Hd1 & Htr1 & Hc1).
  destruct (os_MkdirAll _ w) as [[e|] w1]; simpl in *.
  { left. eexists. split_and!; [done|done|]. intros [? _]%Hc1. done. }
  unfold os_Create.
  destruct (os_WriteFile_spec path "" w1) as (Hps2 & Htr2 & Hd2 & Hc2).
  destruct (os_WriteFile path "" w1) as [[e|] w2]; simpl in *.
  { left. eexists. split_and!; [done|done|].
    intros [_ Hcalm]%Hc1. by destruct (Hc2 Hcalm). }
  destruct (os_WriteFile_spec path icon w2) as (Hps3 & Htr3 & Hd3 & Hc3).
  destruct (os_WriteFile path icon w2) as [[e|] w3]; simpl in *.
  { left. eexists. split_and!; [done|done|].
    intros [_ Hcalm]%Hc1. destruct (Hc2 Hcalm) as [_ Hcalm2].
    by destruct (Hc3 Hcalm2). }
  right. split_and!.
  - done.
  - congruence.
  - intros [_ Hcalm]%Hc1. destruct (Hc2 Hcalm) as [_ Hcalm2].
    by destruct (Hc3 Hcalm2).
  - rewrite Hd3, Hd2, Hd1 by done. done.
  - rewrite Htr3, Htr2, Htr1, <- app_assoc. done.
Qed.

Section UploadRuns.
Context `{Codec} `{Platform}.

Ltac refused_under_calm :=
  left; split; [done|].

(** With the temporary file in place: either the upload is refused before
    the record, which a calm system only does to an APK that is not valid,
    or the APK is valid, stored under its final name with its icon, and
    the handler goes on with the record. *)
Lemma ingest_run c file pkg w :
  disk w !! tempPath c file = Some (Content file) →
  apk_parse (Content file) = inl pkg →
  (before_record (ingest c file (tempPath c file) w).1 ∧
   (calm w → ¬ valid_apk pkg)) ∨
  (valid_apk pkg ∧
   ∃ w2,
     allProjects w2 = allProjects w ∧
     disk w2 = storedDisk c file pkg (disk w) ∧
     trace w2 = trace w ++ storingCalls c file pkg ∧
     (calm w → calm w2) ∧
     ingest c file (tempPath c file) w
     = recordUpload c file (Apk.Label pkg).1 (Apk.PackageName pkg)
         (Apk.VersionName pkg).1 (uniqueName c pkg) (finalPath c pkg)
         (iconPathOf pkg) w2).
Proof.
  intros Htemp Hparse. unfold ingest, apk_OpenFile, bind, ret.
  destruct (os_ReadFile_spec (tempPath c file) w) as (Hps1 & Hd1 & Htr1 & Hr1 & Hc1).
  destruct (os_ReadFile (tempPath c file) w) as [[bytes|e] w1]; simpl in *.
  2: { refused_under_calm. intros Hcalm. destruct (Hc1 Hcalm) as [_ Hread].
       by specialize (Hread _ Htemp). }
  assert (bytes = Content file) as -> by (specialize (Hr1 _ eq_refl); congruence).
  rewrite Hparse. simpl.
  unfold valid_apk, storedDisk, storingCalls, iconPathOf, finalPath, uniqueName,
    iconName.
  destruct (Apk.Label pkg) as [appName lerr] eqn:Hlabel.
  destruct (Apk.VersionName pkg) as [version verr] eqn:Hversion. simpl.
  case_decide as Hl.
  { refused_under_calm. intros _ (? & ? & _). by destruct Hl. }
  case_decide as Hp.
  { refused_under_calm. intros _ (_ & _ & ? & _). done. }
  case_decide as Hv.
  { refused_under_calm. intros _ (_ & _ & _ & ? & ?). by destruct Hv. }
  set (final := filepath_Join "uploads" _).
  destruct (os_ReadFile_spec (tempPath c file) w1) as (Hps2 & Hd2 & Htr2 & Hr2 & Hc2).
  destruct (os_ReadFile (tempPath c file) w1) as [[bytes|e] w2]; simpl in *.
  2: { refused_under_calm. intros [Hcalm _]%Hc1. destruct (Hc2 Hcalm) as [_ Hread].
       rewrite Hd1 in Hread. by specialize (Hread _ Htemp). }
  assert (bytes = Content file) as -> by (specialize (Hr2 _ eq_refl); congruence).
  destruct (os_WriteFile_spec final (Content file) w2) as (Hps3 & Htr3 & Hd3 & Hc3).
  destruct (os_WriteFile final (Content file) w2) as [[e|] w3]; simpl in *.
  { refused_under_calm. intros [Hcalm _]%Hc1. destruct (Hc2 Hcalm) as [Hcalm2 _].
    by destruct (Hc3 Hcalm2). }
  destruct (storeIcon_run pkg w3) as [(r & Hr & Hbefore & Hstorm)|(Hr & Hps4 & Hc4 & Hicon)];
    destruct (storeIcon pkg (Apk.PackageName pkg) w3) as [[iconPath|failed] w4];
    simpl in *; simplify_eq.
  { refused_under_calm. intros [Hcalm _]%Hc1. destruct (Hc2 Hcalm) as [Hcalm2 _].
    destruct (Hc3 Hcalm2) as [_ Hcalm3]. done. }
  right. split.
  { split_and!; try done.
    - destruct lerr; [|done]. by destruct Hl; left.
    - intros ->. by destruct Hl; right.
    - destruct verr; [|done]. by destruct Hv; left.
    - intros ->. by destruct Hv; right. }
  exists w4. split_and!.
  - congruence.
  - destruct (Apk.Icon pkg); destruct Hicon as [-> _];
      by rewrite Hd3, Hd2, Hd1.
  - destruct (Apk.Icon pkg); destruct Hicon as [_ ->];
      rewrite Htr3, Htr2, Htr1, <- ?app_assoc; done.
  - intros [Hcalm _]%Hc1. destruct (Hc2 Hcalm) as [Hcalm2 _].
    destruct (Hc3 Hcalm2) as [_ Hcalm3]. auto.
  - done.
Qed.

(** The whole handler, for a request that carries a file the parser
    accepts. *)
Lemma handleApiUpload_run c w file pkg :
  formFile c = inl file →
  apk_parse (Content file) = inl pkg →
  (before_record (handleApiUpload c w).1 ∧ (calm w → ¬ valid_apk pkg)) ∨
  (valid_apk pkg ∧
   ∃ w2,
     allProjects w2 = allProjects w ∧
     disk w2 = storedDisk c file pkg
                 (<[tempPath c file := Content file]> (disk w)) ∧
     trace w2 = trace w ++ EvWriteFile (tempPath c file) (Content file)
                        :: storingCalls c file pkg ∧
     (calm w → calm w2) ∧
     handleApiUpload c w
     = deferred (os_Remove (tempPath c file) ;;; ret tt)
         (recordUpload c file (Apk.Label pkg).1 (Apk.PackageName pkg)
            (Apk.VersionName pkg).1 (uniqueName c pkg) (finalPath c pkg)
            (iconPathOf pkg)) w2).
Proof.
  intros Hfile Hparse. unfold handleApiUpload. rewrite Hfile.
  fold (tempName c file). fold (tempPath c file). unfold bind, ret.
  destruct (os_WriteFile_spec (tempPath c file) (Content file) w)
    as (Hps1 & Htr1 & Hd1 & Hc1).
  destruct (os_WriteFile (tempPath c file) (Content file) w) as [[e|] w1];
    simpl in *.
  { left. split; [done|]. intros [? _]%Hc1. done. }
  specialize (Hd1 eq_refl).
  assert (disk w1 !! tempPath c file = Some (Content file)) as Htemp
    by (rewrite Hd1; apply lookup_insert_eq).
  destruct (ingest_run c file pkg w1 Htemp Hparse)
    as [[Hbefore Hstorm]|(Hvalid & w2 & Hps2 & Hd2 & Htr2 & Hc2 & Hrun)].
  - left. rewrite deferred_reply. split; [done|].
    intros [_ Hcalm]%Hc1. by apply Hstorm.
  - right. split; [done|]. exists w2. split_and!.
    + congruence.
    + by rewrite Hd2, Hd1.
    + by rewrite Htr2, Htr1, <- app_assoc.
    + intros [_ Hcalm]%Hc1. by apply Hc2.
    + by apply deferred_run.
Qed.
End UploadRuns.

(** *** Uploads that reach the record *)

(** X25. An upload whose record cannot be saved.  When the handler answers
    500 with the metadata message, the registry in memory holds the new
    build all the same: it is the registry before with the upload put in
    by [updateMetadata], under the file name of the APK that the handler,
    as its last calls but one, asks to remove. *)
Theorem upload_record_failure `{Codec} `{Platform} (c : UploadRequest)
    (w : World) (file : FileHeader) (pkg : Apk.t) (cause : option error) :
  formFile c = inl file →
  apk_parse (Content file) = inl pkg →
  (handleApiUpload c w).1
    = ReplyString StatusInternalServerError "更新元数据失败" cause →
  allProjects (handleApiUpload c w).2
    = upsert (postForm_projectName c) (uploadedApp pkg)
        (uploadedBuild c file pkg) (allProjects w) ∧
  ∃ evs,
    trace (handleApiUpload c w).2
    = trace w ++ evs ++ [EvUnlock;
                         EvRemove (filepath_Join "uploads"
                                     (FileName (uploadedBuild c file pkg)));
                         EvRemove (tempPath c file)].
Proof.
  intros Hfile Hparse.
  destruct (handleApiUpload_run c w file pkg Hfile Hparse)
    as [[Hbefore _]|(_ & w2 & Hps2 & _ & Htr2 & _ & ->)].
  { intros Hreply. rewrite Hreply in Hbefore. by destruct Hbefore. }
  unfold deferred, recordUpload, bind, ret.
  rewrite updateMetadata_run.
  pose proof (keeps_saveMetadata
    (mkWorld (upsert (postForm_projectName c) (uploadedApp pkg)
                (uploadedBuild c file pkg) (allProjects w2))
             (disk w2) (plan w2) (trace w2 ++ [EvLock]))) as Hkeep.
  destruct (extends_saveMetadata
    (mkWorld (upsert (postForm_projectName c) (uploadedApp pkg)
                (uploadedBuild c file pkg) (allProjects w2))
             (disk w2) (plan w2) (trace w2 ++ [EvLock]))) as [evs Hevs].
  unfold uploadedApp, uploadedBuild in *. simpl in *.
  destruct (saveMetadata _) as [[e|] w3]; simpl in *.
  2: { case_decide; simpl; destruct (os_Remove _ _); simpl; intros ?; simplify_eq. }
  destruct (os_Remove_spec (finalPath c pkg) (with_trace (trace w3 ++ [EvUnlock]) w3))
    as (Hps4 & Htr4 & _).
  destruct (os_Remove (finalPath c pkg) _) as [r4 w4]; simpl in *.
  destruct (os_Remove_spec (tempPath c file) w4) as (Hps5 & Htr5 & _).
  destruct (os_Remove (tempPath c file) w4) as [r5 w5]; simpl in *.
  intros _. split.
  - by rewrite Hps5, Hps4, Hkeep, Hps2.
  - exists (EvWriteFile (tempPath c file) (Content file)
            :: storingCalls c file pkg ++ EvLock :: evs).
    rewrite Htr5, Htr4, Hevs, Htr2.
    rewrite <- !app_assoc. simpl. rewrite <- !app_assoc. done.
Qed.

Lemma upload_record_failure_witness :
  allProjects (handleApiUpload (uploadOf "apk" "web") uploadFullDisk).2
  = [mkProject "Demo"
       [mkAppEntry "Example" "com.example.app" "static/icons/com.example.app.png"
          [mkBuildInfo "1.0" "beta" "notes" "com.example.app-1.0-beta-1700000000.apk"
             3 "2023-11-14 22:13:20"
             "/downloads/com.example.app-1.0-beta-1700000000.apk"]]].
Proof.
  etrans.
  - apply (@upload_record_failure plain_codec demo_platform
             (uploadOf "apk" "web") uploadFullDisk (mkFileHeader "app.apk" 3 "apk")
             demoApk
             (Some (Errorf "写入元数据文件失败" (ErrOS "no space left on device")))
             eq_refl eq_refl).
    by vm_compute.
  - by vm_compute.
Defined.

Lemma plain_uploads : plain_name "uploads".
Proof. by split_and!. Qed.

Lemma uploads_inj a b : "uploads/" +:+ a = "uploads/" +:+ b → a = b.
Proof. simpl. by intros [=]. Qed.

Lemma upload_paths `{Platform} c file pkg :
  plain_upload c file pkg →
  tempPath c file = "uploads/" +:+ tempName c file ∧
  finalPath c pkg = "uploads/" +:+ uniqueName c pkg ∧
  filepath_JoinAll ["static"; "icons"; iconName pkg]
    = "static/icons/" +:+ iconName pkg.
Proof.
  intros (Htemp & Hfinal & Hicon & _). unfold tempPath, finalPath.
  rewrite !filepath_Join_plain by done.
  by rewrite filepath_JoinAll_3.
Qed.

(** X26. An upload that is accepted is stored.  When the handler answers
    with the redirect (for the web form) or with the 200 message, and the
    names it built are plain file names, then whatever the operating
    system answered to the calls made: the registry in memory is the
    registry before with the upload put in, [metadata.json] holds its
    serialization, the APK is found with the bytes received at
    [filepath.Join("uploads", FileName)] of the recorded build, where the
    delete handlers look for it, and the icon, if the APK has one, is
    found at the recorded icon path. *)
Theorem upload_accepted_is_stored `{Codec} `{Platform} (c : UploadRequest)
    (w : World) (file : FileHeader) (pkg : Apk.t) (data : string) :
  formFile c = inl file →
  apk_parse (Content file) = inl pkg →
  (handleApiUpload c w).1 = accepted c →
  plain_upload c file pkg →
  let recorded :=
    upsert (postForm_projectName c) (uploadedApp pkg)
      (uploadedBuild c file pkg) (allProjects w) in
  json_MarshalIndent recorded = inl data →
  allProjects (handleApiUpload c w).2 = recorded ∧
  disk (handleApiUpload c w).2 !! metadataFilePath = Some data ∧
  disk (handleApiUpload c w).2
    !! filepath_Join "uploads" (FileName (uploadedBuild c file pkg))
    = Some (Content file) ∧
  ∀ icon, Apk.Icon pkg = inl icon →
    disk (handleApiUpload c w).2 !! AppInfo.IconPath (uploadedApp pkg) = Some icon.
Proof.
  intros Hfile Hparse Hreply Hplain recorded Hdata.
  destruct (upload_paths c file pkg Hplain) as (Etemp & Efinal & Eicon).
  destruct Hplain as (_ & _ & _ & Hdiffer).
  destruct (handleApiUpload_run c w file pkg Hfile Hparse)
    as [[Hbefore _]|(_ & w2 & Hps2 & Hd2 & _ & _ & Hrun)].
  { rewrite Hreply in Hbefore. unfold accepted in Hbefore. by case_decide. }
  revert Hreply. rewrite Hrun. clear Hrun.
  unfold deferred, recordUpload, bind, ret.
  rewrite updateMetadata_run.
  change (AppInfo.mk _ _ _ _) with (uploadedApp pkg).
  change (mkBuildInfo _ _ _ _ _ _ _) with (uploadedBuild c file pkg).
  rewrite Hps2. fold recorded.
  set (w3 := mkWorld recorded (disk w2) (plan w2) (trace w2 ++ [EvLock])).
  pose proof (keeps_saveMetadata w3) as Hkeep.
  pose proof (saveMetadata_success_disk w3 data Hdata) as Hsaved.
  pose proof (touches_saveMetadata w3) as Hframe.
  destruct (saveMetadata w3) as [[e|] w4]; simpl in *.
  { repeat (destruct (os_Remove _ _); simpl).
    unfold accepted. intros ?. case_decide; simplify_eq. }
  specialize (Hsaved eq_refl).
  set (w5 := with_trace (trace w4 ++ [EvUnlock]) w4).
  assert (∀ r, (let '(_, w') :=
                  let '(_, w') := os_Remove (tempPath c file) w5 in ((), w') in
                (r : reply, w')).2
               = (os_Remove (tempPath c file) w5).2) as Hsnd
    by (intros r; by destruct (os_Remove _ w5)).
  destruct (os_Remove_spec (tempPath c file) w5) as (Hps5 & _ & Hd5 & _).
  intros _.
  assert (∀ path, path ∉ [metadataFilePath; backupPath] →
            path ≠ tempPath c file →
            disk (os_Remove (tempPath c file) w5).2 !! path = disk w2 !! path)
    as Hkept.
  { intros path Hpath Htemp. rewrite Hd5 by done. by apply Hframe. }
  assert (∀ name, "uploads/" +:+ name ∉ [metadataFilePath; backupPath]) as Hup.
  { intros name. rewrite !not_elem_of_cons. split_and!; [done..|apply not_elem_of_nil]. }
  assert (∀ name, "static/icons/" +:+ name ∉ [metadataFilePath; backupPath]) as Hst.
  { intros name. rewrite !not_elem_of_cons. split_and!; [done..|apply not_elem_of_nil]. }
  case_decide; rewrite !Hsnd; (split_and!;
    [ by rewrite Hps5
    | rewrite Hd5 by (by rewrite Etemp); done
    | change (FileName (uploadedBuild c file pkg)) with (uniqueName c pkg);
      fold (finalPath c pkg);
      rewrite Hkept, Hd2;
      [ unfold storedDisk, iconPathOf; destruct (Apk.Icon pkg);
        rewrite ?Eicon, Efinal; by simplify_map_eq
      | rewrite Efinal; apply Hup
      | rewrite Efinal, Etemp; by intros ?%uploads_inj ]
    | intros icon Hicon; simpl; unfold iconPathOf; rewrite Hicon, Eicon;
      rewrite Hkept, Hd2;
      [ unfold storedDisk, iconPathOf; rewrite Hicon, Eicon; by simplify_map_eq
      | apply Hst
      | by rewrite Etemp ] ]).
Qed.

Lemma upload_accepted_is_stored_witness :
  disk (handleApiUpload (uploadOf "apk" "web") emptyWorld).2
    !! "uploads/com.example.app-1.0-beta-1700000000.apk" = Some "apk" ∧
  disk (handleApiUpload (uploadOf "apk" "web") emptyWorld).2
    !! "metadata.json" = Some "[Demo]" ∧
  disk (handleApiUpload (uploadOf "apk" "web") emptyWorld).2
    !! "static/icons/com.example.app.png" = Some "png".
Proof.
  destruct (@upload_accepted_is_stored plain_codec demo_platform
              (uploadOf "apk" "web") emptyWorld (mkFileHeader "app.apk" 3 "apk")
              demoApk "[Demo]" eq_refl eq_refl ltac:(by vm_compute)
              ltac:(apply (bool_decide_unpack _); by vm_compute) eq_refl)
    as (_ & Hmeta & Hapk & Hicon).
  split_and!; [exact Hapk|exact Hmeta|by apply Hicon].
Defined.

(** X27. On a system that makes no call fail, a valid APK is accepted:
    if the registry with the upload put in can be serialized, the handler
    answers with the redirect (for the web form) or the 200 message, and
    the temporary file is gone afterwards. *)
Theorem upload_calm_accepted `{Codec} `{Platform} (c : UploadRequest)
    (w : World) (file : FileHeader) (pkg : Apk.t) (data : string) :
  formFile c = inl file →
  apk_parse (Content file) = inl pkg →
  valid_apk pkg →
  calm w →
  json_MarshalIndent
    (upsert (postForm_projectName c) (uploadedApp pkg)
       (uploadedBuild c file pkg) (allProjects w)) = inl data →
  (handleApiUpload c w).1 = accepted c ∧
  disk (handleApiUpload c w).2 !! tempPath c file = None.
Proof.
  intros Hfile Hparse Hvalid Hcalm Hdata.
  destruct (handleApiUpload_run c w file pkg Hfile Hparse)
    as [[_ Hstorm]|(_ & w2 & Hps2 & _ & _ & Hcalm2 & ->)].
  { by destruct (Hstorm Hcalm). }
  specialize (Hcalm2 Hcalm).
  unfold deferred, recordUpload, bind, ret.
  rewrite updateMetadata_run.
  change (AppInfo.mk _ _ _ _) with (uploadedApp pkg).
  change (mkBuildInfo _ _ _ _ _ _ _) with (uploadedBuild c file pkg).
  rewrite Hps2.
  set (w3 := mkWorld _ (disk w2) (plan w2) (trace w2 ++ [EvLock])).
  destruct (saveMetadata_calm w3 data Hcalm2 Hdata) as [Hsaved Hcalm4].
  destruct (saveMetadata w3) as [err w4]; simpl in *. subst err.
  set (w5 := with_trace (trace w4 ++ [EvUnlock]) w4).
  destruct (os_Remove_calm (tempPath c file) w5 Hcalm4) as [_ Hgone].
  unfold accepted.
  case_decide; destruct (os_Remove (tempPath c file) w5) as [r6 w6];
    simpl in *; (split; [done|]); rewrite Hgone; apply lookup_delete_eq.
Qed.

Lemma upload_calm_accepted_witness :
  (handleApiUpload (uploadOf "apk" "web") emptyWorld).1
    = ReplyRedirect 302 "/?upload=success" ∧
  (handleApiUpload (uploadOf "apk without icon" "cli") demoWorld).1
    = ReplyJSON 200 "message" "Upload successful" ∧
  disk (handleApiUpload (uploadOf "apk" "web") emptyWorld).2
    !! "uploads/temp-1700000000123456789-app.apk" = None.
Proof.
  destruct (@upload_calm_accepted plain_codec demo_platform
              (uploadOf "apk" "web") emptyWorld (mkFileHeader "app.apk" 3 "apk")
              demoApk "[Demo]" eq_refl eq_refl
              ltac:(apply (bool_decide_unpack _); by vm_compute)
              ltac:(constructor) eq_refl) as [Hweb Hgone].
  destruct (@upload_calm_accepted plain_codec demo_platform
              (uploadOf "apk without icon" "cli") demoWorld
              (mkFileHeader "app.apk" 3 "apk without icon")
              _ "[Demo]" eq_refl eq_refl
              ltac:(apply (bool_decide_unpack _); by vm_compute)
              ltac:(constructor) eq_refl) as [Hcli _].
  split_and!; [exact Hweb|exact Hcli|exact Hgone].
Defined.

(** *** Uploads that end before the APK is stored *)

Lemma os_WriteFile_normal path data w :
  outcome_at 0 w = Normal →
  os_WriteFile path data w
  = (None, mkWorld (allProjects w) (<[path := data]> (disk w)) (tail (plan w))
             (trace w ++ [EvWriteFile path data])).
Proof.
  destruct w as [ps d pl tr]. unfold outcome_at, os_WriteFile; go_unfold; simpl.
  destruct pl as [|o pl]; simpl; [done|]. by intros ->.
Qed.

Lemma os_ReadFile_ok path w bytes :
  injected (outcome_at 0 w) = None →
  disk w !! path = Some bytes →
  os_ReadFile path w
  = (inl bytes, mkWorld (allProjects w) (disk w) (tail (plan w))
                  (trace w ++ [EvReadFile path])).
Proof.
  destruct w as [ps d pl tr]. unfold outcome_at, os_ReadFile; go_unfold; simpl.
  destruct pl as [|o pl]; simpl; intros Ho ->; [done|]. by rewrite Ho.
Qed.

Lemma outcome_at_tail ps d pl tr k :
  outcome_at k (mkWorld ps d (tail pl) tr) = nth (S k) pl Normal.
Proof. unfold outcome_at; simpl. destruct pl; [by destruct k|done]. Qed.

(** X28. An APK without an app name, a package name or a version is
    turned away before anything is kept.  With the upload saved and read
    without error, the handler answers 500 with one of the three messages
    for these fields, makes exactly three calls (the save of the temporary
    file, its read by the parser, and its removal), and leaves the
    registry and every file other than the temporary one as they were. *)
Theorem upload_invalid_apk_refused `{Codec} `{Platform} (c : UploadRequest)
    (w : World) (file : FileHeader) (pkg : Apk.t) :
  formFile c = inl file →
  apk_parse (Content file) = inl pkg →
  ¬ valid_apk pkg →
  outcome_at 0 w = Normal →
  injected (outcome_at 1 w) = None →
  (∃ message cause,
     (handleApiUpload c w).1
       = ReplyString StatusInternalServerError message cause ∧
     message ∈ ["解析APK应用名失败或应用名为空"; "解析APK包名失败或包名为空";
                "解析APK版本名失败或版本名为空"]) ∧
  allProjects (handleApiUpload c w).2 = allProjects w ∧
  trace (handleApiUpload c w).2
    = trace w ++ [EvWriteFile (tempPath c file) (Content file);
                  EvReadFile (tempPath c file);
                  EvRemove (tempPath c file)] ∧
  ∀ path, path ≠ tempPath c file →
    disk (handleApiUpload c w).2 !! path = disk w !! path.
Proof.
  intros Hfile Hparse Hinvalid Hsave Hread.
  unfold handleApiUpload. rewrite Hfile.
  fold (tempName c file). fold (tempPath c file). unfold bind, ret.
  rewrite os_WriteFile_normal by done.
  unfold deferred, ingest, apk_OpenFile, bind, ret.
  rewrite (os_ReadFile_ok _ _ (Content file))
    by (by rewrite ?outcome_at_tail; simpl; rewrite ?lookup_insert_eq).
  rewrite Hparse. simpl.
  set (w2 := mkWorld _ _ _ _).
  destruct (os_Remove_spec (tempPath c file) w2) as (Hps & Htr & Hd & _).
  assert (∀ path, path ≠ tempPath c file →
            disk (os_Remove (tempPath c file) w2).2 !! path = disk w !! path)
    as Hkept.
  { intros path Hpath. rewrite Hd by done. subst w2; simpl.
    by rewrite lookup_insert_ne. }
  unfold valid_apk in Hinvalid.
  destruct (Apk.Label pkg) as [appName lerr].
  destruct (Apk.VersionName pkg) as [version verr]. simpl in *.
  case_decide as Hl; [|case_decide as Hp; [|case_decide as Hv]];
    destruct (os_Remove (tempPath c file) w2) as [r3 w3]; simpl in *.
  4: { destruct Hinvalid. split_and!; try done.
       - destruct lerr; [|done]. by destruct Hl; left.
       - intros ->. by destruct Hl; right.
       - destruct verr; [|done]. by destruct Hv; left.
       - intros ->. by destruct Hv; right. }
  all: split_and!;
    [ eexists _, _; split; [done|];
      rewrite !elem_of_cons; by eauto
    | done
    | by rewrite Htr, <- !app_assoc
    | done ].
Qed.

Lemma upload_invalid_apk_refused_witness :
  allProjects (handleApiUpload (uploadOf "apk without version" "web") demoWorld).2
    = allProjects demoWorld ∧
  trace (handleApiUpload (uploadOf "apk without version" "web") demoWorld).2
    = [EvWriteFile "uploads/temp-1700000000123456789-app.apk" "apk without version";
       EvReadFile "uploads/temp-1700000000123456789-app.apk";
       EvRemove "uploads/temp-1700000000123456789-app.apk"].
Proof.
  destruct (@upload_invalid_apk_refused plain_codec demo_platform
              (uploadOf "apk without version" "web") demoWorld
              (mkFileHeader "app.apk" 3 "apk without version") _
              eq_refl eq_refl
              ltac:(apply (bool_decide_unpack _); by vm_compute)
              eq_refl eq_refl) as (_ & Hreg & Htrace & _).
  split; [exact Hreg|]. etrans; [exact Htrace|by vm_compute].
Defined.

(** *** The temporary file *)

Lemma calm_step {A} (m : Go A) :
  (∀ w, plan (m w).2 = plan w ∨ plan (m w).2 = tail (plan w)) → stays_calm m.
Proof.
  intros Hplan w Hcalm. unfold calm in *.
  destruct (Hplan w) as [->| ->]; [done|].
  destruct (plan w); [done|]. by apply Forall_cons in Hcalm as [_ ?].
Qed.

Lemma calm_ret {A} (a : A) : stays_calm (ret a).
Proof. intros w Hcalm. exact Hcalm. Qed.

Lemma calm_bind {A B} (m : Go A) (k : A → Go B) :
  stays_calm m → (∀ a, stays_calm (k a)) → stays_calm (bind m k).
Proof.
  intros Hm Hk w Hcalm. unfold bind. specialize (Hm w Hcalm).
  destruct (m w) as [a w1]. by apply Hk.
Qed.

Lemma calm_emit e : stays_calm (emit e).
Proof. intros w Hcalm. exact Hcalm. Qed.

Lemma calm_next_outcome : stays_calm next_outcome.
Proof.
  apply calm_step. intros [ps d pl tr]. unfold next_outcome; simpl.
  destruct pl; [by left|by right].
Qed.

Lemma calm_get_disk : stays_calm get_disk.
Proof. intros w Hcalm. exact Hcalm. Qed.

Lemma calm_set_disk d : stays_calm (set_disk d).
Proof. intros w Hcalm. exact Hcalm. Qed.

Lemma calm_get_allProjects : stays_calm get_allProjects.
Proof. intros w Hcalm. exact Hcalm. Qed.

Lemma calm_set_allProjects ps : stays_calm (set_allProjects ps).
Proof. intros w Hcalm. exact Hcalm. Qed.

Create HintDb calm.
#[global] Hint Resolve calm_ret calm_emit calm_next_outcome calm_get_disk
  calm_set_disk calm_get_allProjects calm_set_allProjects : calm.

Ltac calm_tac :=
  repeat match goal with
    | |- stays_calm (bind _ _) => apply calm_bind
    | |- stays_calm (match ?x with _ => _ end) => destruct x
    | |- stays_calm (let '(_, _) := ?x in _) => destruct x
    | |- ∀ _, stays_calm _ => intros ?
    | |- stays_calm _ => by eauto with calm
    end.

Lemma calm_os_Stat path : stays_calm (os_Stat path).
Proof. unfold os_Stat. calm_tac. Qed.

Lemma calm_os_Rename a b : stays_calm (os_Rename a b).
Proof. unfold os_Rename. calm_tac. Qed.

Lemma calm_os_ReadFile path : stays_calm (os_ReadFile path).
Proof. unfold os_ReadFile. calm_tac. Qed.

Lemma calm_os_WriteFile path data : stays_calm (os_WriteFile path data).
Proof. unfold os_WriteFile. calm_tac. Qed.

Lemma calm_os_Remove path : stays_calm (os_Remove path).
Proof. unfold os_Remove. calm_tac. Qed.

Lemma calm_os_MkdirAll path : stays_calm (os_MkdirAll path).
Proof. unfold os_MkdirAll. calm_tac. Qed.

#[global] Hint Resolve calm_os_Stat calm_os_Rename calm_os_ReadFile
  calm_os_WriteFile calm_os_Remove calm_os_MkdirAll : calm.

Lemma calm_saveMetadata `{Codec} : stays_calm saveMetadata.
Proof. unfold saveMetadata. calm_tac. Qed.

Lemma calm_updateMetadata `{Codec} n ai b : stays_calm (updateMetadata n ai b).
Proof.
  unfold updateMetadata, locked. pose proof calm_saveMetadata. calm_tac.
Qed.

#[global] Hint Resolve calm_saveMetadata calm_updateMetadata : calm.

Lemma calm_ingest `{Codec} `{Platform} c file path :
  stays_calm (ingest c file path).
Proof.
  unfold ingest, apk_OpenFile, storeIcon, recordUpload, os_Create. calm_tac.
Qed.

Lemma extends_os_ReadFile path : extends_trace (os_ReadFile path).
Proof. unfold os_ReadFile. extends_tac. Qed.

Lemma extends_os_MkdirAll path : extends_trace (os_MkdirAll path).
Proof. unfold os_MkdirAll. extends_tac. Qed.

Lemma extends_updateMetadata `{Codec} n ai b :
  extends_trace (updateMetadata n ai b).
Proof.
  intros w. destruct (updateMetadata_locked n ai b w) as [evs Hevs].
  by exists (EvLock :: evs ++ [EvUnlock]).
Qed.

#[global] Hint Resolve extends_os_ReadFile extends_os_MkdirAll
  extends_updateMetadata : extends.

Lemma extends_ingest `{Codec} `{Platform} c file path :
  extends_trace (ingest c file path).
Proof.
  unfold ingest, apk_OpenFile, storeIcon, recordUpload, os_Create.
  extends_tac.
Qed.

(** X29. The temporary file.  Once the upload is saved under its
    temporary name, the handler asks to remove that file on every path,
    as its last call, whatever was answered to the calls in between; on a
    system that makes no call fail the file is gone afterwards.  When the
    save itself fails, the handler answers 500 and makes no further call,
    so the removal is not asked for. *)
Theorem upload_temp_file_removed `{Codec} `{Platform} (c : UploadRequest)
    (w : World) (file : FileHeader) :
  formFile c = inl file →
  match outcome_at 0 w with
  | Normal =>
      (∃ evs,
         trace (handleApiUpload c w).2
         = trace w ++ EvWriteFile (tempPath c file) (Content file)
                   :: evs ++ [EvRemove (tempPath c file)]) ∧
      (calm w → disk (handleApiUpload c w).2 !! tempPath c file = None)
  | failed =>
      (handleApiUpload c w).1
        = ReplyString StatusInternalServerError "保存文件错误" (injected failed) ∧
      trace (handleApiUpload c w).2
        = trace w ++ [EvWriteFile (tempPath c file) (Content file)]
  end.
Proof.
  intros Hfile. unfold handleApiUpload. rewrite Hfile.
  fold (tempName c file). fold (tempPath c file). unfold bind, ret.
  destruct (outcome_at 0 w) as [|e|e torn] eqn:Hfirst.
  - rewrite os_WriteFile_normal by done.
    set (w1 := mkWorld _ _ _ _).
    unfold deferred, bind, ret.
    destruct (extends_ingest c file (tempPath c file) w1) as [evs Hevs].
    pose proof (calm_ingest c file (tempPath c file) w1) as Hcalm2.
    destruct (ingest c file (tempPath c file) w1) as [r w2]; simpl in *.
    destruct (os_Remove_spec (tempPath c file) w2) as (_ & Htr & _).
    pose proof (os_Remove_calm (tempPath c file) w2) as Hgone.
    destruct (os_Remove (tempPath c file) w2) as [r3 w3]; simpl in *. split.
    + exists evs. rewrite Htr, Hevs. by rewrite <- !app_assoc.
    + intros Hcalm. destruct Hgone as [_ ->]; [|apply lookup_delete_eq].
      apply Hcalm2. unfold calm in *; simpl.
      destruct (plan w); [done|]. by apply Forall_cons in Hcalm as [_ ?].
  - destruct w as [ps d [|o pl] tr]; unfold outcome_at in Hfirst;
      simpl in Hfirst; simplify_eq.
    unfold os_WriteFile; go_unfold; simpl. done.
  - destruct w as [ps d [|o pl] tr]; unfold outcome_at in Hfirst;
      simpl in Hfirst; simplify_eq.
    unfold os_WriteFile; go_unfold; simpl. done.
Qed.

Lemma upload_temp_file_removed_witness :
  disk (handleApiUpload (uploadOf "not an apk" "web") demoWorld).2
    !! "uploads/temp-1700000000123456789-app.apk" = None ∧
  (handleApiUpload (uploadOf "apk" "web") uploadNoSpace).1
    = ReplyString 500 "保存文件错误" (Some (ErrOS "no space left on device")).
Proof.
  pose proof (@upload_temp_file_removed plain_codec demo_platform
                (uploadOf "not an apk" "web") demoWorld
                (mkFileHeader "app.apk" 3 "not an apk") eq_refl) as Hcalm.
  pose proof (@upload_temp_file_removed plain_codec demo_platform
                (uploadOf "apk" "web") uploadNoSpace
                (mkFileHeader "app.apk" 3 "apk") eq_refl) as Hfull.
  simpl in Hcalm, Hfull. split.
  - apply Hcalm. constructor.
  - apply Hfull.
Defined.
